(** * Document summariser: a shallow embedding and its properties

    The development follows the Python sources module by module:
    [summarizers.py] (local and online strategies, the factory),
    [storage.py] (the SQLite table of saved summaries), [app.py] (the HTTP
    handlers), [cli.py] (the command line) and [parsers.py] (the readers of
    text, PDF and Word files).

    Conventions.
    - A Python [str] is a [string]; each [ascii] stands for one character
      (code points below 256), so slices [text[:n]] count characters.
      Literals of the sources with other glyphs are kept byte for byte.
    - A Python [dict] whose iteration order is observable (a fetched row,
      a JSON object) is an association list; a lookup table is a [gmap].
    - A function that may raise returns a [result]; a method that mutates
      [self] returns the new object next to its result; a function that
      touches the database takes it and returns it.
    - Collaborators whose code is not in the repository (the sentence
      tokenizer and the numeric kernels, the hosted model, the JSON
      codec, the PDF and Word libraries, the file system around the
      entry points) are interfaces.  Module [Sample] holds
      small executable instances of them; the JSON interface has laws,
      and its instance is a codec for which they are proved.

    The definitions come first (modules [Py] to [Notions]), the properties
    after them (modules [PyFacts] to [CommandLaws]). *)

From Stdlib Require Import String Ascii List ZArith QArith Qabs Lia Bool.
From Stdlib Require Import DecimalString DecimalZ.
From stdpp Require Import base tactics option list sorting gmap strings pretty.

Local Open Scope string_scope.
Local Open Scope list_scope.
Local Open Scope Z_scope.

(** ** Python values that the sources manipulate *)

Module Py.

(** Exceptions are kept by class, with the text [str(e)] shows. *)
Inductive exn : Type :=
| ValueError (msg : string)
| TypeError (msg : string)
| AttributeError (msg : string)
| KeyError (msg : string)
| OtherError (msg : string).

Definition exn_str (e : exn) : string :=
  match e with
  | ValueError m | TypeError m | AttributeError m | KeyError m
  | OtherError m => m
  end.

Inductive result (A : Type) : Type :=
| Ok (a : A)
| Raise (e : exn).
Arguments Ok {A} a.
Arguments Raise {A} e.

Definition bind {A B} (r : result A) (k : A -> result B) : result B :=
  match r with
  | Ok a => k a
  | Raise e => Raise e
  end.

(** [str.isspace] on one character (code points below 256). *)
Definition isspace (c : ascii) : bool :=
  let n := nat_of_ascii c in
  ((9 <=? n) && (n <=? 13) || (28 <=? n) && (n <=? 32)
   || (n =? 133) || (n =? 160))%nat.

Fixpoint lstrip (s : string) : string :=
  match s with
  | EmptyString => EmptyString
  | String c s' => if isspace c then lstrip s' else s
  end.

Fixpoint rstrip (s : string) : string :=
  match s with
  | EmptyString => EmptyString
  | String c s' =>
      match rstrip s' with
      | EmptyString => if isspace c then EmptyString else String c EmptyString
      | r => String c r
      end
  end.

(** [s.strip()] *)
Definition strip (s : string) : string := rstrip (lstrip s).

(** Empty, or whitespace from the first character to the last. *)
Fixpoint all_space (s : string) : bool :=
  match s with
  | EmptyString => true
  | String c s' => isspace c && all_space s'
  end.

(** The line feed and the double quote as one-character texts. *)
Definition nl : string := String "010"%char EmptyString.
Definition dquote : string := String "034"%char EmptyString.

(** [s[:n]] *)
Fixpoint slice_to (n : nat) (s : string) : string :=
  match n, s with
  | O, _ => EmptyString
  | _, EmptyString => EmptyString
  | S n', String c s' => String c (slice_to n' s')
  end.

(** [sep.join(parts)] *)
Fixpoint join (sep : string) (parts : list string) : string :=
  match parts with
  | [] => EmptyString
  | [p] => p
  | p :: ps => p +:+ sep +:+ join sep ps
  end.

(** Truth value of a [str]: non-empty. *)
Definition truthy_str (s : string) : bool :=
  match s with EmptyString => false | _ => true end.

(** [l if l else d] on lists: an empty list is false. *)
Definition list_or {A} (l d : list A) : list A :=
  match l with [] => d | _ => l end.

(** [s if s else d] on strings. *)
Definition str_or (s d : string) : string :=
  if truthy_str s then s else d.

(** [s.split(sep)] for a one-character separator. *)
Fixpoint split_on (sep : ascii) (s : string) : list string :=
  match s with
  | EmptyString => [EmptyString]
  | String c s' =>
      if Ascii.eqb c sep then EmptyString :: split_on sep s'
      else match split_on sep s' with
           | [] => [String c EmptyString]
           | w :: ws => String c w :: ws
           end
  end.

(** *** Objects

    The objects that travel through [storage.py] and [app.py]: what a
    fetched row holds, what [json.loads] returns, what a request
    carries.  A [dict] keeps its insertion order. *)
Unset Elimination Schemes.
Inductive value : Type :=
| VNone
| VBool (b : bool)
| VInt (n : Z)
| VStr (s : string)
| VList (items : list value)
| VDict (items : list (string * value)).
Set Elimination Schemes.

Definition dict : Type := list (string * value).

(** [d.get(key)], [None] of Rocq standing for an absent key. *)
Fixpoint dict_get (key : string) (d : dict) : option value :=
  match d with
  | [] => None
  | (k, v) :: d' => if String.eqb k key then Some v else dict_get key d'
  end.

(** [d[key] = v]: an existing key keeps its place. *)
Fixpoint dict_set (key : string) (v : value) (d : dict) : dict :=
  match d with
  | [] => [(key, v)]
  | (k, w) :: d' =>
      if String.eqb k key then (k, v) :: d' else (k, w) :: dict_set key v d'
  end.

(** [dict(pairs)] *)
Definition dict_of_pairs (pairs : list (string * value)) : dict :=
  fold_left (fun d kv => dict_set (fst kv) (snd kv) d) pairs [].

(** [bool(v)] *)
Definition truthy (v : value) : bool :=
  match v with
  | VNone => false
  | VBool b => b
  | VInt n => negb (n =? 0)
  | VStr s => truthy_str s
  | VList l => match l with [] => false | _ => true end
  | VDict d => match d with [] => false | _ => true end
  end.

(** [type(v).__name__] *)
Definition type_name (v : value) : string :=
  match v with
  | VNone => "NoneType"
  | VBool _ => "bool"
  | VInt _ => "int"
  | VStr _ => "str"
  | VList _ => "list"
  | VDict _ => "dict"
  end.

(** The message of a failed attribute access. *)
Definition no_attribute (v : value) (attr : string) : exn :=
  AttributeError ("'" +:+ type_name v +:+ "' object has no attribute '" +:+ attr +:+ "'").

(** The message of an absent key is the [repr] of the key; the keys
    looked up in the sources are plain identifiers. *)
Definition dict_item (key : string) (d : dict) : result value :=
  match dict_get key d with
  | Some v => Ok v
  | None => Raise (KeyError ("'" +:+ key +:+ "'"))
  end.

Definition hex_digit (n : nat) : ascii :=
  ascii_of_nat (if (n <? 10)%nat then 48 + n else 87 + n).

Definition hex2 (n : nat) : string :=
  String (hex_digit (n / 16)) (String (hex_digit (n mod 16)) EmptyString).

Fixpoint contains (c : ascii) (s : string) : bool :=
  match s with
  | EmptyString => false
  | String c' s' => Ascii.eqb c c' || contains c s'
  end.

Fixpoint flat_map_str (f : ascii -> string) (s : string) : string :=
  match s with
  | EmptyString => EmptyString
  | String c s' => f c +:+ flat_map_str f s'
  end.

(** [repr] of a [str]: single quotes unless the text has a single and no
    double quote; backslash, the chosen quote and the unprintable
    characters are escaped. *)
Definition repr_char (quote c : ascii) : string :=
  let n := nat_of_ascii c in
  if Ascii.eqb c "\"%char then "\\"
  else if Ascii.eqb c quote then String "\"%char (String c EmptyString)
  else if (n =? 9)%nat then "\t"
  else if (n =? 10)%nat then "\n"
  else if (n =? 13)%nat then "\r"
  else if ((n <? 32) || (n =? 127) || (128 <=? n) && (n <=? 160) || (n =? 173))%nat
       then "\x" +:+ hex2 n
  else String c EmptyString.

Definition repr_str (s : string) : string :=
  let quote := if contains "'"%char s && negb (contains "034"%char s)
               then "034"%char else "'"%char in
  String quote (flat_map_str (repr_char quote) s) +:+ String quote EmptyString.

(** [repr(v)] *)
Fixpoint py_repr (v : value) : string :=
  match v with
  | VNone => "None"
  | VBool b => if b then "True" else "False"
  | VInt n => pretty n
  | VStr s => repr_str s
  | VList l => "[" +:+ join ", " (py_repr <$> l) +:+ "]"
  | VDict d =>
      "{" +:+ join ", " ((fun kv => repr_str (fst kv) +:+ ": " +:+ py_repr (snd kv)) <$> d)
          +:+ "}"
  end.

(** [str(v)], which an f-string applies to its fields *)
Definition py_str (v : value) : string :=
  match v with
  | VStr s => s
  | _ => py_repr v
  end.

Fixpoint chars (s : string) : list string :=
  match s with
  | EmptyString => []
  | String c s' => String c EmptyString :: chars s'
  end.

(** [iter(v)]: the items of a list, the characters of a text, the keys
    of a dictionary. *)
Definition py_iter (v : value) : result (list value) :=
  match v with
  | VList l => Ok l
  | VStr s => Ok (VStr <$> chars s)
  | VDict d => Ok ((fun kv => VStr (fst kv)) <$> d)
  | _ => Raise (TypeError ("'" +:+ type_name v +:+ "' object is not iterable"))
  end.

(** [s * n] *)
Fixpoint repeat_str (s : string) (n : nat) : string :=
  match n with
  | O => EmptyString
  | S n' => s +:+ repeat_str s n'
  end.

(** The characters at which [str.splitlines] ends a line (code points
    below 256): line feed, vertical tab, form feed, carriage return,
    the three separators and NEL. *)
Definition line_end (c : ascii) : bool :=
  let n := nat_of_ascii c in
  ((10 <=? n) && (n <=? 13) || (28 <=? n) && (n <=? 30) || (n =? 133))%nat.

(** [s.splitlines()]: a carriage return and the line feed after it end
    one line, and no empty line follows the last end. *)
Fixpoint lines_from (cur : string) (s : string) : list string :=
  match s with
  | EmptyString => if truthy_str cur then [cur] else []
  | String c s' =>
      if line_end c then
        cur :: (if Ascii.eqb c "013"
                then match s' with
                     | String d s'' =>
                         if Ascii.eqb d "010" then lines_from EmptyString s''
                         else lines_from EmptyString s'
                     | EmptyString => lines_from EmptyString s'
                     end
                else lines_from EmptyString s')
      else lines_from (cur +:+ String c EmptyString) s'
  end.

Definition splitlines (s : string) : list string := lines_from EmptyString s.

(** No end of line in the text. *)
Fixpoint one_line (s : string) : bool :=
  match s with
  | EmptyString => true
  | String c s' => negb (line_end c) && one_line s'
  end.

(** The cased characters below 256. *)
Definition upper_char (c : ascii) : bool :=
  let n := nat_of_ascii c in
  ((65 <=? n) && (n <=? 90) || (192 <=? n) && (n <=? 222) && negb (n =? 215))%nat.

Definition lower_case_char (c : ascii) : bool :=
  let n := nat_of_ascii c in
  ((97 <=? n) && (n <=? 122) || (223 <=? n) && (n <=? 255) && negb (n =? 247)
   || (n =? 170) || (n =? 181) || (n =? 186))%nat.

Fixpoint any_char (p : ascii -> bool) (s : string) : bool :=
  match s with
  | EmptyString => false
  | String c s' => p c || any_char p s'
  end.

(** [s.isupper()]: a cased character, and none in lower case. *)
Definition isupper (s : string) : bool :=
  any_char upper_char s && negb (any_char lower_case_char s).

(** [t.startswith(s)] *)
Fixpoint starts_with (s t : string) : bool :=
  match s, t with
  | EmptyString, _ => true
  | String _ _, EmptyString => false
  | String a s', String b t' => Ascii.eqb a b && starts_with s' t'
  end.

(** [s in t] *)
Fixpoint occurs (s t : string) : bool :=
  starts_with s t
  || match t with
     | EmptyString => false
     | String _ t' => occurs s t'
     end.

(** Dictionaries hold each key once, at every depth. *)
Fixpoint well_formed (v : value) : Prop :=
  match v with
  | VList l =>
      (fix all (l : list value) : Prop :=
         match l with [] => True | x :: l' => well_formed x ∧ all l' end) l
  | VDict d =>
      NoDup (fst <$> d)
      ∧ (fix all (d : list (string * value)) : Prop :=
           match d with [] => True | kv :: d' => well_formed (snd kv) ∧ all d' end) d
  | _ => True
  end.

End Py.

Export Py.

(** ** The extractive engine behind [LocalSummarizer]

    [summarizers.py] obtains sentences, salience ranking and topic
    selection from imported packages; their code is not part of the
    repository.  The definitions of this module are therefore written
    from the component design (Tokenizer, Salience Ranker, Topic
    Extractor), each one marked as such.  The parser of plain text,
    which stands between the text and the sentence tokenizer, is
    written after the package. *)

Module Engine.

(** Modelled from the spec: the "immutable configuration bundle" of the
    tokenizer (sentence-boundary rules, word segmentation with
    lowercasing and punctuation stripping, stopword set, stemmer); the
    imported tokenizer, stopword list and stemmer are not under src/. *)
Class Locale : Type := {
  split_sentences : string -> list string;
  word_tokens : string -> list string;
  stopwords : gset string;
  stem : string -> string
}.

(** Modelled from the spec: the real-valued kernels of the Salience
    Ranker and the Topic Extractor (similarity graph and power
    iteration; singular value decomposition and numeric rank), which the
    sources import; only their results enter the selection logic.
    [salience toks i] is the final score of sentence [i];
    [right_singular m k] lists the [k] retained right-singular vectors by
    descending singular value, one component per sentence. *)
Class Numerics : Type := {
  salience : list (list string) -> nat -> Q;
  rank_deficient : list (list nat) -> bool;
  right_singular : list (list nat) -> nat -> list (list Q)
}.

(** Modelled from the spec: the Sentence record of the data model. *)
Record Sentence : Type := {
  index : nat;
  surface : string;
  tokens : list string
}.

(** *** The parser of plain text

    [PlaintextParser.from_string(text, Tokenizer("english")).document]
    of the imported package, as far as the sentences go: the text is
    stripped and cut into lines, each line is stripped; a line all in
    upper case is a heading, an empty line ends the paragraph; the
    other lines of a paragraph are joined, each after one space, and
    the joined text goes to the sentence tokenizer, whose pieces are
    stripped.  The headings are not among the sentences of the
    document. *)

(** What the current paragraph holds: headings and lines of text. *)
Inductive paragraph_entry : Type :=
| Heading (line : string)
| Line (line : string).

Section Parser.
Context {base : Locale}.

(** [Tokenizer.to_sentences(text)], then [Sentence(text, tokenizer)] on
    each piece; [base] cuts a paragraph into its sentences. *)
Definition to_sentences (text : string) : list string :=
  strip <$> split_sentences text.

(** [_to_sentences(lines)], [text] being the text gathered so far. *)
Fixpoint paragraph_sentences (text : string) (entries : list paragraph_entry) : list string :=
  match entries with
  | [] =>
      let text := strip text in
      if truthy_str text then to_sentences text else []
  | Heading _ :: rest =>
      (if truthy_str text then to_sentences text else [])
        ++ paragraph_sentences EmptyString rest
  | Line line :: rest => paragraph_sentences (text +:+ " " +:+ line) rest
  end.

(** The loop of [document] over the lines, [current_paragraph] being
    [current]. *)
Fixpoint document_from (current : list paragraph_entry) (lines : list string) : list string :=
  match lines with
  | [] => paragraph_sentences EmptyString current
  | line :: rest =>
      let line := strip line in
      if isupper line then document_from (current ++ [Heading line]) rest
      else if negb (truthy_str line)
              && match current with [] => false | _ :: _ => true end then
             paragraph_sentences EmptyString current ++ document_from [] rest
      else if truthy_str line then document_from (current ++ [Line line]) rest
      else document_from current rest
  end.

(** [document.sentences] *)
Definition document_sentences (text : string) : list string :=
  document_from [] (splitlines (strip text)).

(** The tokenizer of the package over the resources of [base]. *)
Definition plaintext : Locale :=
  {| split_sentences := document_sentences;
     word_tokens := word_tokens;
     stopwords := stopwords;
     stem := stem |}.
End Parser.

Section Tokenizer.
Context {locale : Locale}.

(** Modelled from the spec: stopword removal, then stemming. *)
Definition normalize (s : string) : list string :=
  stem <$> filter (fun w => w ∉ stopwords) (word_tokens s).

(** Modelled from the spec: the Tokenizer, sentences in source order,
    [index] = position. *)
Definition tokenize (text : string) : list Sentence :=
  imap (fun i s => {| index := i; surface := s; tokens := normalize s |})
       (split_sentences text).

(** Modelled from the spec: a text in which "no terms survive stopword
    removal": all words of all sentences are stopwords. *)
Definition only_stopwords (text : string) : Prop :=
  Forall (fun s => Forall (fun w => w ∈ stopwords) (word_tokens s))
         (split_sentences text).

Global Instance only_stopwords_dec (text : string) :
  Decision (only_stopwords text).
Proof. unfold only_stopwords. apply _. Defined.
End Tokenizer.

(** *** Salience ranking and selection *)

(** Modelled from the spec: a sentence with its salience score. *)
Definition scored : Type := Sentence * Q.

(** Modelled from the spec: "Tie-break for equal scores: lower original
    sentence index ranks higher". *)
Definition outranksb (a b : scored) : bool :=
  match Qcompare (snd a) (snd b) with
  | Gt => true
  | Eq => (index (fst a) <=? index (fst b))%nat
  | Lt => false
  end.

(** Modelled from the spec: the ranking order as a relation. *)
Definition outranks (a b : scored) : Prop := outranksb a b = true.

Global Instance outranks_dec : RelDecision outranks.
Proof. intros a b. unfold outranks. apply _. Defined.

(** Modelled from the spec: "original index (position in source order)",
    as the order the selection is re-sorted by, and its strict form. *)
Definition precedes (a b : Sentence) : Prop := (index a <= index b)%nat.

Definition before (a b : Sentence) : Prop := (index a < index b)%nat.

Global Instance precedes_dec : RelDecision precedes.
Proof. intros a b. unfold precedes. apply _. Defined.

Section Ranker.
Context {numerics : Numerics}.

(** Modelled from the spec: "selects the top-count sentences by
    salience score, re-sorts the selection by original index"; with
    fewer sentences than [count] all of them come back. *)
Definition text_rank (doc : list Sentence) (count : nat) : list Sentence :=
  let toks := tokens <$> doc in
  let rated := (fun s => (s, salience toks (index s))) <$> doc in
  let best := take count (merge_sort outranks rated) in
  merge_sort precedes (fst <$> best).
End Ranker.

(** *** Topic extraction *)

(** Modelled from the spec: rows = distinct stemmed terms, columns =
    sentences, cell = term frequency. *)
Definition terms (doc : list Sentence) : list string :=
  remove_dups (concat (tokens <$> doc)).

(** Modelled from the spec: "cell = term frequency in that sentence". *)
Definition term_frequency (t : string) (s : Sentence) : nat :=
  length (filter (fun w => w = t) (tokens s)).

(** Modelled from the spec: the TopicMatrix, one row per term. *)
Definition topic_matrix (doc : list Sentence) : list (list nat) :=
  (fun t => term_frequency t <$> doc) <$> terms doc.

(** Modelled from the spec: "an all-zero ... matrix"; a matrix without
    rows is one. *)
Definition all_zero (m : list (list nat)) : bool :=
  forallb (forallb (Nat.eqb 0)) m.

(** Modelled from the spec: the unselected sentence with the largest
    magnitude component, the lower index winning ties. *)
Fixpoint strongest (v : list Q) (i : nat) (taken : list nat)
         (best : option (nat * Q)) : option nat :=
  match v with
  | [] => fst <$> best
  | x :: v' =>
      let best' :=
        if bool_decide (i ∈ taken) then best
        else match best with
             | None => Some (i, Qabs x)
             | Some (j, y) =>
                 match Qcompare (Qabs x) y with
                 | Gt => Some (i, Qabs x)
                 | _ => best
                 end
             end in
      strongest v' (S i) taken best'
  end.

(** Modelled from the spec: one sentence per topic dimension, "first-claim
    wins". *)
Fixpoint claim_topics (dims : list (list Q)) (taken : list nat) : list nat :=
  match dims with
  | [] => []
  | v :: dims' =>
      match strongest v 0 taken None with
      | Some i => i :: claim_topics dims' (i :: taken)
      | None => claim_topics dims' taken
      end
  end.

Section TopicExtractor.
Context {numerics : Numerics}.

(** Modelled from the spec: the Topic Extractor with its degenerate-case
    fallback ("return the first k sentences in original order").  A
    document without terms is apart: the imported extractor finds its
    dictionary empty and returns no sentence at all, before any matrix
    is built, and that is what [extract_key_points] sees. *)
Definition lsa (doc : list Sentence) (k : nat) : list Sentence :=
  let m := topic_matrix doc in
  if bool_decide (terms doc = []) then []
  else if all_zero m || rank_deficient m then take k doc
  else
    let k' := (k `min` (length doc `min` length (terms doc)))%nat in
    omap (fun i => doc !! i) (claim_topics (right_singular m k') []).
End TopicExtractor.

End Engine.

(** ** summarizers.py *)

Module Summarizers.
Import Engine.

(** The glyph U+2022 of the prompt text, by its UTF-8 bytes. *)
Definition bullet : string :=
  String "226"%char (String "128"%char (String "162"%char EmptyString)).

(** *** class LocalSummarizer *)

Record LocalSummarizer : Type := {
  _initialized : bool;
  _nlp_ready : bool
}.

(** [LocalSummarizer()] *)
Definition new_local : LocalSummarizer :=
  {| _initialized := false; _nlp_ready := false |}.

(** [_initialize]: the package look-ups and downloads touch only the
    installation; on the object they set the flag. *)
Definition _initialize (self : LocalSummarizer) : LocalSummarizer :=
  if _initialized self then self
  else {| _initialized := true; _nlp_ready := _nlp_ready self |}.

(** The table [sentence_counts] of [summarize]. *)
Definition sentence_counts : gmap string nat :=
  <["short" := 3%nat]> (<["medium" := 5%nat]> (<["long" := 8%nat]> ∅)).

(** [sentence_counts.get(length, 5)] *)
Definition sentence_count (length : string) : nat :=
  default 5%nat (sentence_counts !! length).

Section Local.
Context {locale : Locale} {numerics : Numerics}.

(** [LocalSummarizer.summarize(text, length)] *)
Definition local_summarize (self : LocalSummarizer) (text length : string)
  : LocalSummarizer * string :=
  let self' := _initialize self in
  let sentences := text_rank (tokenize text) (sentence_count length) in
  let summary := join " " (surface <$> sentences) in
  (self', str_or summary (slice_to 500 text +:+ "...")).

(** [LocalSummarizer.extract_key_points(text, max_points)] *)
Definition local_extract_key_points (self : LocalSummarizer)
           (text : string) (max_points : nat)
  : LocalSummarizer * list string :=
  let self' := _initialize self in
  let sentences := lsa (tokenize text) max_points in
  let key_points := (fun s => strip (surface s)) <$> sentences in
  (self', list_or key_points [slice_to 200 text +:+ "..."]).

End Local.

(** *** class OnlineSummarizer *)

(** What [genai.GenerativeModel(name)] holds after [genai.configure]. *)
Record GenerativeModel : Type := {
  model_name : string;
  configured_key : string
}.

(** The hosted service: [model.generate_content(prompt)] followed by
    [response.text], or the exception either of them raises. *)
Class Gemini : Type := {
  generate_content : GenerativeModel -> string -> result string
}.

Record OnlineSummarizer : Type := {
  api_key : option string;
  _model : option GenerativeModel
}.

(** [OnlineSummarizer(api_key)] *)
Definition new_online (key : option string) : OnlineSummarizer :=
  {| api_key := key; _model := None |}.

(** No credential: [None], or the empty string the HTTP handler passes
    when the query has no [api_key]. *)
Definition no_credential (key : option string) : Prop :=
  key = None ∨ key = Some EmptyString.

Definition missing_key_message : string :=
  "API key is required for online summarization. Get one at https://aistudio.google.com/".

(** [_get_model]: [not self.api_key] holds for [None] and for ['']; the
    model created is kept in [self._model]. *)
Definition _get_model (self : OnlineSummarizer)
  : OnlineSummarizer * result GenerativeModel :=
  match _model self with
  | Some m => (self, Ok m)
  | None =>
      match api_key self with
      | None | Some EmptyString => (self, Raise (ValueError missing_key_message))
      | Some key =>
          let m := {| model_name := "gemini-1.5-flash"; configured_key := key |} in
          ({| api_key := api_key self; _model := Some m |}, Ok m)
      end
  end.

(** The bound of [text[:10000]] in both prompts. *)
Definition prompt_limit : nat := (100 * 100)%nat.

Definition length_instructions : gmap string string :=
  <["short" := "in 2-3 sentences"]>
    (<["medium" := "in 4-6 sentences"]>
       (<["long" := "in a detailed paragraph of 8-10 sentences"]> ∅)).

Definition summary_prompt (text length : string) : string :=
  "Summarize the following text "
    +:+ default "in 4-6 sentences" (length_instructions !! length) +:+ ". " +:+ nl
    +:+ "Focus on the main ideas and key information. Be concise and clear." +:+ nl
    +:+ nl +:+ "TEXT:" +:+ nl +:+ slice_to prompt_limit text +:+ nl +:+ nl +:+ "SUMMARY:".

Definition key_points_prompt (text : string) (max_points : nat) : string :=
  "Extract exactly " +:+ pretty max_points +:+ " key points from the following text." +:+ nl
    +:+ "Format each point as a clear, concise bullet point." +:+ nl
    +:+ "Return ONLY the bullet points, one per line, starting with "
    +:+ dquote +:+ bullet +:+ dquote +:+ "." +:+ nl
    +:+ nl +:+ "TEXT:" +:+ nl +:+ slice_to prompt_limit text +:+ nl +:+ nl +:+ "KEY POINTS:".

(** The rest of a line that starts with the bullet glyph. *)
Definition after_bullet (line : string) : option string :=
  match line with
  | String a (String b (String c rest)) =>
      if String.eqb (String a (String b (String c EmptyString))) bullet
      then Some rest else None
  | _ => None
  end.

(** [re.sub(r'^[•\-\*]\s*', '', line)]: one marker at the start of
    the line, the bullet glyph, a hyphen or a star, goes with the
    blanks that follow it. *)
Definition drop_marker (line : string) : string :=
  match after_bullet line with
  | Some rest => lstrip rest
  | None =>
      match line with
      | String c rest =>
          if Ascii.eqb c "-"%char || Ascii.eqb c "*"%char then lstrip rest else line
      | EmptyString => line
      end
  end.

(** The loop body of [extract_key_points]. *)
Definition collect_point (max_points : nat) (key_points : list string)
           (line : string) : list string :=
  let line := drop_marker (strip line) in
  if truthy_str line && (length key_points <? max_points)%nat
  then key_points ++ [line] else key_points.

Section Online.
Context {gemini : Gemini}.

(** [OnlineSummarizer.summarize(text, length)] *)
Definition online_summarize (self : OnlineSummarizer) (text length : string)
  : OnlineSummarizer * result string :=
  let '(self', got) := _get_model self in
  (self',
   bind got (fun model =>
   bind (generate_content model (summary_prompt text length)) (fun response_text =>
   Ok (strip response_text)))).

(** [OnlineSummarizer.extract_key_points(text, max_points)] *)
Definition online_extract_key_points (self : OnlineSummarizer)
           (text : string) (max_points : nat)
  : OnlineSummarizer * result (list string) :=
  let '(self', got) := _get_model self in
  (self',
   bind got (fun model =>
   bind (generate_content model (key_points_prompt text max_points)) (fun response_text =>
   let lines := split_on "010"%char (strip response_text) in
   let key_points := fold_left (collect_point max_points) lines [] in
   Ok (list_or key_points [strip response_text])))).
End Online.

(** *** The factory and the shared contract *)

Inductive Summarizer : Type :=
| Local (s : LocalSummarizer)
| Online (s : OnlineSummarizer).

(** [get_summarizer(mode, api_key)] *)
Definition get_summarizer (mode : string) (key : option string) : Summarizer :=
  if String.eqb mode "online" then Online (new_online key)
  else Local new_local.

Section Contract.
Context {locale : Locale} {numerics : Numerics} {gemini : Gemini}.

(** [summarizer.summarize(text, length)] on either strategy *)
Definition summarize (s : Summarizer) (text length : string)
  : Summarizer * result string :=
  match s with
  | Local l =>
      let '(l', out) := local_summarize l text length in (Local l', Ok out)
  | Online o =>
      let '(o', out) := online_summarize o text length in (Online o', out)
  end.

(** [summarizer.extract_key_points(text, max_points)] on either strategy *)
Definition extract_key_points (s : Summarizer) (text : string) (max_points : nat)
  : Summarizer * result (list string) :=
  match s with
  | Local l =>
      let '(l', out) := local_extract_key_points l text max_points in
      (Local l', Ok out)
  | Online o =>
      let '(o', out) := online_extract_key_points o text max_points in
      (Online o', out)
  end.
End Contract.

End Summarizers.

(** ** The JSON codec

    [storage.py] serialises with [json.dumps] and reads back with
    [json.loads]; both belong to the interpreter's library.  Their
    contract is the interface below: [json_loads] answers the object
    [json.loads] returns and [None] where it raises; [json_failure]
    then tells whether what it raises is a [JSONDecodeError] ([None])
    or another exception, as the [RecursionError] on a text nested too
    deep. *)

Module Json.

Class Codec : Type := {
  (** [json.dumps(v)] for [indent = None], [json.dumps(v, indent=n)] *)
  json_dumps : option nat -> value -> string;
  json_loads : string -> option value;
  json_failure : string -> option exn;
  loads_dumps : forall (indent : option nat) (v : value),
      well_formed v -> json_loads (json_dumps indent v) = Some v;
  dumps_truthy : forall (indent : option nat) (v : value),
      truthy_str (json_dumps indent v) = true;
  loads_empty : json_loads EmptyString = None
}.

End Json.

Export Json.

(** ** A codec in the interpreter's output format

    An executable codec for the interface: the encoder writes what
    [json.dumps] writes (separators [", "] and [": "], ASCII-only output
    with backslash escapes, [indent] levels on lines of their own); the
    decoder is a recursive-descent reader of RFC 8259 texts.  Numbers
    with a fraction or an exponent and [\u] escapes above 255 denote
    objects outside [value] and are not accepted. *)

Module PyJson.

Definition dq : ascii := "034"%char.
Definition bs : ascii := "\"%char.

(** *** Encoder *)

Definition escape_char (c : ascii) : string :=
  let n := nat_of_ascii c in
  if Ascii.eqb c dq then String bs (String dq EmptyString)
  else if Ascii.eqb c bs then String bs (String bs EmptyString)
  else if (n =? 10)%nat then "\n"
  else if (n =? 13)%nat then "\r"
  else if (n =? 9)%nat then "\t"
  else if (n =? 12)%nat then "\f"
  else if (n =? 8)%nat then "\b"
  else if ((n <? 32) || (126 <? n))%nat then "\u00" +:+ hex2 n
  else String c EmptyString.

(** Every emitter takes the text that follows. *)
Fixpoint emit_chars (s : string) (k : string) : string :=
  match s with
  | EmptyString => k
  | String c s' => escape_char c +:+ emit_chars s' k
  end.

Definition emit_quoted (s : string) (k : string) : string :=
  String dq (emit_chars s (String dq k)).

Fixpoint emit_spaces (n : nat) (k : string) : string :=
  match n with
  | O => k
  | S n' => String " " (emit_spaces n' k)
  end.

(** The line break and indentation before an item at depth [level]. *)
Definition emit_break (indent : option nat) (level : nat) (k : string) : string :=
  match indent with
  | None => k
  | Some n => String "010" (emit_spaces (n * level) k)
  end.

Definition emit_comma (indent : option nat) (level : nat) (k : string) : string :=
  match indent with
  | None => String "," (String " " k)
  | Some _ => String "," (emit_break indent level k)
  end.

Definition emit_int (n : Z) (k : string) : string :=
  match Z.to_int n with
  | Decimal.Pos u => NilEmpty.string_of_uint u +:+ k
  | Decimal.Neg u => String "-" (NilEmpty.string_of_uint u +:+ k)
  end.

Fixpoint emit (indent : option nat) (level : nat) (v : value) (k : string) : string :=
  match v with
  | VNone => "null" +:+ k
  | VBool b => (if b then "true" else "false") +:+ k
  | VInt n => emit_int n k
  | VStr s => emit_quoted s k
  | VList [] => "[]" +:+ k
  | VList (x :: xs) =>
      String "["
        (emit_break indent (S level)
           (emit indent (S level) x
              ((fix more (xs : list value) : string :=
                  match xs with
                  | [] => emit_break indent level (String "]" k)
                  | y :: ys =>
                      emit_comma indent (S level) (emit indent (S level) y (more ys))
                  end) xs)))
  | VDict [] => "{}" +:+ k
  | VDict ((key, x) :: ms) =>
      String "{"
        (emit_break indent (S level)
           (emit_quoted key (String ":" (String " "
              (emit indent (S level) x
                 ((fix more (ms : list (string * value)) : string :=
                     match ms with
                     | [] => emit_break indent level (String "}" k)
                     | (key', y) :: ms' =>
                         emit_comma indent (S level)
                           (emit_quoted key' (String ":" (String " "
                              (emit indent (S level) y (more ms')))))
                     end) ms))))))
  end.

(** What [emit] writes after the first item of a list and after the
    first member of a dictionary. *)
Fixpoint emit_items (indent : option nat) (level : nat) (k : string)
         (xs : list value) : string :=
  match xs with
  | [] => emit_break indent level (String "]" k)
  | y :: ys =>
      emit_comma indent (S level)
        (emit indent (S level) y (emit_items indent level k ys))
  end.

Fixpoint emit_members (indent : option nat) (level : nat) (k : string)
         (ms : list (string * value)) : string :=
  match ms with
  | [] => emit_break indent level (String "}" k)
  | (key, y) :: ms' =>
      emit_comma indent (S level)
        (emit_quoted key (String ":" (String " "
           (emit indent (S level) y (emit_members indent level k ms')))))
  end.

Definition dumps (indent : option nat) (v : value) : string :=
  emit indent 0 v EmptyString.

(** *** Decoder *)

Definition is_ws (c : ascii) : bool :=
  let n := nat_of_ascii c in
  ((n =? 32) || (n =? 9) || (n =? 10) || (n =? 13))%nat.

Fixpoint skip_ws (s : string) : string :=
  match s with
  | EmptyString => EmptyString
  | String c s' => if is_ws c then skip_ws s' else s
  end.

Definition hex_value (c : ascii) : option nat :=
  let n := nat_of_ascii c in
  if ((48 <=? n) && (n <=? 57))%nat then Some (n - 48)%nat
  else if ((97 <=? n) && (n <=? 102))%nat then Some (n - 87)%nat
  else if ((65 <=? n) && (n <=? 70))%nat then Some (n - 55)%nat
  else None.

Definition hex4 (a b c d : ascii) : option nat :=
  match hex_value a, hex_value b, hex_value c, hex_value d with
  | Some x, Some y, Some z, Some w => Some (((x * 16 + y) * 16 + z) * 16 + w)%nat
  | _, _, _, _ => None
  end.

Definition simple_escape (e : ascii) : option ascii :=
  if Ascii.eqb e dq then Some dq
  else if Ascii.eqb e bs then Some bs
  else if Ascii.eqb e "/" then Some "/"%char
  else if Ascii.eqb e "b" then Some "008"%char
  else if Ascii.eqb e "f" then Some "012"%char
  else if Ascii.eqb e "n" then Some "010"%char
  else if Ascii.eqb e "r" then Some "013"%char
  else if Ascii.eqb e "t" then Some "009"%char
  else None.

Definition push (c : ascii) (r : option (string * string)) : option (string * string) :=
  match r with
  | Some (s, rest) => Some (String c s, rest)
  | None => None
  end.

(** The characters of a string literal after its opening quote. *)
Fixpoint parse_chars (s : string) : option (string * string) :=
  match s with
  | EmptyString => None
  | String c rest =>
      if Ascii.eqb c dq then Some (EmptyString, rest)
      else if Ascii.eqb c bs then
        match rest with
        | String e rest1 =>
            if Ascii.eqb e "u" then
              match rest1 with
              | String h1 (String h2 (String h3 (String h4 rest2))) =>
                  match hex4 h1 h2 h3 h4 with
                  | Some n =>
                      if (n <? 256)%nat then push (ascii_of_nat n) (parse_chars rest2)
                      else None
                  | None => None
                  end
              | _ => None
              end
            else
              match simple_escape e with
              | Some ch => push ch (parse_chars rest1)
              | None => None
              end
        | EmptyString => None
        end
      else if (nat_of_ascii c <? 32)%nat then None
      else push c (parse_chars rest)
  end.

Definition digit_of (c : ascii) : option (Decimal.uint -> Decimal.uint) :=
  match nat_of_ascii c with
  | 48%nat => Some Decimal.D0 | 49%nat => Some Decimal.D1
  | 50%nat => Some Decimal.D2 | 51%nat => Some Decimal.D3
  | 52%nat => Some Decimal.D4 | 53%nat => Some Decimal.D5
  | 54%nat => Some Decimal.D6 | 55%nat => Some Decimal.D7
  | 56%nat => Some Decimal.D8 | 57%nat => Some Decimal.D9
  | _ => None
  end.

Fixpoint read_digits (s : string) : Decimal.uint * string :=
  match s with
  | EmptyString => (Decimal.Nil, EmptyString)
  | String c rest =>
      match digit_of c with
      | Some d => let '(u, r) := read_digits rest in (d u, r)
      | None => (Decimal.Nil, s)
      end
  end.

(** A fraction or an exponent would make the number a float. *)
Definition float_tail (s : string) : bool :=
  match s with
  | String c _ => Ascii.eqb c "." || Ascii.eqb c "e" || Ascii.eqb c "E"
  | EmptyString => false
  end.

(** The digits of an integer: at least one, no leading zero. *)
Definition parse_int (negative : bool) (s : string) : option (value * string) :=
  let '(u, rest) := read_digits s in
  if Decimal.uint_eq_dec (Decimal.unorm u) u then
    if float_tail rest then None
    else Some (VInt (Z.of_int (if negative then Decimal.Neg u else Decimal.Pos u)), rest)
  else None.

Fixpoint strip_prefix (word s : string) : option string :=
  match word with
  | EmptyString => Some s
  | String c word' =>
      match s with
      | String c' s' => if Ascii.eqb c c' then strip_prefix word' s' else None
      | EmptyString => None
      end
  end.

Definition literal (word : string) (v : value) (s : string) : option (value * string) :=
  match strip_prefix word s with
  | Some rest => Some (v, rest)
  | None => None
  end.

Fixpoint parse_value (fuel : nat) (s : string) : option (value * string) :=
  match fuel with
  | O => None
  | S fuel' =>
      match skip_ws s with
      | EmptyString => None
      | String c rest =>
          if Ascii.eqb c dq then
            match parse_chars rest with
            | Some (str, rest') => Some (VStr str, rest')
            | None => None
            end
          else if Ascii.eqb c "[" then
            match skip_ws rest with
            | String "]" rest' => Some (VList [], rest')
            | _ =>
                match parse_items fuel' rest with
                | Some (l, rest') => Some (VList l, rest')
                | None => None
                end
            end
          else if Ascii.eqb c "{" then
            match skip_ws rest with
            | String "}" rest' => Some (VDict [], rest')
            | _ =>
                match parse_members fuel' rest with
                | Some (l, rest') => Some (VDict (dict_of_pairs l), rest')
                | None => None
                end
            end
          else if Ascii.eqb c "-" then parse_int true rest
          else if Ascii.eqb c "n" then literal "ull" VNone rest
          else if Ascii.eqb c "t" then literal "rue" (VBool true) rest
          else if Ascii.eqb c "f" then literal "alse" (VBool false) rest
          else parse_int false (String c rest)
      end
  end
with parse_items (fuel : nat) (s : string) : option (list value * string) :=
  match fuel with
  | O => None
  | S fuel' =>
      match parse_value fuel' s with
      | Some (v, rest) =>
          match skip_ws rest with
          | String c rest' =>
              if Ascii.eqb c "," then
                match parse_items fuel' rest' with
                | Some (vs, r) => Some (v :: vs, r)
                | None => None
                end
              else if Ascii.eqb c "]" then Some ([v], rest')
              else None
          | EmptyString => None
          end
      | None => None
      end
  end
with parse_members (fuel : nat) (s : string)
     : option (list (string * value) * string) :=
  match fuel with
  | O => None
  | S fuel' =>
      match skip_ws s with
      | String q rest =>
          if Ascii.eqb q dq then
            match parse_chars rest with
            | Some (key, rest1) =>
                match skip_ws rest1 with
                | String ":" rest2 =>
                    match parse_value fuel' rest2 with
                    | Some (v, rest3) =>
                        match skip_ws rest3 with
                        | String c rest4 =>
                            if Ascii.eqb c "," then
                              match parse_members fuel' rest4 with
                              | Some (ms, r) => Some ((key, v) :: ms, r)
                              | None => None
                              end
                            else if Ascii.eqb c "}" then Some ([(key, v)], rest4)
                            else None
                        | EmptyString => None
                        end
                    | None => None
                    end
                | _ => None
                end
            | None => None
            end
          else None
      | EmptyString => None
      end
  end.

(** [json.loads]: one value, then nothing but whitespace. *)
Definition loads (s : string) : option value :=
  match parse_value (S (String.length s)) s with
  | Some (v, rest) =>
      match skip_ws rest with
      | EmptyString => Some v
      | _ => None
      end
  | None => None
  end.

(** Readers' fuel that suffices for an object. *)
Fixpoint weight (v : value) : nat :=
  match v with
  | VList l =>
      S ((fix sum (l : list value) : nat :=
            match l with [] => O | x :: l' => S (weight x + sum l') end) l)
  | VDict d =>
      S ((fix sum (d : list (string * value)) : nat :=
            match d with [] => O | kv :: d' => S (weight (snd kv) + sum d') end) d)
  | _ => 1%nat
  end.

Fixpoint items_weight (l : list value) : nat :=
  match l with [] => O | x :: l' => S (weight x + items_weight l') end.

Fixpoint members_weight (d : list (string * value)) : nat :=
  match d with [] => O | kv :: d' => S (weight (snd kv) + members_weight d') end.

(** *** Notions for the round trip *)

(** What may follow a value: the end of the text, whitespace, a comma
    or a closing bracket. *)
Definition delimiter (k : string) : bool :=
  match k with
  | EmptyString => true
  | String c _ => is_ws c || Ascii.eqb c "," || Ascii.eqb c "]" || Ascii.eqb c "}"
  end.

Definition is_digit (c : ascii) : bool :=
  match digit_of c with Some _ => true | None => false end.

(** A character that can start a value. *)
Definition opens_value (c : ascii) : bool :=
  negb (is_ws c) && negb (Ascii.eqb c "]") && negb (Ascii.eqb c "}")
  && negb (Ascii.eqb c ",").

(** The statement proved by induction on the object. *)
Definition reads_back (v : value) : Prop :=
  ∀ indent level k fuel,
    well_formed v → (weight v <= fuel)%nat → delimiter k = true →
    parse_value fuel (emit indent level v k) = Some (v, k).

(** The text written for an object is at least as long as its weight. *)
Definition long_enough (v : value) : Prop :=
  ∀ indent level k,
    (weight v + String.length k <= String.length (emit indent level v k))%nat.

(** *** What [loads] raises

    A text that cannot be read raises [JSONDecodeError], except that
    the scanner gives up with [RecursionError] once it has gone deeper
    than the interpreter allows; that happens at the latest on a text
    that starts with more opening brackets than the default limit. *)
Definition recursion_limit : nat := 1000.

Fixpoint leading_brackets (s : string) : nat :=
  match s with
  | EmptyString => 0
  | String c s' =>
      if Ascii.eqb c "[" then S (leading_brackets s')
      else if is_ws c then leading_brackets s'
      else 0
  end.

Definition recursion_error : exn :=
  OtherError "maximum recursion depth exceeded while decoding a JSON array from a unicode string".

Definition failure (s : string) : option exn :=
  if (recursion_limit <? leading_brackets s)%nat then Some recursion_error else None.

End PyJson.

(** ** storage.py *)

Module Storage.

(** One row of [summaries] without its [id]; the columns have TEXT
    affinity, a cell is a text or NULL ([None]). *)
Record Row : Type := {
  filename : option string;
  original_text : option string;
  summary : option string;
  key_points : option string;
  mode : option string;
  length_ : option string;
  file_type : option string;
  created_at : option string
}.

(** The table [summaries], keyed by [id INTEGER PRIMARY KEY
    AUTOINCREMENT], with the counter AUTOINCREMENT keeps of the largest
    id ever handed out. *)
Record Table : Type := {
  rows : gmap Z Row;
  sequence : Z
}.

(** The database file; [None] before the table exists. *)
Definition Database : Type := option Table.

(** [init_db]: CREATE TABLE IF NOT EXISTS *)
Definition init_db (db : Database) : Table :=
  match db with
  | Some t => t
  | None => {| rows := ∅; sequence := 0 |}
  end.

(** A record with this id is in the table. *)
Definition stored (db : Database) (summary_id : Z) : Prop :=
  is_Some (rows (init_db db) !! summary_id).

Definition largest_rowid (m : gmap Z Row) : Z :=
  map_fold (fun k _ acc => Z.max k acc) 0 m.

(** The id AUTOINCREMENT gives the next inserted row: one more than the
    largest id that ever existed in the table. *)
Definition next_rowid (t : Table) : Z :=
  Z.max (sequence t) (largest_rowid (rows t)) + 1.

Definition cell (c : option string) : value :=
  match c with
  | Some s => VStr s
  | None => VNone
  end.

(** [dict(row)] on a row fetched with [SELECT *]: the columns in table
    order. *)
Definition dict_of_row (id : Z) (r : Row) : dict :=
  [("id", VInt id); ("filename", cell (filename r));
   ("original_text", cell (original_text r)); ("summary", cell (summary r));
   ("key_points", cell (key_points r)); ("mode", cell (mode r));
   ("length", cell (length_ r)); ("file_type", cell (file_type r));
   ("created_at", cell (created_at r))].

(** An INTEGER of SQLite has 64 bits.  The driver raises
    [OverflowError] when it is to bind a Python [int] outside that
    range to a parameter of a statement. *)
Definition int64 (n : Z) : Prop := - 2 ^ 63 <= n < 2 ^ 63.

Global Instance int64_dec (n : Z) : Decision (int64 n).
Proof. unfold int64. apply _. Defined.

Definition overflow : exn :=
  OtherError "Python int too large to convert to SQLite INTEGER".

Section WithCodec.
Context {codec : Codec}.

(** The INSERT statement of [save_summary] on its bound parameters; the
    row comes with the value [created_at] defaults to. *)
Definition insert_row (db : Database) (r : Row) : Database * Z :=
  let t := init_db db in
  let summary_id := next_rowid t in
  (Some {| rows := <[summary_id := r]> (rows t); sequence := summary_id |},
   summary_id).

(** [save_summary]; [now] is what CURRENT_TIMESTAMP evaluates to. *)
Definition save_summary (db : Database) (now : string)
           (filename original_text summary : string) (key_points : list string)
           (mode length file_type : string) : Database * Z :=
  insert_row db
    {| filename := Some filename;
       original_text := Some original_text;
       summary := Some summary;
       key_points := Some (json_dumps None (VList (VStr <$> key_points)));
       mode := Some mode;
       length_ := Some length;
       file_type := Some file_type;
       created_at := Some now |}.

(** [dict_from_row], on the dictionary [dict(row)]; [json.loads] takes
    a [str] and raises [TypeError] on other objects.  The [except]
    clause catches [JSONDecodeError] and lets any other exception of
    [json.loads] pass. *)
Definition dict_from_row (data : dict) : result dict :=
  match dict_get "key_points" data with
  | Some v =>
      if truthy v then
        match v with
        | VStr s =>
            match json_loads s with
            | Some parsed => Ok (dict_set "key_points" parsed data)
            | None =>
                match json_failure s with
                | None => Ok (dict_set "key_points" (VList []) data)
                | Some e => Raise e
                end
            end
        | _ => Raise (TypeError ("the JSON object must be str, bytes or bytearray, not "
                                  +:+ type_name v))
        end
      else Ok data
  | None => Ok data
  end.

(** [get_summary].  The ids of the rows are INTEGERs of the table, so
    an id outside 64 bits is the id of no row: binding it raises
    [OverflowError], after [init_db] and before the SELECT runs. *)
Definition get_summary (db : Database) (summary_id : Z)
  : Database * result (option dict) :=
  let t := init_db db in
  (Some t,
   match rows t !! summary_id with
   | Some r => bind (dict_from_row (dict_of_row summary_id r)) (fun d => Ok (Some d))
   | None => if bool_decide (int64 summary_id) then Ok None else Raise overflow
   end).

(** [delete_summary]: [cursor.rowcount > 0], the row count being 1
    when the id is that of a row and 0 when it is not; an id outside
    64 bits, which is the id of no row, raises [OverflowError] when it
    is bound, and the table stays as [init_db] left it. *)
Definition delete_summary (db : Database) (summary_id : Z) : Database * result bool :=
  let t := init_db db in
  match rows t !! summary_id with
  | Some _ =>
      (Some {| rows := delete summary_id (rows t); sequence := sequence t |},
       Ok (0 <? 1)%nat)
  | None =>
      (Some t,
       if bool_decide (int64 summary_id) then Ok (0 <? 0)%nat else Raise overflow)
  end.

Definition rule : string := repeat_str "=" 50.

(** The plain-text rendering of [export_summary]; the item of
    [lines] taken from the record as it is must be a [str] for
    ['\n'.join] to accept it. *)
Definition export_text (summary : dict) : result string :=
  bind (dict_item "filename" summary) (fun v_filename =>
  bind (dict_item "created_at" summary) (fun v_created =>
  bind (dict_item "mode" summary) (fun v_mode =>
  bind (dict_item "length" summary) (fun v_length =>
  bind (dict_item "summary" summary) (fun v_summary =>
  bind (py_iter (default (VList []) (dict_get "key_points" summary))) (fun points =>
  let lines :=
    [VStr ("Document: " +:+ py_str v_filename);
     VStr ("Date: " +:+ py_str v_created);
     VStr ("Mode: " +:+ py_str v_mode +:+ " | Length: " +:+ py_str v_length);
     VStr ""; VStr rule; VStr "SUMMARY"; VStr rule;
     v_summary;
     VStr ""; VStr rule; VStr "KEY POINTS"; VStr rule]
    ++ imap (fun i point => VStr (pretty (S i) +:+ ". " +:+ py_str point)) points in
  match v_summary with
  | VStr _ =>
      Ok (join (String "010"%char EmptyString)
               ((fun l => match l with VStr s => s | _ => EmptyString end) <$> lines))
  | _ => Raise (TypeError ("sequence item 7: expected str instance, "
                            +:+ type_name v_summary +:+ " found"))
  end)))))).

(** [export_summary]; an empty dictionary is as false as [None]. *)
Definition export_summary (db : Database) (summary_id : Z) (format : string)
  : Database * result (option string) :=
  let '(db', fetched) := get_summary db summary_id in
  (db',
   bind fetched (fun summary =>
     match summary with
     | None | Some [] => Ok None
     | Some summary =>
         if String.eqb format "json"
         then Ok (Some (json_dumps (Some 2%nat) (VDict summary)))
         else bind (export_text summary) (fun text => Ok (Some text))
     end)).
End WithCodec.

(** *** list_summaries *)

(** The order of two TEXT cells under ORDER BY: NULL sorts below every
    text, texts compare character by character. *)
Definition cell_le (x y : option string) : Prop :=
  match x, y with
  | None, _ => True
  | Some _, None => False
  | Some s, Some t => String.le s t
  end.

Global Instance cell_le_dec : RelDecision cell_le.
Proof. intros [s|] [t|]; unfold cell_le; apply _. Defined.

(** [ORDER BY created_at DESC] on the rows with their ids. *)
Definition newest_first (a b : Z * Row) : Prop :=
  cell_le (created_at (snd b)) (created_at (snd a)).

Global Instance newest_first_dec : RelDecision newest_first.
Proof. intros a b. unfold newest_first. apply _. Defined.

(** The part of a text before its first NUL character. *)
Fixpoint until_nul (s : string) : string :=
  match s with
  | EmptyString => EmptyString
  | String c s' => if Ascii.eqb c "000" then EmptyString else String c (until_nul s')
  end.

(** [substr(X, 1, n)] of SQLite on a text: its first [n] characters,
    the text being read up to its first NUL character. *)
Definition substr (n : nat) (s : string) : string := slice_to n (until_nul s).

(** [dict(row)] on a row of the SELECT of [list_summaries];
    [substr(summary, 1, 200)] is NULL on NULL. *)
Definition listing_of_row (entry : Z * Row) : dict :=
  let '(id, r) := entry in
  [("id", VInt id); ("filename", cell (filename r)); ("mode", cell (mode r));
   ("length", cell (length_ r)); ("file_type", cell (file_type r));
   ("created_at", cell (created_at r));
   ("summary_preview", cell (substr 200 <$> summary r))].

(** The rows the SELECT of [list_summaries] yields.  A negative LIMIT is
    no limit.  Among rows of equal [created_at] the engine is free in
    its order; the sort used here fixes one. *)
Definition select_listing (t : Table) (limit : Z) : list (Z * Row) :=
  let ordered := merge_sort newest_first (map_to_list (rows t)) in
  if limit <? 0 then ordered else take (Z.to_nat limit) ordered.

(** [list_summaries(limit)]; a limit outside 64 bits raises
    [OverflowError] when it is bound. *)
Definition list_summaries (db : Database) (limit : Z)
  : Database * result (list dict) :=
  let t := init_db db in
  (Some t,
   if bool_decide (int64 limit) then Ok (listing_of_row <$> select_listing t limit)
   else Raise overflow).

(** *** Notions for the properties *)

(** The database after deleting the given ids one after the other. *)
Definition delete_all (db : Database) (ids : list Z) : Database :=
  fold_left (fun db id => (delete_summary db id).1) ids db.

(** The counter of AUTOINCREMENT is not negative and not below any id
    in the table, as in every database the functions of this module
    have built. *)
Definition consistent (db : Database) : Prop :=
  0 <= sequence (init_db db)
  /\ forall summary_id : Z, stored db summary_id -> summary_id <= sequence (init_db db).

(** The record get returns for what was saved. *)
Definition record_of (id : Z) (now filename original_text summary : string)
           (key_points : list string) (mode length file_type : string) : dict :=
  [("id", VInt id); ("filename", VStr filename);
   ("original_text", VStr original_text); ("summary", VStr summary);
   ("key_points", VList (VStr <$> key_points)); ("mode", VStr mode);
   ("length", VStr length); ("file_type", VStr file_type);
   ("created_at", VStr now)].

(** The text layout of [export_summary]. *)
Definition text_layout (now filename summary : string) (key_points : list string)
           (mode length : string) : string :=
  join nl (["Document: " +:+ filename;
            "Date: " +:+ now;
            "Mode: " +:+ mode +:+ " | Length: " +:+ length;
            ""; rule; "SUMMARY"; rule; summary;
            ""; rule; "KEY POINTS"; rule]
           ++ imap (fun i point => pretty (S i) +:+ ". " +:+ point) key_points).

(** A call that changes the table. *)
Inductive operation : Type :=
| DoSave (now filename original_text summary : string) (key_points : list string)
         (mode length file_type : string)
| DoDelete (summary_id : Z).

Definition apply_operation {codec : Codec} (db : Database) (op : operation) : Database :=
  match op with
  | DoSave now filename original_text summary key_points mode length file_type =>
      (save_summary db now filename original_text summary key_points mode length file_type).1
  | DoDelete summary_id => (delete_summary db summary_id).1
  end.

(** The database a history of such calls builds, from no file at all. *)
Definition built {codec : Codec} (history : list operation) : Database :=
  fold_left apply_operation history None.

End Storage.

(** ** The entry points: app.py and cli.py *)

Module Entry.
Import Engine Summarizers Storage.

(** A file of an upload: [file.filename] and the bytes. *)
Record Upload : Type := {
  upload_filename : string;
  upload_content : string
}.

(** The surroundings of the entry points: the document parsing of
    [parsers.py] on the files at hand ([parse_uploaded_file] for an
    upload, [detect_and_parse] for a path, each answering the text and
    the file type or raising), writing an output file, the clock of
    the database, and the text of the driver's error for a parameter it
    cannot bind. *)
Class Surroundings : Type := {
  parse_uploaded_file : Upload -> string -> result (string * string);
  detect_and_parse : string -> result (string * string);
  write_file : string -> string -> option exn;
  current_timestamp : string;
  binding_error : value -> string
}.

(** The calls an entry point makes on its collaborators, in order. *)
Inductive event : Type :=
| Parsed (name : string)
| Summarized (mode text length : string)
| KeyPointsExtracted (mode text : string)
| Saved (summary_id : Z).

Definition summarizer_event (e : event) : bool :=
  match e with
  | Summarized _ _ _ | KeyPointsExtracted _ _ => true
  | _ => false
  end.

(** [s.lower()] on the letters A to Z. *)
Definition lower_char (c : ascii) : ascii :=
  let n := nat_of_ascii c in
  if ((65 <=? n) && (n <=? 90))%nat then ascii_of_nat (n + 32) else c.

Fixpoint lower (s : string) : string :=
  match s with
  | EmptyString => EmptyString
  | String c s' => String (lower_char c) (lower s')
  end.

(** How the driver binds an object to a parameter of a TEXT column;
    an [int] has to fit the 64 bits of an INTEGER. *)
Definition bind_text `{Surroundings} (v : value) : result (option string) :=
  match v with
  | VNone => Ok None
  | VStr s => Ok (Some s)
  | VInt n => if bool_decide (int64 n) then Ok (Some (pretty n)) else Raise overflow
  | VBool b => Ok (Some (if b then "1" else "0"))
  | _ => Raise (OtherError (binding_error v))
  end.

(** *** app.py: POST /api/summarize *)

Record Request : Type := {
  args : gmap string string;
  is_json : bool;
  get_json : result value;
  files : gmap string Upload;
  form : gmap string string
}.

Record Response : Type := {
  status : Z;
  body : value
}.

Definition error_response (code : Z) (message : string) : Response :=
  {| status := code; body := VDict [("error", VStr message)] |}.

(** The two [except] clauses of the handler. *)
Definition handle_exception (e : exn) : Response :=
  match e with
  | ValueError m => error_response 400 m
  | _ => error_response 500 ("Summarization failed: " +:+ exn_str e)
  end.

Section Handler.
Context {locale : Locale} {numerics : Numerics} {gemini : Gemini}
        {codec : Codec} {surroundings : Surroundings}.

(** "Get text from request": the text, the filename, the file type. *)
Definition read_input (req : Request)
  : result (value * value * string) * list event :=
  if is_json req then
    (bind (get_json req) (fun data =>
       match data with
       | VDict d =>
           Ok (default (VStr "") (dict_get "text" d),
               default (VStr "pasted_text") (dict_get "filename" d),
               "text")
       | _ => Raise (no_attribute data "get")
       end), [])
  else
    match files req !! "file" with
    | Some file =>
        if truthy_str (upload_filename file) then
          (bind (parse_uploaded_file file (upload_filename file))
                (fun '(text, file_type) =>
                   Ok (VStr text, VStr (upload_filename file), file_type)),
           [Parsed (upload_filename file)])
        else (Ok (VNone, VStr "pasted_text", "text"), [])
    | None =>
        match form req !! "text" with
        | Some text =>
            (Ok (VStr text,
                 VStr (default "pasted_text" (form req !! "filename")),
                 "text"), [])
        | None => (Ok (VNone, VStr "pasted_text", "text"), [])
        end
    end.

(** [not text or not text.strip()] *)
Definition no_text (text : value) : result bool :=
  if negb (truthy text) then Ok true
  else match text with
       | VStr s => Ok (negb (truthy_str (strip s)))
       | _ => Raise (no_attribute text "strip")
       end.

(** The handler from "Get summarizer" on, for a text that passed the
    check. *)
Definition summarize_and_save (db : Database) (mode length key : string)
           (should_save : bool) (text : string) (filename : value)
           (file_type : string) : Database * result Response * list event :=
  let summarizer :=
    get_summarizer mode (if String.eqb mode "online" then Some key else None) in
  match summarize summarizer text length with
  | (_, Raise e) => (db, Raise e, [Summarized mode text length])
  | (summarizer, Ok summary) =>
      match extract_key_points summarizer text 5 with
      | (_, Raise e) =>
          (db, Raise e, [Summarized mode text length; KeyPointsExtracted mode text])
      | (_, Ok key_points) =>
          let trace := [Summarized mode text length; KeyPointsExtracted mode text] in
          let result :=
            [("summary", VStr summary);
             ("key_points", VList (VStr <$> key_points));
             ("mode", VStr mode); ("length", VStr length);
             ("filename", filename); ("file_type", VStr file_type);
             ("original_length", VInt (Z.of_nat (String.length text)));
             ("summary_length", VInt (Z.of_nat (String.length summary)))] in
          if should_save then
            match bind_text filename with
            | Raise e => (Some (init_db db), Raise e, trace)
            | Ok name =>
                let '(db', summary_id) :=
                  insert_row db
                    {| filename := name;
                       original_text := Some text;
                       summary := Some summary;
                       key_points := Some (json_dumps None (VList (VStr <$> key_points)));
                       mode := Some mode;
                       length_ := Some length;
                       file_type := Some file_type;
                       created_at := Some current_timestamp |} in
                (db', Ok {| status := 200;
                            body := VDict (result ++ [("saved_id", VInt summary_id)]) |},
                 trace ++ [Saved summary_id])
            end
          else (db, Ok {| status := 200; body := VDict result |}, trace)
      end
  end.

(** [summarize()] of app.py *)
Definition api_summarize (db : Database) (req : Request)
  : Database * Response * list event :=
  let mode := default "local" (args req !! "mode") in
  let length := default "medium" (args req !! "length") in
  let key := default "" (args req !! "api_key") in
  let should_save :=
    String.eqb (lower (default "false" (args req !! "save"))) "true" in
  let '(input, parsed) := read_input req in
  match input with
  | Raise e => (db, handle_exception e, parsed)
  | Ok (text, filename, file_type) =>
      match no_text text with
      | Raise e => (db, handle_exception e, parsed)
      | Ok true => (db, error_response 400 "No text provided", parsed)
      | Ok false =>
          match text with
          | VStr s =>
              let '(db', outcome, trace) :=
                summarize_and_save db mode length key should_save s filename file_type in
              (db', match outcome with
                    | Ok response => response
                    | Raise e => handle_exception e
                    end, parsed ++ trace)
          | _ => (db, handle_exception (no_attribute text "strip"), parsed)
          end
      end
  end.
End Handler.

(** *** cli.py: the [summarize] command *)

(** What a run leaves behind: the exit status, the lines echoed to the
    two streams, the database, the output file if one was written, and
    the calls made. *)
Record Run : Type := {
  exit_code : Z;
  stdout : list string;
  stderr : list string;
  database : Database;
  written : option (string * string);
  calls : list event
}.

(** [os.path.basename] *)
Fixpoint basename_from (cur path : string) : string :=
  match path with
  | EmptyString => cur
  | String c path' =>
      if Ascii.eqb c "/" then basename_from EmptyString path'
      else basename_from (cur +:+ String c EmptyString) path'
  end.

Definition basename (path : string) : string := basename_from EmptyString path.

Definition numbered (indent : string) (points : list string) : list string :=
  imap (fun i point => indent +:+ pretty (S i) +:+ ". " +:+ point) points.

Definition output_text (name summary : string) (key_points : list string) : string :=
  "Summary of: " +:+ name +:+ nl +:+ repeat_str "=" 60 +:+ nl +:+ nl
    +:+ "SUMMARY:" +:+ nl +:+ summary +:+ nl +:+ nl +:+ "KEY POINTS:" +:+ nl
    +:+ String.concat EmptyString ((fun line => line +:+ nl) <$> numbered EmptyString key_points).

Section Command.
Context {locale : Locale} {numerics : Numerics} {gemini : Gemini}
        {codec : Codec} {surroundings : Surroundings}.

(** [sys.exit(1)] after a message on the error stream *)
Definition fail (db : Database) (out : list string) (message : string)
           (trace : list event) : Run :=
  {| exit_code := 1; stdout := out; stderr := [message]; database := db;
     written := None; calls := trace |}.

(** The [except Exception] clause of the command *)
Definition fail_with (db : Database) (out : list string) (e : exn)
           (trace : list event) : Run :=
  fail db out ("❌ Error: " +:+ exn_str e) trace.

(** [summarize(file_path, mode, length, api_key, save, output)]: the
    body of the command.  click runs it once the arguments have passed
    its checks: [file_path] exists ([click.Path(exists=True)]), and
    [mode] and [length] are of their choices ([click.Choice]); on
    other arguments click exits with status 2 and the body is not
    run. *)
Definition cli_summarize (db : Database) (file_path mode length : string)
           (key : option string) (save : bool) (output : option string) : Run :=
  let name := basename file_path in
  let out := ["📄 Parsing " +:+ name +:+ "..."] in
  let trace := [Parsed file_path] in
  match detect_and_parse file_path with
  | Raise e => fail_with db out e trace
  | Ok (text, file_type) =>
      if negb (truthy_str (strip text))
      then fail db out "❌ No text content found in file" trace
      else
        let out := out ++ ["📊 Document type: " +:+ file_type +:+ " | Characters: "
                             +:+ pretty (String.length text)] in
        if String.eqb mode "online"
           && negb (match key with Some k => truthy_str k | None => false end)
        then fail db out
               "❌ API key required for online mode. Use --api-key or set GEMINI_API_KEY"
               trace
        else
          let out := out ++ ["🔄 Generating " +:+ length +:+ " summary using "
                               +:+ mode +:+ " mode..."] in
          let trace := trace ++ [Summarized mode text length] in
          match summarize (get_summarizer mode key) text length with
          | (_, Raise e) => fail_with db out e trace
          | (summarizer, Ok summary) =>
              let trace := trace ++ [KeyPointsExtracted mode text] in
              match extract_key_points summarizer text 5 with
              | (_, Raise e) => fail_with db out e trace
              | (_, Ok key_points) =>
                  let out :=
                    out ++ [nl +:+ repeat_str "=" 60; "📝 SUMMARY"; repeat_str "=" 60;
                            summary;
                            nl +:+ repeat_str "=" 60; "📌 KEY POINTS"; repeat_str "=" 60]
                        ++ numbered "  " key_points in
                  let '(db, out, trace) :=
                    if save then
                      let '(db', summary_id) :=
                        save_summary db current_timestamp name text summary
                                     key_points mode length file_type in
                      (db', out ++ [nl +:+ "💾 Saved with ID: " +:+ pretty summary_id],
                       trace ++ [Saved summary_id])
                    else (db, out, trace) in
                  match output with
                  | Some path =>
                      if truthy_str path then
                        match write_file path (output_text name summary key_points) with
                        | Some e => fail_with db out e trace
                        | None =>
                            {| exit_code := 0;
                               stdout := out ++ [nl +:+ "📁 Output saved to: " +:+ path;
                                                 nl +:+ "✅ Done!"];
                               stderr := []; database := db;
                               written := Some (path, output_text name summary key_points);
                               calls := trace |}
                        end
                      else
                        {| exit_code := 0; stdout := out ++ [nl +:+ "✅ Done!"];
                           stderr := []; database := db; written := None;
                           calls := trace |}
                  | None =>
                      {| exit_code := 0; stdout := out ++ [nl +:+ "✅ Done!"];
                         stderr := []; database := db; written := None;
                         calls := trace |}
                  end
              end
          end
  end.
End Command.

End Entry.

(** ** app.py: the routes on saved summaries *)

Module Routes.
Import Storage Entry.

(** What a route returns: [jsonify(...)] with a status, or a text with
    a status and a Content-Type header. *)
Inductive Answer : Type :=
| Json (response : Response)
| Text (content : string) (code : Z) (content_type : string).

(** The [except Exception] clause of these routes. *)
Definition failure (e : exn) : Response := error_response 500 (exn_str e).

Definition not_found : Response := error_response 404 "Summary not found".

(** [should_save] of [summarize()]: the query asks for saving. *)
Definition should_save (req : Request) : bool :=
  String.eqb (lower (default "false" (args req !! "save"))) "true".

Section Handlers.
Context {codec : Codec}.

(** [get_summaries()]: GET /api/summaries *)
Definition get_summaries (db : Database) : Database * Response :=
  let '(db', listed) := list_summaries db 50 in
  (db',
   match listed with
   | Raise e => failure e
   | Ok summaries =>
       {| status := 200; body := VDict [("summaries", VList (VDict <$> summaries))] |}
   end).



(** [export_summary_by_id(summary_id)]: GET /api/summaries/<id>/export;
    [query] is [request.args]. *)
Definition export_summary_by_id (db : Database) (summary_id : Z)
           (query : gmap string string) : Database * Answer :=
  let format := default "txt" (query !! "format") in
  let '(db', exported) := export_summary db summary_id format in
  (db',
   match exported with
   | Raise e => Json (failure e)
   | Ok None => Json not_found
   | Ok (Some content) =>
       if truthy_str content
       then Text content 200
                 (if String.eqb format "txt" then "text/plain" else "application/json")
       else Json not_found
   end).
End Handlers.

(** [health()]: GET /api/health *)
Definition health : Response :=
  {| status := 200; body := VDict [("status", VStr "ok"); ("version", VStr "1.0.0")] |}.

End Routes.

(** ** cli.py: the commands on saved summaries *)

Module Commands.
Import Storage Entry.

(** Lines echoed so far, and how the block went on. *)
Definition Script (A : Type) : Type := list string * result A.

Definition ret {A} (a : A) : Script A := ([], Ok a).

(** [click.echo(line)] *)
Definition echo (line : string) : Script unit := ([line], Ok tt).

Definition lift {A} (r : result A) : Script A := ([], r).

Definition and_then {A B} (m : Script A) (k : A -> Script B) : Script B :=
  match m with
  | (out, Ok a) => let '(out', r) := k a in (out ++ out', r)
  | (out, Raise e) => (out, Raise e)
  end.

Notation "x <- m ;; k" := (and_then m (fun x => k))
  (at level 100, m at next level, right associativity).
Notation "m ;;; k" := (and_then m (fun _ => k))
  (at level 100, right associativity).

(** [for x in items: body(x)] *)
Fixpoint for_each {A} (items : list A) (body : A -> Script unit) : Script unit :=
  match items with
  | [] => ret tt
  | x :: rest => body x ;;; for_each rest body
  end.

(** [click.echo(v)] on an object: [None] gives an empty line, any other
    object its [str]. *)
Definition echo_value (v : value) : Script unit :=
  echo (match v with VNone => EmptyString | _ => py_str v end).

Section Commands.
Context {codec : Codec} {surroundings : Surroundings}.

(** The end of a command whose block ran in [script]: a normal return,
    or the [except Exception] clause. *)
Definition finish (db : Database) (script : Script unit) : Run :=
  match script with
  | (out, Ok _) =>
      {| exit_code := 0; stdout := out; stderr := []; database := db;
         written := None; calls := [] |}
  | (out, Raise e) => fail_with db out e []
  end.

(** The lines of one entry in [list_saved]; a cell of the listing holds
    a text or NULL. *)
Definition entry_lines (s : dict) : Script unit :=
  v_id <- lift (dict_item "id" s) ;;
  v_filename <- lift (dict_item "filename" s) ;;
  v_mode <- lift (dict_item "mode" s) ;;
  v_length <- lift (dict_item "length" s) ;;
  v_created <- lift (dict_item "created_at" s) ;;
  echo ("ID: " +:+ py_str v_id +:+ " | " +:+ py_str v_filename +:+ " | "
          +:+ py_str v_mode +:+ "/" +:+ py_str v_length +:+ " | " +:+ py_str v_created) ;;;
  match dict_get "summary_preview" s with
  | Some (VStr summary_preview) =>
      if truthy_str summary_preview then
        let preview :=
          if (100 <? String.length summary_preview)%nat
          then slice_to 100 summary_preview +:+ "..."
          else summary_preview in
        echo ("   └─ " +:+ preview)
      else ret tt
  | _ => ret tt
  end ;;;
  echo EmptyString.

(** [list_saved(limit)] *)
Definition cli_list_saved (db : Database) (limit : Z) : Run :=
  let '(db', listed) := list_summaries db limit in
  finish db'
    (summaries <- lift listed ;;
     match summaries with
     | [] => echo "📭 No saved summaries found"
     | _ =>
         echo (nl +:+ "📚 Saved Summaries (" +:+ pretty (length summaries)
                 +:+ " total)" +:+ nl) ;;;
         echo (repeat_str "-" 80) ;;;
         for_each summaries entry_lines
     end).

(** [export(summary_id, format, output)]: the body of the command,
    which click runs on a format of the choices 'txt' and 'json' (on
    another one it exits with status 2 before the body).  The [delete]
    command is not embedded: its body runs behind the prompt of
    [click.confirmation_option]. *)
Definition cli_export (db : Database) (summary_id : Z) (format : string)
           (output : option string) : Run :=
  let '(db', exported) := export_summary db summary_id format in
  match exported with
  | Raise e => fail_with db' [] e []
  | Ok None =>
      fail db' [] ("❌ Summary with ID " +:+ pretty summary_id +:+ " not found") []
  | Ok (Some content) =>
      if negb (truthy_str content)
      then fail db' [] ("❌ Summary with ID " +:+ pretty summary_id +:+ " not found") []
      else
        match output with
        | Some path =>
            if truthy_str path then
              match write_file path content with
              | Some e => fail_with db' [] e []
              | None =>
                  {| exit_code := 0; stdout := ["📁 Exported to: " +:+ path];
                     stderr := []; database := db';
                     written := Some (path, content); calls := [] |}
              end
            else finish db' (echo content)
        | None => finish db' (echo content)
        end
  end.

(** [show(summary_id)] *)
Definition cli_show (db : Database) (summary_id : Z) : Run :=
  let '(db', fetched) := get_summary db summary_id in
  match fetched with
  | Raise e => fail_with db' [] e []
  | Ok None | Ok (Some []) =>
      fail db' [] ("❌ Summary " +:+ pretty summary_id +:+ " not found") []
  | Ok (Some summary) =>
      finish db'
        (echo (nl +:+ repeat_str "=" 60) ;;;
         v_filename <- lift (dict_item "filename" summary) ;;
         echo ("📄 " +:+ py_str v_filename +:+ " (ID: " +:+ pretty summary_id +:+ ")") ;;;
         v_created <- lift (dict_item "created_at" summary) ;;
         v_mode <- lift (dict_item "mode" summary) ;;
         v_length <- lift (dict_item "length" summary) ;;
         echo ("📅 " +:+ py_str v_created +:+ " | Mode: " +:+ py_str v_mode
                 +:+ " | Length: " +:+ py_str v_length) ;;;
         echo (repeat_str "=" 60) ;;;
         echo (nl +:+ "📝 SUMMARY:" +:+ nl) ;;;
         v_summary <- lift (dict_item "summary" summary) ;;
         echo_value v_summary ;;;
         echo (nl +:+ "📌 KEY POINTS:") ;;;
         points <- lift (py_iter (default (VList []) (dict_get "key_points" summary))) ;;
         for_each (numbered "  " (py_str <$> points)) echo)
  end.
End Commands.

End Commands.

(** ** parsers.py *)

Module Parsers.
Import Entry.

(** [parse_text(content)] *)
Definition parse_text (content : string) : string := strip content.

(** What lies at a path: a file with its bytes, or an entry that
    [open] refuses with an [OSError] (a directory, a file without read
    permission). *)
Inductive node : Type :=
| File (content : string)
| Refused (e : exn).

Definition FileSystem : Type := gmap string node.

(** What [python-docx] shows of a document: the text of each paragraph,
    and the text of each cell, by table and by row. *)
Record Document : Type := {
  paragraphs : list string;
  tables : list (list (list string))
}.

(** The decoders, on the bytes of a file: [bytes.decode('utf-8',
    errors='ignore')] as [open(..., 'r')] applies it, the pages
    [PdfReader] finds with what [extract_text] gives on each of them,
    and the document [Document] loads. *)
Class Readers : Type := {
  decode : string -> string;
  pdf_pages : string -> result (list (result string));
  docx_document : string -> result Document
}.

(** No dot and no slash. *)
Definition plain_char (c : ascii) : bool :=
  negb (Ascii.eqb c ".") && negb (Ascii.eqb c "/").

Fixpoint plain (s : string) : bool :=
  match s with
  | EmptyString => true
  | String c s' => plain_char c && plain s'
  end.

(** [tempfile.NamedTemporaryFile(delete=False, suffix=...)]: it
    raises where no file of such a name can be made (an [OSError] for
    a name too long, a [ValueError] for a NUL in the suffix);
    otherwise the name is new, and it is made of the directory, a stem
    of letters, digits and underscores, and the suffix. *)
Class Tempfile : Type := {
  temp_name : FileSystem -> string -> result string;
  temp_name_fresh : forall fs suffix name,
    temp_name fs suffix = Ok name -> fs !! name = None;
  temp_name_shape : forall fs suffix name,
    temp_name fs suffix = Ok name ->
    exists dir stem : string,
      name = dir +:+ "/" +:+ stem +:+ suffix
      /\ stem <> EmptyString /\ plain stem = true
}.

(** [str.lower] on one character (code points below 256). *)
Definition lower_char (c : ascii) : ascii :=
  let n := nat_of_ascii c in
  if ((65 <=? n) && (n <=? 90)
      || (192 <=? n) && (n <=? 222) && negb (n =? 215))%nat
  then ascii_of_nat (n + 32) else c.

Fixpoint lower (s : string) : string :=
  match s with
  | EmptyString => EmptyString
  | String c s' => String (lower_char c) (lower s')
  end.

(** [os.path.splitext(p)[1]]: the text from the last dot of the last
    component of the path on, provided a character other than a dot
    comes before that dot in the component.  The scan keeps whether
    such a character was seen in the component, and the extension so
    far. *)
Fixpoint ext_from (seen : bool) (ext : string) (p : string) : string :=
  match p with
  | EmptyString => ext
  | String c p' =>
      if Ascii.eqb c "/" then ext_from false EmptyString p'
      else if Ascii.eqb c "." then
             if seen then ext_from true "." p' else ext_from false EmptyString p'
           else ext_from true
                         (if truthy_str ext then ext +:+ String c EmptyString
                          else EmptyString)
                         p'
  end.

Definition splitext_ext (p : string) : string := ext_from false EmptyString p.

(** [except Exception as e: raise ValueError(f"...{str(e)}")] *)
Definition reraise {A} (prefix : string) (r : result A) : result A :=
  match r with
  | Ok a => Ok a
  | Raise e => Raise (ValueError (prefix +:+ exn_str e))
  end.

Section Parsing.
Context {readers : Readers}.

(** Opening the file at a path for reading. *)
Definition read_bytes (fs : FileSystem) (file_path : string) : result string :=
  match fs !! file_path with
  | Some (File content) => Ok content
  | Some (Refused e) => Raise e
  | None =>
      Raise (OtherError ("[Errno 2] No such file or directory: "
                           +:+ py_repr (VStr file_path)))
  end.

(** [parse_text_file(file_path)] *)
Definition parse_text_file (fs : FileSystem) (file_path : string) : result string :=
  bind (read_bytes fs file_path) (fun content => Ok (strip (decode content))).

(** The loop of [parse_pdf] over the pages. *)
Fixpoint extract_pages (pages : list (result string)) (text_parts : list string)
  : result (list string) :=
  match pages with
  | [] => Ok text_parts
  | page :: rest =>
      bind page (fun text =>
        extract_pages rest (if truthy_str text then text_parts ++ [text] else text_parts))
  end.

(** [parse_pdf(file_path)] *)
Definition parse_pdf (fs : FileSystem) (file_path : string) : result string :=
  reraise "Failed to parse PDF: "
    (bind (read_bytes fs file_path) (fun content =>
     bind (pdf_pages content) (fun pages =>
     bind (extract_pages pages []) (fun text_parts =>
     Ok (strip (join nl text_parts)))))).

(** The body of the loops of [parse_docx]. *)
Definition keep_text (text_parts : list string) (text : string) : list string :=
  if truthy_str (strip text) then text_parts ++ [text] else text_parts.

(** [parse_docx(file_path)] *)
Definition parse_docx (fs : FileSystem) (file_path : string) : result string :=
  reraise "Failed to parse Word document: "
    (bind (read_bytes fs file_path) (fun content =>
     bind (docx_document content) (fun doc =>
     let text_parts := fold_left keep_text (paragraphs doc) [] in
     let text_parts :=
       fold_left (fun parts table =>
                    fold_left (fun parts row => fold_left keep_text row parts) table parts)
                 (tables doc) text_parts in
     Ok (strip (join nl text_parts))))).

(** [detect_and_parse(file_path)] *)
Definition detect_and_parse (fs : FileSystem) (file_path : string)
  : result (string * string) :=
  match fs !! file_path with
  | None => Raise (OtherError ("File not found: " +:+ file_path))
  | Some _ =>
      let ext := lower (splitext_ext file_path) in
      if String.eqb ext ".pdf" then
        bind (parse_pdf fs file_path) (fun text => Ok (text, "pdf"))
      else if String.eqb ext ".docx" then
        bind (parse_docx fs file_path) (fun text => Ok (text, "docx"))
      else if bool_decide (ext ∈ [".txt"; ".md"; ".text"]) then
        bind (parse_text_file fs file_path) (fun text => Ok (text, "text"))
      else
        match parse_text_file fs file_path with
        | Ok text => Ok (text, "text")
        | Raise _ => Raise (ValueError ("Unsupported file type: " +:+ ext))
        end
  end.

(** [parse_uploaded_file(file_storage, filename)]: the temporary file
    is created, filled with the upload, parsed and removed; when it
    cannot be created, the exception leaves the function. *)
Definition parse_uploaded_file {tempfile : Tempfile}
           (fs : FileSystem) (file_storage : Upload) (filename : string)
  : FileSystem * result (string * string) :=
  let ext := lower (splitext_ext filename) in
  match temp_name fs ext with
  | Raise e => (fs, Raise e)
  | Ok tmp_path =>
      let fs := <[tmp_path := File (upload_content file_storage)]> fs in
      let outcome := detect_and_parse fs tmp_path in
      (match fs !! tmp_path with
       | Some _ => delete tmp_path fs
       | None => fs
       end,
       outcome)
  end.
End Parsing.

(** The surroundings of the entry points over a file system: the
    parsing is that of this module, the rest is taken from [base]. *)
Definition on_disk {readers : Readers} {tempfile : Tempfile}
           (fs : FileSystem) (base : Surroundings) : Surroundings :=
  {| Entry.parse_uploaded_file file name := (parse_uploaded_file fs file name).2;
     Entry.detect_and_parse := detect_and_parse fs;
     Entry.write_file := Entry.write_file (Surroundings := base);
     Entry.current_timestamp := Entry.current_timestamp (Surroundings := base);
     Entry.binding_error := Entry.binding_error (Surroundings := base) |}.

End Parsers.

(** ** Sample instances of the collaborators

    Small executable instances on which the definitions can be evaluated.
    The sentence rules cut at a full stop, exclamation mark or question
    mark; words are runs of letters and digits, lowercased; the stemmer
    drops a final "s".  The numeric kernels are integer stand-ins: the
    score of a sentence counts its terms that occur in another sentence,
    and every term row of the matrix serves as one topic dimension. *)

Module Sample.
Import Engine Summarizers.

Definition is_terminator (c : ascii) : bool :=
  Ascii.eqb c "."%char || Ascii.eqb c "!"%char || Ascii.eqb c "?"%char.

Definition snoc (s : string) (c : ascii) : string := s +:+ String c EmptyString.

Fixpoint sentences_from (cur s : string) : list string :=
  match s with
  | EmptyString => if truthy_str (strip cur) then [strip cur] else []
  | String c s' =>
      if is_terminator c then strip (snoc cur c) :: sentences_from EmptyString s'
      else sentences_from (snoc cur c) s'
  end.

Definition lower (c : ascii) : ascii :=
  let n := nat_of_ascii c in
  if ((65 <=? n) && (n <=? 90))%nat then ascii_of_nat (n + 32) else c.

Definition is_alnum (c : ascii) : bool :=
  let n := nat_of_ascii c in
  ((48 <=? n) && (n <=? 57) || (65 <=? n) && (n <=? 90)
   || (97 <=? n) && (n <=? 122))%nat.

Fixpoint words_from (cur s : string) : list string :=
  match s with
  | EmptyString => if truthy_str cur then [cur] else []
  | String c s' =>
      if is_alnum c then words_from (snoc cur (lower c)) s'
      else if truthy_str cur then cur :: words_from EmptyString s'
           else words_from EmptyString s'
  end.

Definition drop_final_s (w : string) : string :=
  match String.rev w with
  | String "s" (String c r) => String.rev (String c r)
  | _ => w
  end.

Global Instance english : Locale := {|
  split_sentences := sentences_from EmptyString;
  word_tokens := words_from EmptyString;
  stopwords := list_to_set ["a"; "an"; "and"; "the"; "of"; "is"; "it"; "to"; "in"; "on"];
  stem := drop_final_s
|}.

Definition shared_terms (toks : list (list string)) (i : nat) : nat :=
  let mine := default [] (toks !! i) in
  let others := concat (imap (fun j ws => if (j =? i)%nat then [] else ws) toks) in
  length (filter (fun w => w ∈ others) mine).

Definition term_rows (m : list (list nat)) (k : nat) : list (list Q) :=
  take k ((fun row : list nat => (fun n => inject_Z (Z.of_nat n)) <$> row) <$> m).

Global Instance counting : Numerics := {|
  salience toks i := inject_Z (Z.of_nat (shared_terms toks i));
  rank_deficient _ := false;
  right_singular := term_rows
|}.

(** A service that answers every prompt with the same text. *)
Definition canned (answer : string) : Gemini :=
  {| generate_content _ _ := Ok answer |}.

Definition ten_sentences : string :=
  "Cats chase mice. Dogs chase cats. Mice eat cheese. Birds sing songs. " +:+
  "Cats watch birds. Fish swim in rivers. Dogs guard houses. " +:+
  "Mice fear cats. Rivers reach the sea. Songs please dogs.".

(** Surroundings with three files: an empty one, one holding line
    breaks and blanks only, and one holding [ten_sentences]; an upload
    is read as plain text. *)
Global Instance desk : Entry.Surroundings := {|
  Entry.parse_uploaded_file file name := Ok (strip (Entry.upload_content file), "text");
  Entry.detect_and_parse path :=
    if String.eqb path "empty.txt" then Ok (EmptyString, "text")
    else if String.eqb path "notes/ten.txt" then Ok (ten_sentences, "text")
    else Raise (OtherError ("File not found: " +:+ path));
  Entry.write_file _ _ := None;
  Entry.current_timestamp := "2024-01-01 00:00:00";
  Entry.binding_error v :=
    "Error binding parameter 1: type '" +:+ type_name v +:+ "' is not supported"
|}.


(** A table with one row, whose key_points cell holds [points]. *)
Definition text_row (points : string) : Storage.Row :=
  {| Storage.filename := Some "notes.txt"; Storage.original_text := Some "Some text.";
     Storage.summary := Some "Some text."; Storage.key_points := Some points;
     Storage.mode := Some "local"; Storage.length_ := Some "short"; Storage.file_type := Some "text";
     Storage.created_at := Some "2024-01-01 00:00:00" |}.

Definition one_row (points : string) : Storage.Database :=
  Some {| Storage.rows := {[ 1 := text_row points ]}; Storage.sequence := 1 |}.

Definition blank_text : string :=
  String " " (String "010" (String "009" (String " " EmptyString))).

(** A request with a JSON body [{"text": text}] and the given query. *)
Definition json_request (query : gmap string string) (text : string) : Entry.Request :=
  {| Entry.args := query; Entry.is_json := true;
     Entry.get_json := Ok (VDict [("text", VStr text)]);
     Entry.files := ∅; Entry.form := ∅ |}.

End Sample.

(** ** Further sample data *)

Module Cases.
Import Storage.

(** A row as another writer of the table may leave it: no key points. *)
Definition bare_row : Row :=
  {| filename := Some "notes.txt"; original_text := Some "Some text.";
     summary := Some "Some text."; key_points := None;
     mode := Some "local"; length_ := Some "short"; file_type := Some "text";
     created_at := Some "2024-01-01 00:00:00" |}.

Definition bare_table : Database :=
  Some {| rows := {[ 4 := bare_row ]}; sequence := 4 |}.

(** Three sentences, each with a line break inside it. *)
Definition wrapped_text : string :=
  "Cats chase" +:+ nl +:+ "mice. Dogs chase" +:+ nl +:+ "cats. Birds sing" +:+ nl +:+ "songs.".


(** A request whose text is a number. *)
Definition number_request : Entry.Request :=
  {| Entry.args := ∅; Entry.is_json := true;
     Entry.get_json := Ok (VDict [("text", VInt 5)]);
     Entry.files := ∅; Entry.form := ∅ |}.

(** The surroundings of [Sample.desk] with a directory that cannot be
    written to. *)
Definition locked_desk : Entry.Surroundings :=
  {| Entry.parse_uploaded_file := Entry.parse_uploaded_file (Surroundings := Sample.desk);
     Entry.detect_and_parse := Entry.detect_and_parse (Surroundings := Sample.desk);
     Entry.write_file path _ := Some (OtherError ("[Errno 13] Permission denied: '" +:+ path +:+ "'"));
     Entry.current_timestamp := Entry.current_timestamp (Surroundings := Sample.desk);
     Entry.binding_error := Entry.binding_error (Surroundings := Sample.desk) |}.

(** Stand-ins for the document libraries: a PDF is the mark [%PDF]
    followed by its pages, one per line, of which the page [<bad>]
    cannot be extracted; a Word document is the mark [PK] followed by
    its paragraphs, one per line; text is read byte for byte. *)
Definition after (mark s : string) : option string :=
  if String.prefix mark s
  then Some (String.substring (String.length mark) (String.length s - String.length mark)%nat s)
  else None.

Definition marked : Parsers.Readers :=
  {| Parsers.decode s := s;
     Parsers.pdf_pages s :=
       match after "%PDF" s with
       | Some pages =>
           Ok ((fun page => if String.eqb page "<bad>"
                            then Raise (OtherError "cannot extract the page")
                            else Ok page) <$> split_on "010" pages)
       | None => Raise (OtherError "EOF marker not found")
       end;
     Parsers.docx_document s :=
       match after "PK" s with
       | Some text => Ok {| Parsers.paragraphs := split_on "010" text; Parsers.tables := [] |}
       | None => Raise (OtherError "File is not a zip file")
       end |}.

(** A name longer than every path of the file system. *)
Definition longest (fs : Parsers.FileSystem) : nat :=
  map_fold (fun path (_ : Parsers.node) n => (String.length path `max` n)%nat) 0%nat fs.

Definition long_stem (fs : Parsers.FileSystem) : string :=
  "tmp" +:+ repeat_str "a" (longest fs).

Definition long_name (fs : Parsers.FileSystem) (suffix : string) : string :=
  "/tmp" +:+ "/" +:+ long_stem fs +:+ suffix.

(** The name, unless the suffix holds a NUL or the file name has more
    than 255 characters. *)
Definition long_name_or_error (fs : Parsers.FileSystem) (suffix : string)
  : result string :=
  if contains "000" suffix then Raise (ValueError "embedded null byte")
  else if (255 <? String.length (long_stem fs +:+ suffix))%nat
       then Raise (OtherError ("[Errno 36] File name too long: "
                                 +:+ py_repr (VStr (long_name fs suffix))))
       else Ok (long_name fs suffix).

(** A file system with a text file, a directory, and a PDF whose
    second page cannot be extracted. *)
Definition shelf : Parsers.FileSystem :=
  {[ "notes/ten.txt" := Parsers.File (" " +:+ Sample.ten_sentences +:+ nl);
     "notes" := Parsers.Refused (OtherError "[Errno 21] Is a directory: 'notes'");
     "notes/scan.PDF" := Parsers.File ("%PDFpage one" +:+ nl +:+ "<bad>") ]}.

(** An upload of that PDF. *)
Definition scan_upload : Entry.Upload :=
  {| Entry.upload_filename := "scan.PDF";
     Entry.upload_content := "%PDFpage one" +:+ nl +:+ "<bad>" |}.

Definition upload_request : Entry.Request :=
  {| Entry.args := ∅; Entry.is_json := false; Entry.get_json := Ok VNone;
     Entry.files := {[ "file" := scan_upload ]}; Entry.form := ∅ |}.

End Cases.

(** ** Notions used in the properties *)

Module Notions.

(** No blank at either end. *)
Definition trimmed (s : string) : Prop := lstrip s = s ∧ rstrip s = s.

(** What the loop of [extract_key_points] keeps true of its list. *)
Definition collected (max_points : nat) (key_points : list string) : Prop :=
  (length key_points <= max_points)%nat
  ∧ Forall (fun point => point ≠ EmptyString ∧ strip point = point) key_points.

(** Empty, or a dot followed by characters that are neither dots nor
    slashes. *)
Definition extension (e : string) : Prop :=
  e = EmptyString ∨ ∃ w : string, e = "." +:+ w ∧ Parsers.plain w = true.

(** The first text appears in the second as it stands. *)
Definition verbatim (s t : string) : Prop :=
  ∃ before after : string, t = before +:+ s +:+ after.

(** Lines joined as the parser of plain text joins them: each one
    stripped, the empty ones left out, each set after one space. *)
Definition lines_text (lines : list string) : string :=
  fold_right (fun line rest => if truthy_str (strip line)
                               then " " +:+ strip line +:+ rest else rest)
             EmptyString lines.

(** The joined lines of a text. *)
Definition joined_lines (text : string) : string :=
  lines_text (splitlines (strip text)).

(** The entries of a paragraph, joined in the same way. *)
Definition entries_text (entries : list Engine.paragraph_entry) : string :=
  fold_right (fun e rest =>
                " " +:+ match e with Engine.Heading l | Engine.Line l => l end +:+ rest)
             EmptyString entries.

End Notions.

(** * Properties *)

(** ** Objects *)

Module PyFacts.

(** *** Induction on objects *)

Section ValueInd.
Variable P : value → Prop.
Hypothesis HNone : P VNone.
Hypothesis HBool : ∀ b, P (VBool b).
Hypothesis HInt : ∀ n, P (VInt n).
Hypothesis HStr : ∀ s, P (VStr s).
Hypothesis HList : ∀ l, Forall P l → P (VList l).
Hypothesis HDict : ∀ d, Forall (fun kv => P (snd kv)) d → P (VDict d).

Fixpoint value_ind (v : value) : P v :=
  match v with
  | VNone => HNone
  | VBool b => HBool b
  | VInt n => HInt n
  | VStr s => HStr s
  | VList l =>
      HList l ((fix all (l : list value) : Forall P l :=
                  match l with
                  | [] => @List.Forall_nil _ P
                  | x :: l' => @List.Forall_cons _ P x l' (value_ind x) (all l')
                  end) l)
  | VDict d =>
      HDict d ((fix all (d : list (string * value)) : Forall (fun kv => P (snd kv)) d :=
                  match d with
                  | [] => @List.Forall_nil _ (fun kv => P (snd kv))
                  | kv :: d' => @List.Forall_cons _ (fun kv => P (snd kv)) kv d' (value_ind (snd kv)) (all d')
                  end) d)
  end.
End ValueInd.

Lemma well_formed_list (l : list value) :
  well_formed (VList l) ↔ Forall well_formed l.
Proof.
  cbn [well_formed]. induction l as [|x l IH].
  - split; [constructor | done].
  - rewrite Forall_cons, <-IH. done.
Qed.

Lemma well_formed_dict (d : list (string * value)) :
  well_formed (VDict d)
  ↔ NoDup (fst <$> d) ∧ Forall (fun kv => well_formed (snd kv)) d.
Proof.
  cbn [well_formed].
  assert (Hall : (fix all (d : list (string * value)) : Prop :=
                    match d with
                    | [] => True
                    | kv :: d' => well_formed (snd kv) ∧ all d'
                    end) d ↔ Forall (fun kv => well_formed (snd kv)) d).
  { induction d as [|kv d IH].
    - split; [constructor | done].
    - rewrite Forall_cons, <-IH. done. }
  by rewrite Hall.
Qed.

Lemma well_formed_strings (l : list string) :
  well_formed (VList (VStr <$> l)).
Proof.
  apply well_formed_list. induction l as [|s l IH]; csimpl; by constructor.
Qed.

End PyFacts.
(** ** Texts: pieces, lines and the parser of plain text *)

Module TextFacts.
Import Engine Notions.

Lemma text_app_assoc (a b c : string) : (a +:+ b) +:+ c = a +:+ (b +:+ c).
Proof.
  induction a as [|x a IH]; [done|].
  change (String x ((a +:+ b) +:+ c) = String x (a +:+ (b +:+ c))). by rewrite IH.
Qed.

Lemma text_app_nil (a : string) : a +:+ EmptyString = a.
Proof.
  induction a as [|x a IH]; [done|].
  change (String x (a +:+ EmptyString) = String x a). by rewrite IH.
Qed.

Lemma text_app_cons (x : ascii) (a b : string) : String x a +:+ b = String x (a +:+ b).
Proof. done. Qed.

Lemma verbatim_refl (s : string) : verbatim s s.
Proof. exists EmptyString, EmptyString. by rewrite text_app_nil. Qed.

Lemma verbatim_trans (s t u : string) : verbatim s t → verbatim t u → verbatim s u.
Proof.
  intros (a & b & ->) (c & d & ->). exists (c +:+ a), (b +:+ d).
  by rewrite !text_app_assoc.
Qed.

Lemma verbatim_app_l (s a b : string) : verbatim s a → verbatim s (a +:+ b).
Proof.
  intros (c & d & ->). exists c, (d +:+ b). by rewrite !text_app_assoc.
Qed.

Lemma verbatim_app_r (s a b : string) : verbatim s b → verbatim s (a +:+ b).
Proof.
  intros (c & d & ->). exists (a +:+ c), d. by rewrite !text_app_assoc.
Qed.

Lemma lstrip_suffix (s : string) : ∃ a : string, s = a +:+ lstrip s.
Proof.
  induction s as [|c s [a IH]]; [by exists EmptyString|].
  cbn [lstrip]. destruct (isspace c).
  - exists (String c a). rewrite text_app_cons. by rewrite <-IH.
  - by exists EmptyString.
Qed.

Lemma rstrip_prefix (s : string) : ∃ b : string, s = rstrip s +:+ b.
Proof.
  induction s as [|c s [b IH]]; [by exists EmptyString|].
  cbn [rstrip]. destruct (rstrip s) as [|d r] eqn:Hr.
  - destruct (isspace c).
    + by exists (String c s).
    + exists s. done.
  - exists b. rewrite text_app_cons. by rewrite <-IH.
Qed.

Lemma strip_verbatim (s : string) : verbatim (strip s) s.
Proof.
  destruct (lstrip_suffix s) as [a Ha]. destruct (rstrip_prefix (lstrip s)) as [b Hb].
  exists a, b. unfold strip. by rewrite <-Hb.
Qed.

Lemma starts_with_spec (s t : string) :
  starts_with s t = true ↔ ∃ b : string, t = s +:+ b.
Proof.
  revert t. induction s as [|x s IH]; intros t.
  - split; [intros _; by exists t | by destruct t].
  - destruct t as [|y t]; cbn [starts_with].
    + split; [done | by intros [b Hb]].
    + rewrite andb_true_iff, IH. split.
      * intros [->%Ascii.eqb_eq [b ->]]. by exists b.
      * intros [b Hb]. rewrite text_app_cons in Hb. injection Hb as -> ->.
        split; [apply Ascii.eqb_refl | by exists b].
Qed.

Lemma occurs_spec (s t : string) : occurs s t = true ↔ verbatim s t.
Proof.
  induction t as [|y t IH].
  - cbn [occurs]. rewrite orb_false_r, starts_with_spec. split.
    + intros [b Hb]. by exists EmptyString, b.
    + intros (a & b & Hab). destruct a; [by exists b|done].
  - cbn [occurs]. rewrite orb_true_iff, starts_with_spec, IH. split.
    + intros [[b ->] | (a & b & ->)]; [by exists EmptyString, b|].
      by exists (String y a), b.
    + intros ([|x a] & b & Hab).
      * left. by exists b.
      * right. rewrite text_app_cons in Hab. injection Hab as -> ->. by exists a, b.
Qed.

Lemma strip_after_space (s : string) : strip (EmptyString +:+ " " +:+ s) = strip s.
Proof. done. Qed.

(** *** Lines *)

Lemma one_line_app (a b : string) : one_line (a +:+ b) = one_line a && one_line b.
Proof.
  induction a as [|x a IH]; [done|].
  rewrite text_app_cons. cbn [one_line]. by rewrite IH, andb_assoc.
Qed.

Lemma one_line_verbatim (s t : string) : verbatim s t → one_line t = true → one_line s = true.
Proof.
  intros (a & b & ->). rewrite !one_line_app, !andb_true_iff. tauto.
Qed.

Lemma lines_from_one_line (cur s : string) :
  one_line s = true →
  lines_from cur s = if truthy_str (cur +:+ s) then [cur +:+ s] else [].
Proof.
  revert cur. induction s as [|c s IH]; intros cur Hs.
  - cbn [lines_from]. by rewrite text_app_nil.
  - cbn [one_line] in Hs. apply andb_true_iff in Hs as [Hc Hs].
    apply negb_true_iff in Hc. cbn [lines_from]. rewrite Hc, IH by done.
    by rewrite text_app_assoc.
Qed.

Lemma splitlines_one_line (s : string) :
  one_line s = true → splitlines s = if truthy_str s then [s] else [].
Proof. intros Hs. unfold splitlines. by rewrite lines_from_one_line. Qed.

Lemma isupper_truthy (s : string) : isupper s = true → truthy_str s = true.
Proof. by destruct s. Qed.

(** *** The parser *)

Section Parser.
Context {base : Locale}.

Lemma entries_text_app (a b : list paragraph_entry) :
  entries_text (a ++ b) = entries_text a +:+ entries_text b.
Proof.
  induction a as [|e a IH]; [done|].
  cbn [app entries_text fold_right]. fold (entries_text (a ++ b)). fold (entries_text a).
  by rewrite IH, !text_app_assoc.
Qed.

(** Every sentence of a paragraph was cut from a stretch of its text. *)
Lemma paragraph_sentences_cut (text : string) (entries : list paragraph_entry) (s : string) :
  s ∈ paragraph_sentences text entries →
  ∃ chunk : string,
    verbatim chunk (text +:+ entries_text entries) ∧ s ∈ to_sentences chunk.
Proof.
  revert text. induction entries as [|[l|l] rest IH]; intros text Hs.
  - cbn [paragraph_sentences] in Hs. destruct (truthy_str (strip text)).
    + exists (strip text). split; [|done].
      apply verbatim_app_l, strip_verbatim.
    + by apply elem_of_nil in Hs.
  - cbn [paragraph_sentences] in Hs. apply elem_of_app in Hs as [Hs|Hs].
    + destruct (truthy_str text); [|by apply elem_of_nil in Hs].
      exists text. split; [apply verbatim_app_l, verbatim_refl | done].
    + destruct (IH EmptyString Hs) as (chunk & Hc & Hin). exists chunk. split; [|done].
      cbn [entries_text fold_right]. fold (entries_text rest).
      apply verbatim_app_r, verbatim_app_r, verbatim_app_r. exact Hc.
  - cbn [paragraph_sentences] in Hs.
    destruct (IH _ Hs) as (chunk & Hc & Hin). exists chunk. split; [|done].
    cbn [entries_text fold_right]. fold (entries_text rest).
    by rewrite !text_app_assoc in *.
Qed.

Lemma document_from_cut (current : list paragraph_entry) (lines : list string) (s : string) :
  s ∈ document_from current lines →
  ∃ chunk : string,
    verbatim chunk (entries_text current +:+ lines_text lines) ∧ s ∈ to_sentences chunk.
Proof.
  revert current. induction lines as [|line rest IH]; intros current Hs.
  - cbn [document_from] in Hs.
    destruct (paragraph_sentences_cut _ _ _ Hs) as (chunk & Hc & Hin).
    exists chunk. split; [|done]. cbn [lines_text fold_right].
    by rewrite text_app_nil.
  - cbn [document_from] in Hs. cbn [lines_text fold_right]. fold (lines_text rest).
    destruct (isupper (strip line)) eqn:Hup.
    { rewrite (isupper_truthy _ Hup).
      destruct (IH _ Hs) as (chunk & Hc & Hin). exists chunk. split; [|done].
      rewrite entries_text_app in Hc. cbn [entries_text fold_right] in Hc.
      by rewrite !text_app_assoc, ?text_app_nil in *. }
    destruct (truthy_str (strip line)) eqn:Hline; cbn [negb andb] in Hs.
    { destruct (IH _ Hs) as (chunk & Hc & Hin). exists chunk. split; [|done].
      rewrite entries_text_app in Hc. cbn [entries_text fold_right] in Hc.
      by rewrite !text_app_assoc, ?text_app_nil in *. }
    destruct current as [|e current].
    { by apply IH. }
    apply elem_of_app in Hs as [Hs|Hs].
    + destruct (paragraph_sentences_cut _ _ _ Hs) as (chunk & Hc & Hin).
      exists chunk. split; [|done]. by apply verbatim_app_l.
    + destruct (IH _ Hs) as (chunk & Hc & Hin). exists chunk. split; [|done].
      by apply verbatim_app_r.
Qed.

(** Where the sentence tokenizer returns pieces of the text it is
    given, the sentences of the document appear in the joined lines of
    the text. *)
Lemma document_sentences_joined (text s : string) :
  (∀ paragraph piece : string,
     piece ∈ split_sentences paragraph → verbatim piece paragraph) →
  s ∈ document_sentences text → verbatim s (joined_lines text).
Proof.
  intros Hcut Hs. unfold document_sentences in Hs.
  destruct (document_from_cut _ _ _ Hs) as (chunk & Hc & Hin).
  unfold to_sentences in Hin. apply list_elem_of_fmap in Hin as (piece & -> & Hpiece).
  eapply verbatim_trans; [apply strip_verbatim|].
  eapply verbatim_trans; [by apply Hcut|]. exact Hc.
Qed.

(** And in the text itself when it is one line. *)
Lemma document_sentences_one_line (text s : string) :
  (∀ paragraph piece : string,
     piece ∈ split_sentences paragraph → verbatim piece paragraph) →
  one_line text = true →
  s ∈ document_sentences text → verbatim s text.
Proof.
  intros Hcut Hone Hs. unfold document_sentences in Hs.
  rewrite splitlines_one_line in Hs
    by (eapply one_line_verbatim; [apply strip_verbatim | done]).
  destruct (truthy_str (strip text)); [|by apply elem_of_nil in Hs].
  cbn [document_from] in Hs.
  destruct (isupper (strip (strip text))); [by apply elem_of_nil in Hs|].
  cbn [andb negb] in Hs. rewrite andb_false_r in Hs.
  destruct (truthy_str (strip (strip text))); [|by apply elem_of_nil in Hs].
  cbn [app document_from paragraph_sentences] in Hs.
  rewrite strip_after_space in Hs.
  destruct (truthy_str _); [|by apply elem_of_nil in Hs].
  unfold to_sentences in Hs. apply list_elem_of_fmap in Hs as (piece & -> & Hpiece).
  eapply verbatim_trans; [apply strip_verbatim|].
  eapply verbatim_trans; [by apply Hcut|].
  do 2 (eapply verbatim_trans; [apply strip_verbatim|]). apply strip_verbatim.
Qed.
End Parser.

End TextFacts.

(** ** The length tiers of the local summarizer *)

Module TierFacts.
Import Summarizers.

Lemma sentence_counts_lookup (length : string) :
  sentence_counts !! length =
    if decide (length = "short") then Some 3%nat
    else if decide (length = "medium") then Some 5%nat
    else if decide (length = "long") then Some 8%nat
    else None.
Proof.
  unfold sentence_counts.
  repeat case_decide; subst; simplify_map_eq; done.
Qed.

Lemma sentence_count_cases (length : string) :
  sentence_count length = 3%nat ∨ sentence_count length = 5%nat
  ∨ sentence_count length = 8%nat.
Proof.
  unfold sentence_count. rewrite sentence_counts_lookup.
  repeat case_decide; simpl; auto.
Qed.

Lemma sentence_count_ge_2 (length : string) : (2 <= sentence_count length)%nat.
Proof. destruct (sentence_count_cases length) as [-> | [-> | ->]]; lia. Qed.

Lemma sentence_count_medium : sentence_count "medium" = 5%nat.
Proof. unfold sentence_count. by rewrite sentence_counts_lookup. Qed.

(** C2: the tier table of the local summarizer maps 'short' to 3,
    'medium' to 5 and 'long' to 8 sentences, and has no other entry. *)
Theorem C2_tier_table :
  sentence_count "short" = 3%nat ∧ sentence_count "medium" = 5%nat
  ∧ sentence_count "long" = 8%nat
  ∧ ∀ tier : string,
      is_Some (sentence_counts !! tier)
      ↔ tier = "short" ∨ tier = "medium" ∨ tier = "long".
Proof.
  unfold sentence_count. rewrite !sentence_counts_lookup.
  do 3 (split; [done|]). intros tier. rewrite sentence_counts_lookup.
  repeat case_decide; subst; split; intros Hs; auto;
    try (by destruct Hs as [? | [? | ?]]); by destruct Hs.
Qed.

Lemma sentence_count_unknown (length : string) :
  length ≠ "short" → length ≠ "medium" → length ≠ "long" →
  sentence_count length = 5%nat.
Proof.
  intros Hs Hm Hl. unfold sentence_count. rewrite sentence_counts_lookup.
  repeat case_decide; done.
Qed.

End TierFacts.

(** ** The selection of the salience ranker *)

Module RankerFacts.
Import Engine.

Global Instance outranks_total : Total outranks.
Proof.
  intros [s x] [t y]. unfold outranks, outranksb. simpl.
  rewrite <-(Qcompare_antisym x y).
  destruct (Qcompare x y); simpl; auto.
  destruct (Nat.leb_spec (index s) (index t)); [by left | right].
  apply Nat.leb_le. lia.
Qed.

Global Instance precedes_total : Total precedes.
Proof. intros a b. unfold precedes. lia. Qed.

Global Instance precedes_trans : Transitive precedes.
Proof. intros a b c. unfold precedes. lia. Qed.

(** The tokenizer numbers the sentences by position. *)
Lemma imap_offset_sorted {locale : Locale} (l : list string) (n : nat) :
  StronglySorted before
    (imap (fun i s => {| index := n + i; surface := s; tokens := normalize s |}) l)
  ∧ Forall (fun s => (n <= index s)%nat)
    (imap (fun i s => {| index := n + i; surface := s; tokens := normalize s |}) l).
Proof.
  revert n. induction l as [|x l IH]; intros n; simpl.
  - split; constructor.
  - destruct (IH (S n)) as [Hs Hf].
    assert (Heq : imap ((fun i s => {| index := n + i; surface := s; tokens := normalize s |}) ∘ S) l
                  = imap (fun i s => {| index := S n + i; surface := s; tokens := normalize s |}) l).
    { apply imap_ext. intros i y _. simpl. f_equal. lia. }
    rewrite Heq. split.
    + constructor; [done|].
      eapply Forall_impl; [exact Hf|]. intros s Hle. unfold before.
      cbn in *. lia.
    + constructor; [cbn; lia|].
      eapply Forall_impl; [exact Hf|]. intros s Hle. cbn in *. lia.
Qed.

Lemma tokenize_sorted {locale : Locale} (text : string) :
  StronglySorted before (tokenize text).
Proof. exact (proj1 (imap_offset_sorted (split_sentences text) 0)). Qed.

Lemma tokenize_surface {locale : Locale} (text : string) :
  surface <$> tokenize text = split_sentences text.
Proof.
  unfold tokenize. rewrite fmap_imap.
  rewrite (imap_ext _ (const id)); [|done].
  by rewrite imap_const, list_fmap_id.
Qed.

Lemma tokenize_length {locale : Locale} (text : string) :
  length (tokenize text) = length (split_sentences text).
Proof. unfold tokenize. apply length_imap. Qed.

(** In a document numbered in increasing order the index identifies the
    sentence. *)
Lemma before_index_inj (doc : list Sentence) (a b : Sentence) :
  StronglySorted before doc → a ∈ doc → b ∈ doc → index a = index b → a = b.
Proof.
  induction 1 as [|x l Hl IH Hx]; intros Ha Hb Hi.
  - by apply elem_of_nil in Ha.
  - rewrite Forall_forall in Hx. unfold before in Hx.
    apply elem_of_cons in Ha as [->|Ha]; apply elem_of_cons in Hb as [->|Hb]; auto.
    + specialize (Hx _ Hb). lia.
    + specialize (Hx _ Ha). lia.
Qed.

Lemma before_sublist (l doc : list Sentence) :
  l `sublist_of` doc → StronglySorted before doc → StronglySorted before l.
Proof.
  induction 1 as [|x l1 l2 Hsub IH|x l1 l2 Hsub IH]; intros Hd.
  - constructor.
  - apply StronglySorted_inv in Hd as [Hd Hx]. constructor; [by apply IH|].
    rewrite Forall_forall in *. intros y Hy. apply Hx.
    by apply (elem_of_sublist l1 l2).
  - apply StronglySorted_inv in Hd as [Hd _]. by apply IH.
Qed.

Lemma before_precedes (l : list Sentence) :
  StronglySorted before l → StronglySorted precedes l.
Proof.
  induction 1 as [|x l Hl IH Hx]; constructor; [done|].
  eapply Forall_impl; [exact Hx|]. unfold before, precedes. lia.
Qed.

(** A multiset-part of the document that is sorted by index is a
    subsequence of it. *)
Lemma sorted_part_sublist (l doc : list Sentence) :
  StronglySorted before doc → l ⊆+ doc → Sorted precedes l →
  l `sublist_of` doc.
Proof.
  intros Hd Hsub Hl.
  apply submseteq_sublist_r in Hsub as (l' & Hperm & Hsl).
  assert (l = l') as ->; [|done].
  apply (StronglySorted_unique_strong precedes); [| |by apply before_precedes, (before_sublist _ doc)|done].
  - intros a b Ha Hb Hab Hba.
    apply (before_index_inj doc); [done| |by apply (elem_of_sublist l' doc)|unfold precedes in *; lia].
    apply (elem_of_sublist l' doc); [|done]. by rewrite <-Hperm.
  - by apply Sorted_StronglySorted; [apply _|].
Qed.

Section Selection.
Context {numerics : Numerics}.

Lemma fst_rated (g : Sentence → Q) (doc : list Sentence) :
  fst <$> ((fun s => (s, g s)) <$> doc) = doc.
Proof. induction doc as [|s doc IH]; csimpl; [done | by rewrite IH]. Qed.

Lemma text_rank_part (doc : list Sentence) (count : nat) :
  text_rank doc count ⊆+ doc.
Proof.
  unfold text_rank. rewrite merge_sort_Permutation.
  set (g := fun s => salience (tokens <$> doc) (index s)).
  transitivity (fst <$> ((fun s => (s, g s)) <$> doc)); [|by rewrite fst_rated].
  apply fmap_submseteq.
  etransitivity; [apply submseteq_take|].
  by rewrite merge_sort_Permutation.
Qed.

Lemma text_rank_length (doc : list Sentence) (count : nat) :
  length (text_rank doc count) = (count `min` length doc)%nat.
Proof.
  unfold text_rank.
  rewrite (Permutation_length (merge_sort_Permutation precedes _)).
  rewrite length_fmap, length_take.
  rewrite (Permutation_length (merge_sort_Permutation outranks _)).
  by rewrite length_fmap.
Qed.

Lemma text_rank_sorted (doc : list Sentence) (count : nat) :
  Sorted precedes (text_rank doc count).
Proof. unfold text_rank. apply (Sorted_merge_sort precedes). Qed.

(** The selection keeps sentences unchanged and in document order. *)
Lemma text_rank_sublist (doc : list Sentence) (count : nat) :
  StronglySorted before doc → text_rank doc count `sublist_of` doc.
Proof.
  intros Hd. apply sorted_part_sublist;
    [done | apply text_rank_part | apply text_rank_sorted].
Qed.
End Selection.

End RankerFacts.

(** ** The local summarizer *)

Module LocalFacts.
Import Engine Summarizers Notions TierFacts RankerFacts TextFacts.

Lemma truthy_append (p : string) (c : ascii) (s : string) :
  truthy_str (p +:+ String c s) = true.
Proof. by destruct p. Qed.

(** Two or more joined parts always contain the separator. *)
Lemma join_space_truthy (parts : list string) :
  (2 <= length parts)%nat → truthy_str (join " " parts) = true.
Proof.
  destruct parts as [|p [|q r]]; simpl; [lia | lia | intros _].
  apply truthy_append.
Qed.

Section Facade.
Context {locale : Locale} {numerics : Numerics}.

(** With at least two sentences selected, the joined summary is not
    empty and the truncated-prefix branch is not taken. *)
Lemma local_summarize_joined (self : LocalSummarizer) (text tier : string) :
  (2 <= length (split_sentences text))%nat →
  (local_summarize self text tier).2 =
    join " " (surface <$> text_rank (tokenize text) (sentence_count tier)).
Proof.
  intros Hlen. unfold local_summarize, str_or. cbn [snd].
  rewrite join_space_truthy; [done|].
  rewrite length_fmap, text_rank_length, tokenize_length.
  pose proof (sentence_count_ge_2 tier). lia.
Qed.

(** Whatever the tokenizer, the summary is the single-space join of
    the target number of sentences, taken from the sentences of the
    document in their order. *)
Lemma summary_is_selection (self : LocalSummarizer) (text tier : string) :
  (sentence_count tier <= length (split_sentences text))%nat →
  ∃ picked : list string,
    (local_summarize self text tier).2 = join " " picked
    ∧ length picked = sentence_count tier
    ∧ picked `sublist_of` split_sentences text.
Proof.
  intros Hlen. pose proof (sentence_count_ge_2 tier) as Hge.
  exists (surface <$> text_rank (tokenize text) (sentence_count tier)).
  split; [|split].
  - apply local_summarize_joined. lia.
  - rewrite length_fmap, text_rank_length, tokenize_length. lia.
  - rewrite <-(tokenize_surface text).
    apply fmap_sublist, text_rank_sublist, tokenize_sorted.
Qed.







(** C9: a length argument outside 'short', 'medium' and 'long' is not
    an error: the target count is 5 and the call returns what it
    returns for 'medium'. *)
Theorem C9_unknown_tier_is_medium {gemini : Gemini}
        (self : LocalSummarizer) (text tier : string) :
  tier ≠ "short" → tier ≠ "medium" → tier ≠ "long" →
  sentence_count tier = 5%nat
  ∧ local_summarize self text tier = local_summarize self text "medium"
  ∧ summarize (Local self) text tier = summarize (Local self) text "medium"
  ∧ ∃ out, (summarize (Local self) text tier).2 = Ok out.
Proof.
  intros Hs Hm Hl.
  assert (Hc : sentence_count tier = sentence_count "medium").
  { rewrite (sentence_count_unknown tier) by done.
    symmetry. apply sentence_count_medium. }
  assert (Heq : local_summarize self text tier = local_summarize self text "medium").
  { unfold local_summarize. by rewrite Hc. }
  split; [by apply sentence_count_unknown|]. split; [done|].
  unfold summarize. rewrite Heq. split; [done|].
  destruct (local_summarize self text "medium") as [l out]. by eexists.
Qed.

End Facade.

Section Plaintext.
Context {base : Locale} {numerics : Numerics}.

(** C1 (amended): for a non-empty text of which the parser makes at
    least as many sentences as the tier's target count, the summary of
    the local summarizer is the single-space join of exactly that many
    sentences, which form a subsequence of the sentences of the
    document: each one unchanged, in their original relative order.
    Where the sentence tokenizer cuts pieces out of the text it is
    given, each of them appears verbatim in the lines of the text once
    these are stripped and joined by single spaces, and hence in the
    text itself when it is one line. *)
Theorem C1_summary_is_ordered_selection
        (self : LocalSummarizer) (text tier : string) :
  text ≠ "" →
  (sentence_count tier <= length (document_sentences text))%nat →
  (∀ paragraph piece : string,
     piece ∈ split_sentences paragraph → verbatim piece paragraph) →
  ∃ picked : list string,
    (local_summarize (locale := plaintext) self text tier).2 = join " " picked
    ∧ length picked = sentence_count tier
    ∧ picked `sublist_of` document_sentences text
    ∧ Forall (fun s => verbatim s (joined_lines text)) picked
    ∧ (one_line text = true → Forall (fun s => verbatim s text) picked).
Proof.
  intros _ Hlen Hcut.
  destruct (summary_is_selection (locale := plaintext) self text tier Hlen)
    as (picked & Hjoin & Hcount & Hsub).
  exists picked. do 3 (split; [done|]).
  change (picked `sublist_of` document_sentences text) in Hsub.
  split; [|intros Hone]; apply Forall_forall; intros s Hs;
    apply (elem_of_sublist _ _ s Hs) in Hsub.
  - by apply document_sentences_joined.
  - by apply document_sentences_one_line.
Qed.
End Plaintext.

Import Sample.

(** The sentences of the sample tokenizer are pieces of its text. *)
Lemma sentences_from_pieces (cur s piece : string) :
  piece ∈ sentences_from cur s → verbatim piece (cur +:+ s).
Proof.
  revert cur. induction s as [|c s IH]; intros cur Hin.
  - cbn [sentences_from] in Hin. rewrite text_app_nil.
    destruct (truthy_str (strip cur)); [|by apply elem_of_nil in Hin].
    apply list_elem_of_singleton in Hin as ->. apply strip_verbatim.
  - cbn [sentences_from] in Hin.
    assert (Hsnoc : cur +:+ String c s = snoc cur c +:+ s).
    { unfold snoc. by rewrite text_app_assoc. }
    rewrite Hsnoc. destruct (is_terminator c).
    + apply elem_of_cons in Hin as [-> | Hin].
      * apply verbatim_app_l, strip_verbatim.
      * apply verbatim_app_r. by apply (IH EmptyString).
    + by apply IH.
Qed.

Lemma english_pieces (paragraph piece : string) :
  piece ∈ split_sentences (Locale := english) paragraph → verbatim piece paragraph.
Proof. apply (sentences_from_pieces EmptyString). Qed.

Lemma C1_summary_is_ordered_selection_witness :
  ∃ picked : list string,
    (local_summarize (locale := plaintext) new_local ten_sentences "short").2
    = join " " picked
    ∧ length picked = sentence_count "short"
    ∧ picked `sublist_of` document_sentences ten_sentences
    ∧ Forall (fun s => verbatim s (joined_lines ten_sentences)) picked
    ∧ (one_line ten_sentences = true → Forall (fun s => verbatim s ten_sentences) picked).
Proof.
  apply (C1_summary_is_ordered_selection new_local ten_sentences "short").
  - discriminate.
  - vm_compute. lia.
  - exact english_pieces.
Defined.

(** C1 as stated fails on a text whose sentences run over line
    breaks: the parser joins the lines by single spaces before the
    sentences are cut, so the three sentences returned (all the text
    has, whatever their scores) are not in the source as they stand. *)
Lemma C1_counterexample :
  Cases.wrapped_text ≠ ""
  ∧ length (document_sentences Cases.wrapped_text) = sentence_count "short"
  ∧ (local_summarize (locale := plaintext) new_local Cases.wrapped_text "short").2
    = join " " ["Cats chase mice."; "Dogs chase cats."; "Birds sing songs."]
  ∧ Forall (fun s => ¬ verbatim s Cases.wrapped_text)
           ["Cats chase mice."; "Dogs chase cats."; "Birds sing songs."].
Proof.
  split; [discriminate|]. split; [by vm_compute|]. split; [by vm_compute|].
  repeat apply Forall_cons_2; [| | |apply Forall_nil_2];
    intros Hin%occurs_spec; by vm_compute in Hin.
Qed.

(** The scenario of the ten-sentence document, evaluated. *)
Example ten_sentences_short :
  length (document_sentences ten_sentences) = 10%nat
  ∧ (local_summarize (locale := plaintext) new_local ten_sentences "short").2
    = "Cats chase mice. Dogs chase cats. Birds sing songs."
  ∧ (local_summarize new_local ten_sentences "short").2
    = "Cats chase mice. Dogs chase cats. Birds sing songs.".
Proof. by vm_compute. Qed.

(** The parser on headings, paragraphs and line ends. *)
Example document_sentences_parsed :
  document_sentences ("A TITLE" +:+ nl +:+ " One  two." +:+ nl +:+ "Three. " +:+ nl +:+ nl
                        +:+ "Four" +:+ String "013" nl +:+ "five.")
  = ["One  two."; "Three."; "Four five."]
  ∧ splitlines ("a" +:+ nl +:+ nl +:+ "b" +:+ String "013" nl) = ["a"; ""; "b"]
  ∧ joined_lines (" x " +:+ nl +:+ nl +:+ "y") = " x y".
Proof. by vm_compute. Qed.

Lemma C9_unknown_tier_is_medium_witness :
  sentence_count "tiny" = 5%nat
  ∧ local_summarize new_local ten_sentences "tiny"
    = local_summarize new_local ten_sentences "medium"
  ∧ summarize (gemini := canned "") (Local new_local) ten_sentences "tiny"
    = summarize (gemini := canned "") (Local new_local) ten_sentences "medium"
  ∧ ∃ out, (summarize (gemini := canned "") (Local new_local) ten_sentences "tiny").2 = Ok out.
Proof.
  apply (C9_unknown_tier_is_medium (gemini := canned "") new_local ten_sentences "tiny");
    discriminate.
Defined.




End LocalFacts.

(** ** The online summarizer *)

Module OnlineFacts.
Import Engine Summarizers.

Lemma get_model_no_credential (key : option string) :
  no_credential key →
  _get_model (new_online key)
  = (new_online key, Raise (ValueError missing_key_message)).
Proof. by intros [-> | ->]. Qed.

Lemma get_summarizer_online (key : option string) :
  get_summarizer "online" key = Online (new_online key).
Proof. done. Qed.

(** C6: with the online strategy selected and no credential, both
    summarize and extract_key_points raise the missing-key ValueError to
    the caller; the factory still answers with the online strategy, and
    no result of the local strategy is returned in its place. *)
Theorem C6_missing_credential_raises
        {locale : Locale} {numerics : Numerics} {gemini : Gemini}
        (key : option string) (text tier : string) (max_points : nat) :
  no_credential key →
  get_summarizer "online" key = Online (new_online key)
  ∧ summarize (get_summarizer "online" key) text tier
    = (Online (new_online key), Raise (ValueError missing_key_message))
  ∧ extract_key_points (get_summarizer "online" key) text max_points
    = (Online (new_online key), Raise (ValueError missing_key_message)).
Proof.
  intros Hkey. rewrite get_summarizer_online. split; [done|].
  unfold summarize, extract_key_points, online_summarize, online_extract_key_points.
  by rewrite (get_model_no_credential key Hkey).
Qed.

Import Sample.

Lemma C6_missing_credential_raises_witness :
  get_summarizer "online" (Some "") = Online (new_online (Some ""))
  ∧ summarize (gemini := canned "ok") (get_summarizer "online" (Some "")) ten_sentences "short"
    = (Online (new_online (Some "")), Raise (ValueError missing_key_message))
  ∧ extract_key_points (gemini := canned "ok") (get_summarizer "online" (Some "")) ten_sentences 5
    = (Online (new_online (Some "")), Raise (ValueError missing_key_message)).
Proof.
  apply (C6_missing_credential_raises (gemini := canned "ok") (Some "") ten_sentences "short" 5).
  by right.
Defined.

(** With a credential the service is reached. *)
Example online_with_key :
  summarize (gemini := canned " Short answer. ") (get_summarizer "online" (Some "k")) "Some text." "short"
  = (Online {| api_key := Some "k";
               _model := Some {| model_name := "gemini-1.5-flash"; configured_key := "k" |} |},
     Ok "Short answer.").
Proof. by vm_compute. Qed.

Example online_key_points :
  (extract_key_points (gemini := canned ("- one" +:+ nl +:+ "*  two" +:+ nl +:+ nl +:+ "three"))
     (get_summarizer "online" (Some "k")) "Some text." 2).2
  = Ok ["one"; "two"].
Proof. by vm_compute. Qed.

End OnlineFacts.

(** ** The codec reads back what it writes *)

Module PyJsonFacts.
Import PyJson PyFacts.

(** *** Whitespace *)

Lemma skip_ws_stop (c : ascii) (s : string) :
  is_ws c = false → skip_ws (String c s) = String c s.
Proof. intros Hc. simpl. by rewrite Hc. Qed.

Lemma skip_ws_spaces (n : nat) (k : string) :
  skip_ws (emit_spaces n k) = skip_ws k.
Proof. induction n as [|n IH]; [done | exact IH]. Qed.

Lemma skip_ws_break (indent : option nat) (level : nat) (k : string) :
  skip_ws (emit_break indent level k) = skip_ws k.
Proof. destruct indent as [n|]; [|done]. simpl. apply skip_ws_spaces. Qed.

Lemma skip_ws_idemp (s : string) : skip_ws (skip_ws s) = skip_ws s.
Proof.
  induction s as [|c s IH]; [done|]. simpl.
  destruct (is_ws c) eqn:Hc; [done|]. simpl. by rewrite Hc.
Qed.

(** The readers look at their input past the leading whitespace only. *)
Lemma parse_value_skip (fuel : nat) (s s' : string) :
  skip_ws s = skip_ws s' → parse_value fuel s = parse_value fuel s'.
Proof. intros Hs. destruct fuel; [done|]. simpl. by rewrite Hs. Qed.

Lemma parse_items_skip (fuel : nat) (s s' : string) :
  skip_ws s = skip_ws s' → parse_items fuel s = parse_items fuel s'.
Proof.
  intros Hs. destruct fuel; [done|]. simpl.
  by rewrite (parse_value_skip fuel s s' Hs).
Qed.

Lemma parse_members_skip (fuel : nat) (s s' : string) :
  skip_ws s = skip_ws s' → parse_members fuel s = parse_members fuel s'.
Proof. intros Hs. destruct fuel; [done|]. simpl. by rewrite Hs. Qed.

(** *** String literals *)

Lemma parse_escape_char (c : ascii) (tail : string) :
  parse_chars (escape_char c +:+ tail) = push c (parse_chars tail).
Proof.
  destruct c as [[] [] [] [] [] [] [] []]; reflexivity.
Qed.

Lemma parse_emit_chars (s k : string) :
  parse_chars (emit_chars s (String dq k)) = Some (s, k).
Proof.
  induction s as [|c s IH]; [done|].
  cbn [emit_chars]. by rewrite parse_escape_char, IH.
Qed.

Lemma parse_emit_quoted (s k : string) :
  ∃ rest, emit_quoted s k = String dq rest ∧ parse_chars rest = Some (s, k).
Proof. eexists. split; [done|]. apply parse_emit_chars. Qed.

(** *** Integers *)

Lemma delimiter_no_digit (k : string) :
  delimiter k = true → read_digits k = (Decimal.Nil, k) ∧ float_tail k = false.
Proof.
  destruct k as [|c k]; [done|].
  destruct c as [[] [] [] [] [] [] [] []]; simpl; intros Hd;
    try discriminate Hd; done.
Qed.

Lemma read_digits_uint (u : Decimal.uint) (k : string) :
  delimiter k = true →
  read_digits (NilEmpty.string_of_uint u +:+ k) = (u, k).
Proof.
  intros Hk. induction u as [|u IH|u IH|u IH|u IH|u IH|u IH|u IH|u IH|u IH|u IH];
    [exact (proj1 (delimiter_no_digit k Hk)) | ..];
    cbn [NilEmpty.string_of_uint]; simpl; by rewrite IH.
Qed.

Lemma uint_head_digit (u : Decimal.uint) (k : string) :
  u ≠ Decimal.Nil →
  ∃ c r, NilEmpty.string_of_uint u +:+ k = String c r ∧ is_digit c = true.
Proof. destruct u; [done | ..]; intros _; by do 2 eexists. Qed.

Lemma to_int_norm (n : Z) : Decimal.norm (Z.to_int n) = Z.to_int n.
Proof. rewrite <-(DecimalZ.to_of (Z.to_int n)). by rewrite DecimalZ.of_to. Qed.

Lemma unorm_nonnil (u : Decimal.uint) : Decimal.unorm u = u → u ≠ Decimal.Nil.
Proof. intros Hu ->. discriminate Hu. Qed.

(** The digits [Z.to_int] produces have no leading zero. *)
Lemma to_int_digits (n : Z) :
  ∃ (negative : bool) (u : Decimal.uint),
    Z.to_int n = (if negative then Decimal.Neg u else Decimal.Pos u)
    ∧ Decimal.unorm u = u.
Proof.
  pose proof (to_int_norm n) as Hn.
  destruct (Z.to_int n) as [u|u] eqn:Hu.
  - exists false, u. split; [done|]. simpl in Hn. by injection Hn.
  - exists true, u. split; [done|]. simpl in Hn. unfold Decimal.unorm.
    destruct (Decimal.nzhead u) eqn:Hz; try discriminate Hn; by injection Hn.
Qed.

Lemma parse_int_digits (negative : bool) (u : Decimal.uint) (k : string) :
  Decimal.unorm u = u → delimiter k = true →
  parse_int negative (NilEmpty.string_of_uint u +:+ k)
  = Some (VInt (Z.of_int (if negative then Decimal.Neg u else Decimal.Pos u)), k).
Proof.
  intros Hu Hk. unfold parse_int. rewrite (read_digits_uint u k Hk).
  destruct (Decimal.uint_eq_dec (Decimal.unorm u) u) as [_|Hne]; [|done].
  by rewrite (proj2 (delimiter_no_digit k Hk)).
Qed.

Lemma parse_value_digit (fuel : nat) (c : ascii) (rest : string) :
  is_digit c = true →
  parse_value (S fuel) (String c rest) = parse_int false (String c rest).
Proof.
  destruct c as [[] [] [] [] [] [] [] []]; intros Hd;
    try discriminate Hd; reflexivity.
Qed.

Lemma parse_emit_int (fuel : nat) (n : Z) (k : string) :
  delimiter k = true →
  parse_value (S fuel) (emit_int n k) = Some (VInt n, k).
Proof.
  intros Hk. unfold emit_int.
  destruct (to_int_digits n) as (negative & u & Hn & Hu).
  rewrite <-(DecimalZ.of_to n) at 2. rewrite Hn.
  destruct negative.
  - change (parse_value (S fuel) (String "-" (NilEmpty.string_of_uint u +:+ k)))
      with (parse_int true (NilEmpty.string_of_uint u +:+ k)).
    by apply parse_int_digits.
  - destruct (uint_head_digit u k (unorm_nonnil u Hu)) as (c & r & Hcr & Hc).
    rewrite <-(parse_int_digits false u k Hu Hk).
    rewrite Hcr. by apply parse_value_digit.
Qed.

(** *** Unfolding the nested recursions *)

Lemma emit_list_cons indent level (x : value) (xs : list value) (k : string) :
  emit indent level (VList (x :: xs)) k
  = String "[" (emit_break indent (S level)
                  (emit indent (S level) x (emit_items indent level k xs))).
Proof.
  cbn [emit]. do 3 f_equal.
  induction xs as [|y ys IH]; cbn [emit_items]; [done | by rewrite <-IH].
Qed.

Lemma emit_dict_cons indent level (key : string) (x : value)
      (ms : list (string * value)) (k : string) :
  emit indent level (VDict ((key, x) :: ms)) k
  = String "{" (emit_break indent (S level)
                  (emit_quoted key (String ":" (String " "
                     (emit indent (S level) x (emit_members indent level k ms)))))).
Proof.
  cbn [emit]. do 6 f_equal.
  induction ms as [|[key' y] ms IH]; cbn [emit_members]; [done | by rewrite <-IH].
Qed.

Lemma weight_list (l : list value) : weight (VList l) = S (items_weight l).
Proof.
  reflexivity.
Qed.

Lemma weight_dict (d : list (string * value)) :
  weight (VDict d) = S (members_weight d).
Proof.
  reflexivity.
Qed.

Lemma weight_pos (v : value) : (1 <= weight v)%nat.
Proof. destruct v; cbn [weight]; lia. Qed.

(** *** Values *)

Lemma digit_opens (c : ascii) : is_digit c = true → opens_value c = true.
Proof.
  destruct c as [[] [] [] [] [] [] [] []]; intros Hd;
    try discriminate Hd; reflexivity.
Qed.

Lemma emit_head indent level (v : value) (k : string) :
  ∃ c r, emit indent level v k = String c r ∧ opens_value c = true.
Proof.
  destruct v as [|b|n|s|[|x xs]|[|[key x] ms]]; cbn [emit];
    try (by do 2 eexists).
  - destruct b; by do 2 eexists.
  - unfold emit_int. destruct (to_int_digits n) as (negative & u & -> & Hu).
    destruct negative; [by do 2 eexists|].
    destruct (uint_head_digit u k (unorm_nonnil u Hu)) as (c & r & -> & Hc).
    exists c, r. split; [done|]. by apply digit_opens.
Qed.

Lemma skip_ws_emit indent level (v : value) (k : string) :
  skip_ws (emit indent level v k) = emit indent level v k.
Proof.
  destruct (emit_head indent level v k) as (c & r & -> & Hc).
  apply skip_ws_stop. unfold opens_value in Hc.
  by destruct (is_ws c).
Qed.

Lemma delimiter_items indent level (k : string) (xs : list value) :
  delimiter (emit_items indent level k xs) = true.
Proof. destruct xs, indent; reflexivity. Qed.

Lemma delimiter_members indent level (k : string) (ms : list (string * value)) :
  delimiter (emit_members indent level k ms) = true.
Proof. destruct ms as [|[key y] ms], indent; reflexivity. Qed.

Lemma skip_ws_comma indent level (k : string) :
  ∃ rest, skip_ws (emit_comma indent level k) = String "," rest
          ∧ skip_ws rest = skip_ws k.
Proof.
  destruct indent as [n|]; eexists; (split; [reflexivity|]).
  - apply (skip_ws_break (Some n)).
  - done.
Qed.

Lemma parse_value_list (fuel : nat) (rest : string) (c : ascii) (r : string) :
  skip_ws rest = String c r → opens_value c = true →
  parse_value (S fuel) (String "[" rest)
  = match parse_items fuel rest with
    | Some (l, rest') => Some (VList l, rest')
    | None => None
    end.
Proof.
  intros Hs Hc. simpl. rewrite Hs.
  destruct c as [[] [] [] [] [] [] [] []]; try discriminate Hc; reflexivity.
Qed.

Lemma parse_value_dict (fuel : nat) (rest : string) (c : ascii) (r : string) :
  skip_ws rest = String c r → opens_value c = true →
  parse_value (S fuel) (String "{" rest)
  = match parse_members fuel rest with
    | Some (l, rest') => Some (VDict (dict_of_pairs l), rest')
    | None => None
    end.
Proof.
  intros Hs Hc. simpl. rewrite Hs.
  destruct c as [[] [] [] [] [] [] [] []]; try discriminate Hc; reflexivity.
Qed.

Lemma parse_emit_items indent level (k : string) (xs : list value) :
  delimiter k = true → Forall reads_back xs → Forall well_formed xs →
  ∀ (x : value) (fuel : nat),
    reads_back x → well_formed x →
    (S (weight x) + items_weight xs <= fuel)%nat →
    parse_items fuel (emit indent (S level) x (emit_items indent level k xs))
    = Some (x :: xs, k).
Proof.
  intros Hk Hall Hwf. induction xs as [|y ys IH]; intros x fuel Hx Hwx Hfuel;
    (destruct fuel as [|fuel]; [lia|]); cbn [parse_items];
    (rewrite Hx; [|done|lia|apply delimiter_items]).
  - cbn [emit_items]. rewrite skip_ws_break. reflexivity.
  - cbn [emit_items items_weight] in *.
    destruct (skip_ws_comma indent (S level)
                (emit indent (S level) y (emit_items indent level k ys)))
      as (rest & -> & Hrest).
    cbn [Ascii.eqb]. simpl Ascii.eqb.
    rewrite (parse_items_skip fuel rest
               (emit indent (S level) y (emit_items indent level k ys))).
    + apply Forall_cons in Hall as [Hy Hall]. apply Forall_cons in Hwf as [Hwy Hwf].
      rewrite (IH Hall Hwf y fuel Hy Hwy); [done | lia].
    + by rewrite Hrest.
Qed.

Lemma parse_value_space (fuel : nat) (s : string) :
  parse_value fuel (String " " s) = parse_value fuel s.
Proof. by apply parse_value_skip. Qed.

Lemma parse_members_step (fuel : nat) (key K : string) :
  parse_members (S fuel) (emit_quoted key (String ":" K))
  = match parse_value fuel K with
    | Some (v, rest3) =>
        match skip_ws rest3 with
        | String c rest4 =>
            if Ascii.eqb c "," then
              match parse_members fuel rest4 with
              | Some (ms, r) => Some ((key, v) :: ms, r)
              | None => None
              end
            else if Ascii.eqb c "}" then Some ([(key, v)], rest4)
            else None
        | EmptyString => None
        end
    | None => None
    end.
Proof.
  unfold emit_quoted. cbn [parse_members].
  rewrite skip_ws_stop by done.
  change (Ascii.eqb dq dq) with true. cbv iota.
  rewrite parse_emit_chars. rewrite skip_ws_stop by done.
  reflexivity.
Qed.

Lemma parse_emit_members indent level (k : string) (ms : list (string * value)) :
  delimiter k = true →
  Forall (fun kv => reads_back (snd kv)) ms →
  Forall (fun kv => well_formed (snd kv)) ms →
  ∀ (key : string) (x : value) (fuel : nat),
    reads_back x → well_formed x →
    (S (weight x) + members_weight ms <= fuel)%nat →
    parse_members fuel
      (emit_quoted key (String ":" (String " "
         (emit indent (S level) x (emit_members indent level k ms)))))
    = Some ((key, x) :: ms, k).
Proof.
  intros Hk Hall Hwf.
  induction ms as [|[key' y] ms IH]; intros key x fuel Hx Hwx Hfuel;
    (destruct fuel as [|fuel]; [lia|]);
    rewrite parse_members_step, parse_value_space;
    (rewrite Hx; [|done|lia|apply delimiter_members]).
  - cbn [emit_members]. rewrite skip_ws_break. reflexivity.
  - cbn [emit_members members_weight snd] in *.
    destruct (skip_ws_comma indent (S level)
                (emit_quoted key' (String ":" (String " "
                   (emit indent (S level) y (emit_members indent level k ms))))))
      as (rest & -> & Hrest).
    simpl Ascii.eqb. cbv iota.
    rewrite (parse_members_skip fuel rest
               (emit_quoted key' (String ":" (String " "
                  (emit indent (S level) y (emit_members indent level k ms)))))).
    + apply Forall_cons in Hall as [Hy Hall]. apply Forall_cons in Hwf as [Hwy Hwf].
      rewrite (IH Hall Hwf key' y fuel Hy Hwy); [done | lia].
    + by rewrite Hrest.
Qed.

Lemma dict_set_fresh (key : string) (v : value) (d : dict) :
  key ∉ (fst <$> d) → dict_set key v d = d ++ [(key, v)].
Proof.
  induction d as [|[k w] d IH]; [done|]. csimpl. intros Hnot.
  apply not_elem_of_cons in Hnot as [Hne Hnot].
  destruct (String.eqb_spec k key) as [->|_]; [done|].
  by rewrite IH.
Qed.

Lemma dict_of_pairs_from (acc d : dict) :
  NoDup (fst <$> (acc ++ d)) →
  fold_left (fun d kv => dict_set (fst kv) (snd kv) d) d acc = acc ++ d.
Proof.
  revert acc. induction d as [|[k v] d IH]; intros acc Hnd.
  - by rewrite app_nil_r.
  - cbn [fold_left fst snd].
    rewrite dict_set_fresh.
    + rewrite IH; [by rewrite <-app_assoc|]. by rewrite <-app_assoc.
    + rewrite fmap_app in Hnd. apply NoDup_app in Hnd as (_ & Hdis & _).
      intros Hin. apply (Hdis k Hin). csimpl. apply elem_of_cons. by left.
Qed.

Lemma dict_of_pairs_nodup (d : dict) :
  NoDup (fst <$> d) → dict_of_pairs d = d.
Proof. intros Hnd. unfold dict_of_pairs. by rewrite dict_of_pairs_from. Qed.

(** Every object is read back from what [emit] writes for it. *)
Lemma emit_reads_back (v : value) : reads_back v.
Proof.
  induction v as [|b|n|s|l IH|d IH] using value_ind;
    intros indent level k fuel Hwf Hfuel Hk;
    (destruct fuel as [|fuel]; [cbn [weight] in Hfuel; lia|]).
  - reflexivity.
  - destruct b; reflexivity.
  - by apply parse_emit_int.
  - cbn [emit]. unfold emit_quoted. cbn [parse_value].
    rewrite skip_ws_stop by done.
    change (Ascii.eqb dq dq) with true. cbv iota.
    by rewrite parse_emit_chars.
  - destruct l as [|x xs]; [reflexivity|].
    rewrite emit_list_cons. rewrite weight_list in Hfuel. cbn [items_weight] in Hfuel.
    apply well_formed_list in Hwf. apply Forall_cons in Hwf as [Hwx Hwf].
    apply Forall_cons in IH as [Hx IH].
    destruct (emit_head indent (S level) x (emit_items indent level k xs))
      as (c & r & Hcr & Hc).
    rewrite (parse_value_list fuel _ c r);
      [|by rewrite skip_ws_break, Hcr; apply skip_ws_stop;
          unfold opens_value in Hc; destruct (is_ws c)|done].
    rewrite (parse_items_skip fuel _ (emit indent (S level) x (emit_items indent level k xs)))
      by (by rewrite skip_ws_break).
    rewrite (parse_emit_items indent level k xs Hk IH Hwf x fuel Hx Hwx); [done|lia].
  - destruct d as [|[key x] ms]; [reflexivity|].
    rewrite emit_dict_cons. rewrite weight_dict in Hfuel.
    cbn [members_weight snd] in Hfuel.
    pose proof Hwf as Hnd. apply well_formed_dict in Hnd as [Hnd Hwfs].
    apply Forall_cons in Hwfs as [Hwx Hwfs]. apply Forall_cons in IH as [Hx IH].
    rewrite (parse_value_dict fuel _ dq
               (emit_chars key (String dq (String ":" (String " "
                  (emit indent (S level) x (emit_members indent level k ms)))))));
      [|by rewrite skip_ws_break|done].
    rewrite (parse_members_skip fuel _
               (emit_quoted key (String ":" (String " "
                  (emit indent (S level) x (emit_members indent level k ms))))))
      by (by rewrite skip_ws_break).
    rewrite (parse_emit_members indent level k ms Hk IH Hwfs key x fuel Hx Hwx);
      [|lia].
    by rewrite dict_of_pairs_nodup.
Qed.

(** *** The text is longer than the fuel its object needs *)

Lemma length_app_str (a b : string) :
  String.length (a +:+ b) = (String.length a + String.length b)%nat.
Proof. induction a as [|c a IH]; [done|]. simpl. by rewrite IH. Qed.

Lemma length_spaces (n : nat) (k : string) :
  (String.length k <= String.length (emit_spaces n k))%nat.
Proof. induction n as [|n IH]; simpl; lia. Qed.

Lemma length_break indent level (k : string) :
  (String.length k <= String.length (emit_break indent level k))%nat.
Proof.
  destruct indent as [n|]; simpl; [|lia].
  pose proof (length_spaces (n * level) k). lia.
Qed.

Lemma length_comma indent level (k : string) :
  (S (String.length k) <= String.length (emit_comma indent level k))%nat.
Proof.
  destruct indent as [n|]; cbn [emit_comma String.length]; [|lia].
  pose proof (length_break (Some n) level k). lia.
Qed.

Lemma length_chars (s k : string) :
  (String.length k <= String.length (emit_chars s k))%nat.
Proof.
  induction s as [|c s IH]; cbn [emit_chars]; [lia|].
  rewrite length_app_str. lia.
Qed.

Lemma length_quoted (s k : string) :
  (2 + String.length k <= String.length (emit_quoted s k))%nat.
Proof.
  unfold emit_quoted. cbn [String.length].
  pose proof (length_chars s (String dq k)) as Hc. cbn [String.length] in Hc. lia.
Qed.

Lemma length_int (n : Z) (k : string) :
  (1 + String.length k <= String.length (emit_int n k))%nat.
Proof.
  unfold emit_int. destruct (to_int_digits n) as (negative & u & -> & Hu).
  destruct negative; cbn [String.length]; rewrite length_app_str; [lia|].
  pose proof (unorm_nonnil u Hu). destruct u; [done | ..]; simpl; lia.
Qed.

Lemma length_items indent level (k : string) (xs : list value) :
  Forall long_enough xs →
  (items_weight xs + S (String.length k)
   <= String.length (emit_items indent level k xs))%nat.
Proof.
  induction 1 as [|y ys Hy _ IH]; cbn [emit_items items_weight].
  - pose proof (length_break indent level (String "]" k)) as Hb.
    cbn [String.length] in Hb. lia.
  - pose proof (length_comma indent (S level)
                  (emit indent (S level) y (emit_items indent level k ys))).
    pose proof (Hy indent (S level) (emit_items indent level k ys)). lia.
Qed.

Lemma length_members indent level (k : string) (ms : list (string * value)) :
  Forall (fun kv => long_enough (snd kv)) ms →
  (members_weight ms + S (String.length k)
   <= String.length (emit_members indent level k ms))%nat.
Proof.
  induction 1 as [|[key y] ms Hy _ IH]; cbn [emit_members members_weight snd] in *.
  - pose proof (length_break indent level (String "}" k)) as Hb.
    cbn [String.length] in Hb. lia.
  - pose proof (length_comma indent (S level)
                  (emit_quoted key (String ":" (String " "
                     (emit indent (S level) y (emit_members indent level k ms)))))).
    pose proof (length_quoted key (String ":" (String " "
                     (emit indent (S level) y (emit_members indent level k ms))))) as Hq.
    cbn [String.length] in Hq.
    pose proof (Hy indent (S level) (emit_members indent level k ms)). lia.
Qed.

Lemma emit_long_enough (v : value) : long_enough v.
Proof.
  induction v as [|b|n|s|l IH|d IH] using value_ind; intros indent level k.
  - cbn [emit weight]. rewrite length_app_str. simpl. lia.
  - destruct b; cbn [emit weight]; rewrite length_app_str; simpl; lia.
  - cbn [emit weight]. pose proof (length_int n k). lia.
  - cbn [emit weight]. pose proof (length_quoted s k). lia.
  - destruct l as [|x xs];
      [cbn [emit weight]; rewrite length_app_str; simpl; lia|].
    rewrite emit_list_cons, weight_list. cbn [items_weight String.length].
    apply Forall_cons in IH as [Hx IH].
    pose proof (length_break indent (S level)
                  (emit indent (S level) x (emit_items indent level k xs))).
    pose proof (Hx indent (S level) (emit_items indent level k xs)).
    pose proof (length_items indent level k xs IH). lia.
  - destruct d as [|[key x] ms];
      [cbn [emit weight]; rewrite length_app_str; simpl; lia|].
    rewrite emit_dict_cons, weight_dict. cbn [members_weight String.length snd].
    apply Forall_cons in IH as [Hx IH]. cbn [snd] in Hx.
    pose proof (length_break indent (S level)
                  (emit_quoted key (String ":" (String " "
                     (emit indent (S level) x (emit_members indent level k ms)))))).
    pose proof (length_quoted key (String ":" (String " "
                     (emit indent (S level) x (emit_members indent level k ms))))) as Hq.
    cbn [String.length] in Hq.
    pose proof (Hx indent (S level) (emit_members indent level k ms)).
    pose proof (length_members indent level k ms IH). lia.
Qed.

(** *** The laws of the interface *)

Theorem loads_dumps (indent : option nat) (v : value) :
  well_formed v → loads (dumps indent v) = Some v.
Proof.
  intros Hwf. unfold loads, dumps.
  rewrite (emit_reads_back v indent 0%nat EmptyString); [done|done| |done].
  pose proof (emit_long_enough v indent 0%nat EmptyString). lia.
Qed.

Lemma dumps_truthy (indent : option nat) (v : value) :
  truthy_str (dumps indent v) = true.
Proof.
  unfold dumps. by destruct (emit_head indent 0 v EmptyString) as (c & r & -> & _).
Qed.

Lemma loads_empty : loads EmptyString = None.
Proof. reflexivity. Qed.

(** The codec as an instance of the interface. *)
Global Instance python_json : Codec := {|
  json_dumps := dumps;
  json_loads := loads;
  json_failure := failure;
  Json.loads_dumps := loads_dumps;
  Json.dumps_truthy := dumps_truthy;
  Json.loads_empty := loads_empty
|}.

End PyJsonFacts.

(** ** The table of saved summaries *)

Module StorageFacts.
Import Storage PyFacts.

Lemma largest_rowid_bound (m : gmap Z Row) (k : Z) (r : Row) :
  m !! k = Some r → k <= largest_rowid m.
Proof.
  unfold largest_rowid. revert k r.
  apply (map_fold_weak_ind
           (fun acc (m : gmap Z Row) => ∀ k r, m !! k = Some r → k <= acc)).
  - intros k r Hk. by rewrite lookup_empty in Hk.
  - intros i x m' acc Hi IH k r Hk.
    destruct (decide (i = k)) as [->|Hne]; [lia|].
    rewrite lookup_insert_ne in Hk by done.
    specialize (IH k r Hk). lia.
Qed.

(** AUTOINCREMENT never hands out the id of a row of the table. *)
Lemma next_rowid_fresh (t : Table) : rows t !! next_rowid t = None.
Proof.
  destruct (rows t !! next_rowid t) as [r|] eqn:Hr; [|done].
  apply largest_rowid_bound in Hr. unfold next_rowid in Hr. lia.
Qed.

Section WithCodec.
Context {codec : Codec}.

Lemma get_summary_absent (db : Database) (summary_id : Z) :
  rows (init_db db) !! summary_id = None →
  get_summary db summary_id
  = (Some (init_db db), if bool_decide (int64 summary_id) then Ok None else Raise overflow).
Proof. intros Hr. unfold get_summary. by rewrite Hr. Qed.

Lemma init_db_idemp (t : Table) : init_db (Some t) = t.
Proof. done. Qed.

Lemma dict_of_row_key_points (summary_id : Z) (r : Row) :
  dict_get "key_points" (dict_of_row summary_id r) = Some (cell (key_points r)).
Proof. reflexivity. Qed.

(** What [dict_from_row] makes of a fetched row. *)
Lemma dict_from_row_cases (summary_id : Z) (r : Row) :
  dict_from_row (dict_of_row summary_id r)
  = match key_points r with
    | Some s =>
        if truthy_str s then
          match json_loads s with
          | Some parsed => Ok (dict_set "key_points" parsed (dict_of_row summary_id r))
          | None =>
              match json_failure s with
              | None => Ok (dict_set "key_points" (VList []) (dict_of_row summary_id r))
              | Some e => Raise e
              end
          end
        else Ok (dict_of_row summary_id r)
    | None => Ok (dict_of_row summary_id r)
    end.
Proof.
  unfold dict_from_row. rewrite dict_of_row_key_points.
  destruct (key_points r) as [s|]; [|done].
  cbn [cell truthy]. by destruct (truthy_str s).
Qed.

(** C7: a record that was saved is returned by get under the id save
    returned, with the filename, summary, key_points, mode, length and
    file_type that were passed to save; the JSON export of that id
    parses back to the same record, field by field. *)
Theorem C7_save_get_export_roundtrip
        (db : Database) (now filename original_text summary : string)
        (key_points : list string) (mode length file_type : string) :
  let saved := save_summary db now filename original_text summary
                            key_points mode length file_type in
  ∃ record : dict,
    get_summary saved.1 saved.2 = (saved.1, Ok (Some record))
    ∧ dict_get "filename" record = Some (VStr filename)
    ∧ dict_get "summary" record = Some (VStr summary)
    ∧ dict_get "key_points" record = Some (VList (VStr <$> key_points))
    ∧ dict_get "mode" record = Some (VStr mode)
    ∧ dict_get "length" record = Some (VStr length)
    ∧ dict_get "file_type" record = Some (VStr file_type)
    ∧ ∃ text : string,
        export_summary saved.1 saved.2 "json" = (saved.1, Ok (Some text))
        ∧ json_loads text = Some (VDict record).
Proof.
  cbn zeta. unfold save_summary, insert_row. cbn [fst snd].
  set (t := init_db db). set (id := next_rowid t).
  set (r := {| Storage.filename := Some filename;
               Storage.original_text := Some original_text;
               Storage.summary := Some summary;
               Storage.key_points := Some (json_dumps None (VList (VStr <$> key_points)));
               Storage.mode := Some mode;
               Storage.length_ := Some length;
               Storage.file_type := Some file_type;
               Storage.created_at := Some now |}).
  set (t' := {| rows := <[id := r]> (rows t); sequence := id |}).
  set (record := dict_set "key_points" (VList (VStr <$> key_points)) (dict_of_row id r)).
  assert (Hget : get_summary (Some t') id = (Some t', Ok (Some record))).
  { unfold get_summary. rewrite init_db_idemp. cbn [rows t'].
    rewrite lookup_insert_eq, dict_from_row_cases. cbn [Storage.key_points r].
    rewrite dumps_truthy, loads_dumps by apply well_formed_strings. done. }
  exists record. split; [exact Hget|]. do 6 (split; [reflexivity|]).
  exists (json_dumps (Some 2%nat) (VDict record)). split.
  - unfold export_summary. rewrite Hget. reflexivity.
  - apply loads_dumps. apply well_formed_dict. split.
    + apply (bool_decide_unpack _). by vm_compute.
    + repeat (apply List.Forall_cons; [exact I|]).
      apply List.Forall_cons; [apply well_formed_strings|].
      repeat (apply List.Forall_cons; [exact I|]). apply List.Forall_nil.
Qed.

(** C8 (amended): delete returns True exactly when a record with that
    id was stored.  For an id that fits the 64 bits of an INTEGER, get
    of that id reports not found after the delete, and delete returns
    False, raising nothing, exactly when the id was not stored.  An
    id outside 64 bits, which no record has, makes delete and get
    raise OverflowError. *)
Theorem C8_delete_then_get (db : Database) (summary_id : Z) :
  let deleted := delete_summary db summary_id in
  (deleted.2 = Ok true ↔ stored db summary_id)
  ∧ (int64 summary_id →
     (get_summary deleted.1 summary_id).2 = Ok None
     ∧ (deleted.2 = Ok false ↔ ¬ stored db summary_id)
     ∧ (deleted.2 = Ok false ↔ (get_summary db summary_id).2 = Ok None))
  ∧ (¬ int64 summary_id → ¬ stored db summary_id →
     deleted.2 = Raise overflow
     ∧ (get_summary db summary_id).2 = Raise overflow
     ∧ (get_summary deleted.1 summary_id).2 = Raise overflow).
Proof.
  cbn zeta. unfold delete_summary, get_summary, stored.
  destruct (rows (init_db db) !! summary_id) as [r|] eqn:Hr; cbn [fst snd init_db rows].
  - rewrite lookup_delete_eq. split; [|split].
    + split; [by eexists | done].
    + intros Hid. rewrite bool_decide_eq_true_2 by done.
      split; [done|]. split.
      * split; [done|]. intros []. by eexists.
      * rewrite dict_from_row_cases. split; [done|].
        destruct (key_points r) as [s|]; [|done].
        destruct (truthy_str s); [|done].
        destruct (json_loads s); [done|]. by destruct (json_failure s).
    + intros _ []. by eexists.
  - rewrite Hr. split; [|split].
    + split; [by destruct (bool_decide _) | by intros [? ?]].
    + intros Hid. rewrite bool_decide_eq_true_2 by done.
      split; [done|]. split; split; done.
    + intros Hid _. by rewrite bool_decide_eq_false_2 by done.
Qed.

(** C10 (amended): on a stored row whose key_points text json.loads
    does not read, get_summary raises nothing when what json.loads
    raises is a JSONDecodeError: the record it returns has key_points
    equal to the empty list when that text is not empty, and keeps the
    empty text when it is empty, json.loads being then not called.
    Another exception of json.loads, as the RecursionError on a text
    nested too deep, is not caught: get_summary raises it. *)
Theorem C10_undecodable_key_points
        (db : Database) (summary_id : Z) (r : Row) (s : string) :
  rows (init_db db) !! summary_id = Some r →
  key_points r = Some s →
  json_loads s = None →
  match (if truthy_str s then json_failure s else None) with
  | None =>
      ∃ record : dict,
        (get_summary db summary_id).2 = Ok (Some record)
        ∧ dict_get "key_points" record
          = Some (if truthy_str s then VList [] else VStr s)
  | Some e => (get_summary db summary_id).2 = Raise e
  end.
Proof.
  intros Hr Hs Hloads. unfold get_summary. cbn [snd].
  rewrite Hr, dict_from_row_cases, Hs, Hloads.
  destruct (truthy_str s).
  - destruct (json_failure s) as [e|]; [done|]. cbn [bind]. by eexists.
  - cbn [bind]. eexists. split; [done|]. by rewrite dict_of_row_key_points, Hs.
Qed.

(** A stored row is returned by [get_summary], unless [json.loads]
    raises on its key_points something else than a decode error. *)
Lemma get_summary_of_row (db : Database) (summary_id : Z) (r : Row) :
  rows (init_db db) !! summary_id = Some r →
  (∃ m d, (get_summary db summary_id).2 = Ok (Some (m :: d)))
  ∨ (∃ s e, key_points r = Some s ∧ truthy_str s = true ∧ json_loads s = None
            ∧ json_failure s = Some e
            ∧ (get_summary db summary_id).2 = Raise e).
Proof.
  intros Hr. unfold get_summary. cbn [snd]. rewrite Hr, dict_from_row_cases.
  destruct (key_points r) as [s|] eqn:Hs; [|left; by eexists _, _].
  destruct (truthy_str s) eqn:Ht; [|left; by eexists _, _].
  destruct (json_loads s) eqn:Hl; [left; by eexists _, _|].
  destruct (json_failure s) as [e|] eqn:Hf; [|left; by eexists _, _].
  right. by exists s, e.
Qed.
End WithCodec.

Import PyJsonFacts Sample.

Lemma C10_undecodable_key_points_witness :
  ∃ record : dict,
    (get_summary (one_row "not json") 1).2 = Ok (Some record)
    ∧ dict_get "key_points" record
      = Some (if truthy_str "not json" then VList [] else VStr "not json").
Proof.
  refine (C10_undecodable_key_points (one_row "not json") 1 (text_row "not json")
                                     "not json" _ _ _).
  - by vm_compute.
  - reflexivity.
  - by vm_compute.
Defined.

(** C8 as stated fails on an id outside 64 bits: no record has it, and
    delete raises instead of returning False. *)
Lemma C8_counterexample :
  ¬ stored (one_row "[]") (2 ^ 63)
  ∧ (delete_summary (one_row "[]") (2 ^ 63)).2 = Raise overflow
  ∧ (delete_summary (one_row "[]") (2 ^ 63)).2 ≠ Ok false.
Proof.
  split; [|split].
  - intros [r Hr]. by vm_compute in Hr.
  - by vm_compute.
  - by vm_compute.
Qed.

(** C10 as stated fails on a row whose key_points is the empty text:
    the text cannot be parsed, and the record keeps it instead of
    the empty list; and it fails on a row whose key_points is two
    thousand opening brackets: the text cannot be parsed, and
    get_summary raises. *)
Lemma C10_counterexample :
  (json_loads EmptyString = None
   ∧ ∃ record : dict,
       (get_summary (one_row EmptyString) 1).2 = Ok (Some record)
       ∧ dict_get "key_points" record = Some (VStr EmptyString)
       ∧ dict_get "key_points" record ≠ Some (VList []))
  ∧ (json_loads (repeat_str "[" 2000) = None
     ∧ (get_summary (one_row (repeat_str "[" 2000)) 1).2 = Raise PyJson.recursion_error).
Proof.
  split.
  - split; [reflexivity|]. eexists. split; [by vm_compute|].
    split; [by vm_compute | by vm_compute].
  - split; by vm_compute.
Qed.

(** A save on a database without table, evaluated. *)
Example save_then_get :
  let saved := save_summary None "2024-01-01 00:00:00" "notes.txt" "Some text."
                            "Some text." ["First."; "Second."] "local" "short" "text" in
  let q := dquote in
  saved.2 = 1
  ∧ rows (init_db saved.1) !! 1
    = Some (text_row ("[" +:+ q +:+ "First." +:+ q +:+ ", " +:+ q +:+ "Second." +:+ q +:+ "]"))
  ∧ (get_summary saved.1 1).2
    = Ok (Some [("id", VInt 1); ("filename", VStr "notes.txt");
                ("original_text", VStr "Some text."); ("summary", VStr "Some text.");
                ("key_points", VList [VStr "First."; VStr "Second."]);
                ("mode", VStr "local"); ("length", VStr "short");
                ("file_type", VStr "text");
                ("created_at", VStr "2024-01-01 00:00:00")])
  ∧ (delete_summary saved.1 1).2 = Ok true
  ∧ (delete_summary saved.1 2).2 = Ok false
  ∧ (save_summary (delete_summary saved.1 1).1 "2024-01-02 00:00:00" "b.txt" "T." "T."
                  [] "local" "long" "text").2 = 2.
Proof. cbn zeta. repeat split; by vm_compute. Qed.

(** The two export formats on that record. *)
Example export_formats :
  let saved := save_summary None "2024-01-01 00:00:00" "notes.txt" "Some text."
                            "Some text." ["First."; "Second."] "local" "short" "text" in
  (export_summary saved.1 1 "txt").2
  = Ok (Some (join nl ["Document: notes.txt"; "Date: 2024-01-01 00:00:00";
                       "Mode: local | Length: short"; ""; rule; "SUMMARY"; rule;
                       "Some text."; ""; rule; "KEY POINTS"; rule;
                       "1. First."; "2. Second."]))
  ∧ (export_summary saved.1 7 "json").2 = Ok None
  ∧ match (export_summary saved.1 1 "json").2 with
    | Ok (Some text) =>
        slice_to 12 text = "{" +:+ nl +:+ "  " +:+ dquote +:+ "id" +:+ dquote +:+ ": 1,"
        ∧ Ok (json_loads text) = (fun r => match r with
                                           | Ok (Some d) => Ok (Some (VDict d))
                                           | Ok None => Ok None
                                           | Raise e => Raise e
                                           end) (get_summary saved.1 1).2
    | _ => False
    end.
Proof. cbn zeta. repeat split; by vm_compute. Qed.

End StorageFacts.

(** ** The entry points *)

Module EntryFacts.
Import Engine Summarizers Storage Entry.

Lemma lstrip_all_space (s : string) : all_space s = true → lstrip s = EmptyString.
Proof.
  induction s as [|c s IH]; [done|]. simpl.
  destruct (isspace c); [exact IH | done].
Qed.

Lemma strip_all_space (s : string) : all_space s = true → strip s = EmptyString.
Proof. intros Hs. unfold strip. by rewrite lstrip_all_space. Qed.

(** Conversely the check of the entry points lets nothing else through. *)
Lemma rstrip_empty (s : string) : rstrip s = EmptyString → all_space s = true.
Proof.
  induction s as [|c s IH]; [done|]. simpl.
  destruct (rstrip s) eqn:Hr; [|done].
  destruct (isspace c); [intros _; by apply IH | done].
Qed.

Lemma lstrip_all_space_inv (s : string) :
  all_space (lstrip s) = true → all_space s = true.
Proof.
  induction s as [|c s IH]; [done|]. simpl.
  destruct (isspace c) eqn:Hc; [exact IH|]. simpl. by rewrite Hc.
Qed.

Lemma strip_empty_iff (s : string) : strip s = EmptyString ↔ all_space s = true.
Proof.
  split; [|apply strip_all_space].
  intros Hs. by apply lstrip_all_space_inv, rstrip_empty.
Qed.

Section EntryPoints.
Context {locale : Locale} {numerics : Numerics} {gemini : Gemini}
        {codec : Codec} {surroundings : Surroundings}.

(** Reading the request never calls a summarizer. *)
Lemma read_input_no_summarizer (req : Request) :
  Forall (fun e => summarizer_event e = false) (read_input req).2.
Proof.
  unfold read_input. destruct (is_json req); [constructor|].
  destruct (files req !! "file") as [file|].
  - destruct (truthy_str (upload_filename file)); repeat constructor.
  - destruct (form req !! "text"); constructor.
Qed.

(** C5: a text that is empty or whitespace only is rejected by both
    entry points before a summarizer is created: the HTTP handler
    answers 400 with the error "No text provided", the command prints
    its error and exits with status 1; in both cases no call to
    summarize or extract_key_points is made and the database is left
    as it was. *)
Theorem C5_blank_input_rejected (s : string) :
  all_space s = true →
  (∀ (db : Database) (req : Request) (filename : value)
     (file_type : string) (parsed : list event),
      read_input req = (Ok (VStr s, filename, file_type), parsed) →
      api_summarize db req = (db, error_response 400 "No text provided", parsed)
      ∧ Forall (fun e => summarizer_event e = false) parsed)
  ∧ (∀ (db : Database) (file_path mode length file_type : string)
       (key : option string) (save : bool) (output : option string),
        detect_and_parse file_path = Ok (s, file_type) →
        let run := cli_summarize db file_path mode length key save output in
        exit_code run = 1
        ∧ stderr run = ["❌ No text content found in file"]
        ∧ database run = db
        ∧ written run = None
        ∧ calls run = [Parsed file_path]
        ∧ Forall (fun e => summarizer_event e = false) (calls run)).
Proof.
  intros Hs. split.
  - intros db req filename file_type parsed Hin.
    pose proof (read_input_no_summarizer req) as Hno. rewrite Hin in Hno.
    split; [|exact Hno].
    unfold api_summarize. rewrite Hin. unfold no_text. cbn [truthy].
    destruct (truthy_str s); cbn [negb]; [|done].
    by rewrite (strip_all_space s Hs).
  - intros db file_path mode length file_type key save output Hparse.
    cbn zeta. unfold cli_summarize. rewrite Hparse.
    rewrite (strip_all_space s Hs). cbn.
    repeat split. by repeat constructor.
Qed.

(** A request that carries no text at all is answered the same way. *)
Lemma absent_text_rejected (db : Database) (req : Request)
      (filename : value) (file_type : string) (parsed : list event) :
  read_input req = (Ok (VNone, filename, file_type), parsed) →
  api_summarize db req = (db, error_response 400 "No text provided", parsed).
Proof. intros Hin. unfold api_summarize. by rewrite Hin. Qed.

Lemma not_all_space_truthy (s : string) :
  all_space s = false → truthy_str s = true ∧ truthy_str (strip s) = true.
Proof.
  intros Hs. split; [by destruct s|].
  destruct (strip s) eqn:Hstrip; [|done].
  apply strip_empty_iff in Hstrip. congruence.
Qed.

(** With the online mode and no key in the query, a request with a text
    is answered 400 with the message of the missing key; the local
    strategy is not consulted and nothing is saved. *)
Lemma api_online_without_key (db : Database) (req : Request) (s : string)
      (filename : value) (file_type : string) (parsed : list event) :
  read_input req = (Ok (VStr s, filename, file_type), parsed) →
  all_space s = false →
  args req !! "mode" = Some "online" →
  no_credential (args req !! "api_key") →
  api_summarize db req
  = (db, error_response 400 missing_key_message,
     parsed ++ [Summarized "online" s (default "medium" (args req !! "length"))]).
Proof.
  intros Hin Hs Hmode Hkey. unfold api_summarize. rewrite Hin, Hmode.
  destruct (not_all_space_truthy s Hs) as [Ht Hstrip].
  unfold no_text. cbn [truthy default]. rewrite Ht, Hstrip. cbn [negb].
  destruct Hkey as [-> | ->]; reflexivity.
Qed.

(** The command refuses the online mode without a key before it creates
    a summarizer. *)
Lemma cli_online_without_key (db : Database) (file_path length text file_type : string)
      (key : option string) (save : bool) (output : option string) :
  detect_and_parse file_path = Ok (text, file_type) →
  all_space text = false →
  no_credential key →
  let run := cli_summarize db file_path "online" length key save output in
  exit_code run = 1
  ∧ stderr run
    = ["❌ API key required for online mode. Use --api-key or set GEMINI_API_KEY"]
  ∧ database run = db
  ∧ calls run = [Parsed file_path].
Proof.
  intros Hparse Hs Hkey. cbn zeta. unfold cli_summarize. rewrite Hparse.
  rewrite (proj2 (not_all_space_truthy text Hs)). cbn [negb].
  by destruct Hkey as [-> | ->].
Qed.
End EntryPoints.

Import Sample PyJsonFacts.

Lemma C5_blank_input_rejected_witness :
  (api_summarize (gemini := canned "") None (json_request ∅ blank_text)
   = (None, error_response 400 "No text provided", [])
   ∧ Forall (fun e => summarizer_event e = false) [])
  ∧ (let run := cli_summarize (gemini := canned "") None "empty.txt" "local" "short"
                              None true None in
     exit_code run = 1
     ∧ stderr run = ["❌ No text content found in file"]
     ∧ database run = None
     ∧ written run = None
     ∧ calls run = [Parsed "empty.txt"]
     ∧ Forall (fun e => summarizer_event e = false) (calls run)).
Proof.
  split.
  - apply (proj1 (C5_blank_input_rejected (gemini := canned "") blank_text eq_refl)
             None (json_request ∅ blank_text) (VStr "pasted_text") "text" []).
    reflexivity.
  - apply (proj2 (C5_blank_input_rejected (gemini := canned "") EmptyString eq_refl)
             None "empty.txt" "local" "short" "text" None true None).
    reflexivity.
Defined.

(** The handler on a text, with and without a credential. *)
Example post_local_saved :
  let '(db, response, trace) :=
    api_summarize (gemini := canned "") None
      (json_request {[ "length" := "short"; "save" := "TRUE" ]} ten_sentences) in
  status response = 200
  ∧ dict_get "summary" (match body response with VDict d => d | _ => [] end)
    = Some (VStr "Cats chase mice. Dogs chase cats. Birds sing songs.")
  ∧ dict_get "saved_id" (match body response with VDict d => d | _ => [] end)
    = Some (VInt 1)
  ∧ trace = [Summarized "local" ten_sentences "short";
             KeyPointsExtracted "local" ten_sentences; Saved 1]
  ∧ stored db 1.
Proof. vm_compute. repeat split; by eexists. Qed.

Example post_online_without_key :
  api_summarize (gemini := canned "") None
    (json_request {[ "mode" := "online" ]} ten_sentences)
  = (None, error_response 400 missing_key_message,
     [Summarized "online" ten_sentences "medium"]).
Proof. by vm_compute. Qed.

Example command_online_without_key :
  let run := cli_summarize (gemini := canned "") None "notes/ten.txt" "online" "short"
                           None false None in
  exit_code run = 1 ∧ calls run = [Parsed "notes/ten.txt"].
Proof. by vm_compute. Qed.

End EntryFacts.

(** ** More on the table of saved summaries *)

Module StorageLaws.
Import Storage PyFacts StorageFacts.

Lemma next_rowid_above_sequence (t : Table) : sequence t < next_rowid t.
Proof. unfold next_rowid. lia. Qed.

Lemma largest_rowid_nonneg (m : gmap Z Row) : 0 <= largest_rowid m.
Proof.
  unfold largest_rowid.
  apply (map_fold_weak_ind (fun acc (_ : gmap Z Row) => 0 <= acc)); [lia|].
  intros i x m' acc _ IH. lia.
Qed.

Lemma largest_rowid_le (m : gmap Z Row) (n : Z) :
  0 <= n → (∀ k r, m !! k = Some r → k <= n) → largest_rowid m <= n.
Proof.
  intros Hn. unfold largest_rowid.
  apply (map_fold_weak_ind
           (fun acc (m : gmap Z Row) => (∀ k r, m !! k = Some r → k <= n) → acc <= n));
    [lia|].
  intros i x m' acc Hi IH Hall.
  assert (i <= n) by (apply (Hall i x); by rewrite lookup_insert_eq).
  assert (acc <= n); [|lia].
  apply IH. intros k r Hk. apply (Hall k r).
  rewrite lookup_insert_ne; [done|]. intros ->. congruence.
Qed.

Lemma next_rowid_positive (t : Table) : 1 <= next_rowid t.
Proof. unfold next_rowid. pose proof (largest_rowid_nonneg (rows t)). lia. Qed.

Lemma delete_summary_sequence (db : Database) (summary_id : Z) :
  sequence (init_db (delete_summary db summary_id).1) = sequence (init_db db).
Proof. unfold delete_summary. by destruct (rows (init_db db) !! summary_id). Qed.

Lemma delete_summary_rows (db : Database) (summary_id : Z) :
  rows (init_db (delete_summary db summary_id).1) = delete summary_id (rows (init_db db)).
Proof.
  unfold delete_summary. destruct (rows (init_db db) !! summary_id) eqn:Hr; [done|].
  cbn [fst init_db]. by rewrite delete_id.
Qed.

Lemma delete_all_sequence (db : Database) (ids : list Z) :
  sequence (init_db (delete_all db ids)) = sequence (init_db db).
Proof.
  revert db. induction ids as [|id ids IH]; intros db; [done|].
  cbn [delete_all fold_left]. fold (delete_all (delete_summary db id).1 ids).
  by rewrite IH, delete_summary_sequence.
Qed.

Section WithCodec.
Context {codec : Codec}.
Variables (now filename original_text summary : string) (key_points : list string)
          (mode length file_type : string).

Let save (db : Database) : Database * Z :=
  save_summary db now filename original_text summary key_points mode length file_type.

(** A save returns a positive id that no stored record has, and a later
    save returns a larger id, also when records, the first one among
    them, were deleted in between: ids are not reused. *)
Theorem saved_ids_are_fresh_and_increase (db : Database) (ids : list Z) :
  1 <= (save db).2
  ∧ ¬ stored db (save db).2
  ∧ stored (save db).1 (save db).2
  ∧ (save db).2 < (save (delete_all (save db).1 ids)).2.
Proof.
  unfold save, save_summary, insert_row, stored. cbn [fst snd].
  split; [apply next_rowid_positive|]. split; [|split].
  - rewrite next_rowid_fresh. by intros [r Hr].
  - cbn [init_db rows]. rewrite lookup_insert_eq. by eexists.
  - match goal with
    | |- _ < next_rowid (init_db (delete_all ?d ids)) =>
        pose proof (next_rowid_above_sequence (init_db (delete_all d ids))) as Hlt;
        rewrite (delete_all_sequence d ids) in Hlt
    end.
    exact Hlt.
Qed.

(** A save leaves the records that were stored as they were: get returns
    for them what it returned before. *)
Theorem save_keeps_stored_records (db : Database) (summary_id : Z) :
  stored db summary_id →
  summary_id ≠ (save db).2
  ∧ (get_summary (save db).1 summary_id).2 = (get_summary db summary_id).2.
Proof.
  intros [r Hr].
  assert (Hne : summary_id ≠ (save db).2).
  { intros ->. unfold save, save_summary, insert_row in Hr. cbn [snd] in Hr.
    by rewrite next_rowid_fresh in Hr. }
  split; [exact Hne|].
  unfold save, save_summary, insert_row, get_summary in *. cbn [fst snd init_db rows] in *.
  by rewrite lookup_insert_ne.
Qed.


(** *** The invariant of the id counter *)

Lemma consistent_empty : consistent None.
Proof. split; [done|]. intros k [r Hr]. cbn in Hr. by rewrite lookup_empty in Hr. Qed.

Lemma consistent_save (db : Database) : consistent db → consistent (save db).1.
Proof.
  intros [Hn Hc]. unfold consistent, stored, save, save_summary, insert_row in *.
  cbn [fst init_db rows sequence] in *.
  pose proof (next_rowid_above_sequence (init_db db)).
  split; [lia|]. intros k [r Hr].
  destruct (decide (next_rowid (init_db db) = k)) as [<-|Hne]; [lia|].
  rewrite lookup_insert_ne in Hr by done.
  pose proof (Hc k (ex_intro _ r Hr)). lia.
Qed.

Lemma consistent_delete (db : Database) (summary_id : Z) :
  consistent db → consistent (delete_summary db summary_id).1.
Proof.
  intros [Hn Hc]. split; [by rewrite delete_summary_sequence|]. intros k [r Hr].
  rewrite delete_summary_rows in Hr. rewrite delete_summary_sequence.
  apply lookup_delete_Some in Hr as [_ Hr]. apply Hc. by exists r.
Qed.

Lemma consistent_next (db : Database) :
  consistent db → next_rowid (init_db db) = sequence (init_db db) + 1.
Proof.
  intros [Hn Hc]. unfold next_rowid.
  assert (largest_rowid (rows (init_db db)) <= sequence (init_db db)); [|lia].
  apply largest_rowid_le; [done|]. intros k r Hr. apply Hc. by exists r.
Qed.
End WithCodec.

Section History.
Context {codec : Codec}.

Lemma consistent_history (db : Database) (history : list operation) :
  consistent db → consistent (fold_left apply_operation history db).
Proof.
  revert db. induction history as [|op history IH]; intros db Hc; [done|].
  cbn [fold_left]. apply IH.
  destruct op; [by apply consistent_save | by apply consistent_delete].
Qed.

(** In a database built from nothing by saves and deletes no id is above
    the counter, and the ids are handed out consecutively: a save
    returns one more than the id of the save before it, whatever was
    deleted in between, and 1 when it is the first. *)
Theorem ids_are_consecutive
        (history : list operation) (ids : list Z)
        (now filename original_text summary : string) (key_points : list string)
        (mode length file_type : string) :
  let save db :=
    save_summary db now filename original_text summary key_points mode length file_type in
  let db := built history in
  consistent db
  ∧ (save None).2 = 1
  ∧ (save (delete_all (save db).1 ids)).2 = (save db).2 + 1.
Proof.
  cbn zeta. split; [apply consistent_history, consistent_empty|].
  split; [by vm_compute|].
  set (saved := save_summary (built history) now filename original_text summary
                             key_points mode length file_type).
  assert (Hc : consistent (delete_all saved.1 ids)).
  { unfold delete_all.
    assert (Hs : consistent saved.1)
      by apply consistent_save, consistent_history, consistent_empty.
    revert Hs. generalize saved.1. induction ids as [|id l IH]; intros d Hd; [done|].
    cbn [fold_left]. apply IH. by apply consistent_delete. }
  unfold save_summary at 1. unfold insert_row. cbn [snd].
  rewrite (consistent_next _ Hc), delete_all_sequence. done.
Qed.
End History.

(** *** Export *)

Section Exports.
Context {codec : Codec}.

(** An export returns [None] exactly for the ids that are not stored
    and fit 64 bits, in whatever format is asked for; for an id
    outside 64 bits, which no record has, it raises OverflowError;
    and it leaves the table as it is. *)
Theorem export_none_iff_absent (db : Database) (summary_id : Z) (format : string) :
  ((export_summary db summary_id format).2 = Ok None
   ↔ ¬ stored db summary_id ∧ int64 summary_id)
  ∧ (¬ stored db summary_id → ¬ int64 summary_id →
     (export_summary db summary_id format).2 = Raise overflow)
  ∧ (export_summary db summary_id format).1 = Some (init_db db).
Proof.
  unfold export_summary, stored.
  destruct (rows (init_db db) !! summary_id) as [r|] eqn:Hr.
  - destruct (get_summary_of_row db summary_id r Hr)
      as [(m & d & Hget) | (s & e & _ & _ & _ & _ & Hget)].
    + unfold get_summary in *. cbn [fst snd] in *. rewrite Hget. cbn [bind].
      split; [|split; [|done]].
      * split; [|intros [[] _]; by eexists].
        destruct (String.eqb format "json"); [done|].
        by destruct (export_text (m :: d)).
      * intros []. by eexists.
    + unfold get_summary in *. cbn [fst snd] in *. rewrite Hget. cbn [bind].
      split; [|split; [|done]].
      * split; [done|]. intros [[] _]. by eexists.
      * intros []. by eexists.
  - rewrite get_summary_absent by done. cbn [fst snd].
    destruct (bool_decide (int64 summary_id)) eqn:Hid; cbn [bind].
    + apply bool_decide_eq_true in Hid. split; [|split; [|done]].
      * split; [|done]. intros _. split; [by intros [? ?] | done].
      * by intros _ [].
    + apply bool_decide_eq_false in Hid. split; [|split; [|done]].
      * split; [done|]. by intros [_ ?].
      * done.
Qed.

Lemma export_text_record
      (id : Z) (filename original_text summary : string) (points : list string)
      (mode length file_type created : string) :
  export_text [("id", VInt id); ("filename", VStr filename);
               ("original_text", VStr original_text); ("summary", VStr summary);
               ("key_points", VList (VStr <$> points)); ("mode", VStr mode);
               ("length", VStr length); ("file_type", VStr file_type);
               ("created_at", VStr created)]
  = Ok (join nl ((fun l => match l with VStr s => s | _ => EmptyString end) <$>
                 ([VStr ("Document: " +:+ filename);
                   VStr ("Date: " +:+ created);
                   VStr ("Mode: " +:+ mode +:+ " | Length: " +:+ length);
                   VStr ""; VStr rule; VStr "SUMMARY"; VStr rule;
                   VStr summary;
                   VStr ""; VStr rule; VStr "KEY POINTS"; VStr rule]
                  ++ imap (fun i point => VStr (pretty (S i) +:+ ". " +:+ py_str point))
                          (VStr <$> points)))).
Proof. reflexivity. Qed.

Lemma get_saved (db : Database) (now filename original_text summary : string)
      (key_points : list string) (mode length file_type : string) :
  let saved := save_summary db now filename original_text summary
                            key_points mode length file_type in
  get_summary saved.1 saved.2
  = (saved.1, Ok (Some (record_of saved.2 now filename original_text summary
                                  key_points mode length file_type))).
Proof.
  cbn zeta. unfold save_summary, insert_row. cbn [fst snd].
  unfold get_summary. rewrite init_db_idemp. cbn [rows].
  rewrite lookup_insert_eq, dict_from_row_cases. cbn [Storage.key_points].
  rewrite dumps_truthy, loads_dumps by apply well_formed_strings. done.
Qed.

Lemma text_layout_truthy (now filename summary : string) (key_points : list string)
      (mode length : string) :
  truthy_str (text_layout now filename summary key_points mode length) = true.
Proof. done. Qed.

Lemma export_saved_text
      (db : Database) (now filename original_text summary : string)
      (key_points : list string) (mode length file_type format : string) :
  format ≠ "json" →
  let saved := save_summary db now filename original_text summary
                            key_points mode length file_type in
  export_summary saved.1 saved.2 format
  = (saved.1, Ok (Some (text_layout now filename summary key_points mode length))).
Proof.
  intros Hfmt. cbn zeta. unfold export_summary. rewrite get_saved.
  apply String.eqb_neq in Hfmt. unfold record_of. cbn [bind].
  rewrite Hfmt, export_text_record. cbn [bind]. do 3 f_equal.
  rewrite fmap_app, fmap_imap, imap_fmap. cbn [fmap list_fmap]. unfold text_layout.
  do 13 f_equal.
Qed.

(** The text export of a record that was saved, in whatever format
    other than json is asked for: three header lines, the summary and
    the key points, numbered from 1, between rules of fifty signs. *)
Theorem export_text_of_saved
        (db : Database) (now filename original_text summary : string)
        (key_points : list string) (mode length file_type format : string) :
  format ≠ "json" →
  let saved := save_summary db now filename original_text summary
                            key_points mode length file_type in
  export_summary saved.1 saved.2 format
  = (saved.1,
     Ok (Some (join nl (["Document: " +:+ filename;
                         "Date: " +:+ now;
                         "Mode: " +:+ mode +:+ " | Length: " +:+ length;
                         ""; rule; "SUMMARY"; rule; summary;
                         ""; rule; "KEY POINTS"; rule]
                        ++ imap (fun i point => pretty (S i) +:+ ". " +:+ point)
                                key_points)))).
Proof. apply export_saved_text. Qed.

(** A record whose key_points column is NULL is returned by get and
    exported as JSON, but its text export raises the [TypeError] of
    iterating over [None]. *)
Theorem export_text_without_key_points
        (db : Database) (summary_id : Z) (r : Row) (format : string) :
  rows (init_db db) !! summary_id = Some r →
  key_points r = None →
  format ≠ "json" →
  (get_summary db summary_id).2 = Ok (Some (dict_of_row summary_id r))
  ∧ (export_summary db summary_id "json").2
    = Ok (Some (json_dumps (Some 2%nat) (VDict (dict_of_row summary_id r))))
  ∧ (export_summary db summary_id format).2
    = Raise (TypeError "'NoneType' object is not iterable").
Proof.
  intros Hr Hk Hfmt. apply String.eqb_neq in Hfmt.
  unfold export_summary, get_summary. cbn [fst snd]. rewrite Hr.
  rewrite dict_from_row_cases, Hk. cbn [bind].
  split; [done|]. split; [done|].
  unfold dict_of_row at 1. rewrite Hfmt.
  unfold export_text, dict_of_row. rewrite Hk. reflexivity.
Qed.
End Exports.

Lemma save_keeps_stored_records_witness :
  let saved := save_summary Cases.bare_table "2024-01-02 00:00:00" "b.txt" "T." "T."
                            ["P."] "local" "long" "text" in
  4 ≠ saved.2
  ∧ (get_summary saved.1 4).2 = (get_summary Cases.bare_table 4).2.
Proof.
  apply (save_keeps_stored_records "2024-01-02 00:00:00" "b.txt" "T." "T."
                                   ["P."] "local" "long" "text" Cases.bare_table 4).
  exists Cases.bare_row. by vm_compute.
Defined.


Lemma export_text_of_saved_witness :
  let saved := save_summary None "2024-01-02 00:00:00" "b.txt" "T. U." "T."
                            ["P."; "Q."] "local" "long" "text" in
  export_summary saved.1 saved.2 "pdf"
  = (saved.1,
     Ok (Some (join nl (["Document: b.txt"; "Date: 2024-01-02 00:00:00";
                         "Mode: local | Length: long";
                         ""; rule; "SUMMARY"; rule; "T.";
                         ""; rule; "KEY POINTS"; rule]
                        ++ imap (fun i point => pretty (S i) +:+ ". " +:+ point)
                                ["P."; "Q."])))).
Proof.
  apply (export_text_of_saved None "2024-01-02 00:00:00" "b.txt" "T. U." "T."
                              ["P."; "Q."] "local" "long" "text" "pdf").
  discriminate.
Defined.

Lemma export_text_without_key_points_witness :
  (get_summary Cases.bare_table 4).2 = Ok (Some (dict_of_row 4 Cases.bare_row))
  ∧ (export_summary Cases.bare_table 4 "json").2
    = Ok (Some (json_dumps (Some 2%nat) (VDict (dict_of_row 4 Cases.bare_row))))
  ∧ (export_summary Cases.bare_table 4 "txt").2
    = Raise (TypeError "'NoneType' object is not iterable").
Proof.
  apply (export_text_without_key_points Cases.bare_table 4 Cases.bare_row "txt").
  - by vm_compute.
  - reflexivity.
  - discriminate.
Defined.

(** *** Listing *)

Module ListingLaws.

Global Instance cell_le_trans : Transitive cell_le.
Proof.
  intros [x|] [y|] [z|]; unfold cell_le; try done. apply (transitivity (R := String.le)).
Qed.

Global Instance cell_le_total : Total cell_le.
Proof.
  intros [x|] [y|]; unfold cell_le; auto. apply (total String.le).
Qed.

Global Instance newest_first_trans : Transitive newest_first.
Proof. intros a b c Hab Hbc. unfold newest_first in *. by etrans. Qed.

Global Instance newest_first_total : Total newest_first.
Proof. intros a b. unfold newest_first. apply (total cell_le). Qed.

Lemma slice_to_length (n : nat) (s : string) :
  String.length (slice_to n s) = (n `min` String.length s)%nat.
Proof.
  revert s. induction n as [|n IH]; intros [|c s]; cbn; [done..|]. by rewrite IH.
Qed.

Lemma slice_to_prefix (n : nat) (s : string) : ∃ rest : string, s = slice_to n s +:+ rest.
Proof.
  revert s. induction n as [|n IH]; intros [|c s]; cbn; [by eexists..|].
  destruct (IH s) as [rest Hrest]. exists rest.
  change (String c s = String c (slice_to n s +:+ rest)). by f_equal.
Qed.

End ListingLaws.

Section Listing.
Import ListingLaws.

Lemma select_listing_split (t : Table) (limit : Z) :
  ∃ rest : list (Z * Row),
    select_listing t limit ++ rest = merge_sort newest_first (map_to_list (rows t))
    ∧ (rest = [] ∨ (0 <= limit ∧ length (select_listing t limit) = Z.to_nat limit)).
Proof.
  unfold select_listing. set (ordered := merge_sort _ _).
  destruct (limit <? 0) eqn:Hl.
  - exists []. split; [by rewrite app_nil_r | by left].
  - exists (drop (Z.to_nat limit) ordered). split; [apply take_drop|].
    apply Z.ltb_ge in Hl.
    destruct (decide (Z.to_nat limit <= length ordered)%nat) as [Hle|Hgt].
    + right. split; [done|]. rewrite length_take. lia.
    + left. apply drop_ge. lia.
Qed.

Lemma select_listing_length (t : Table) (limit : Z) :
  length (select_listing t limit)
  = (if limit <? 0 then size (rows t) else (Z.to_nat limit `min` size (rows t))%nat).
Proof.
  assert (Hlen : length (merge_sort newest_first (map_to_list (rows t))) = size (rows t)).
  { by rewrite (Permutation_length (merge_sort_Permutation newest_first _)),
               length_map_to_list. }
  unfold select_listing. destruct (limit <? 0); [done|].
  by rewrite length_take, Hlen.
Qed.

Lemma select_listing_stored (t : Table) (limit : Z) (id : Z) (r : Row) :
  (id, r) ∈ select_listing t limit → rows t !! id = Some r.
Proof.
  destruct (select_listing_split t limit) as (rest & Hsplit & _).
  intros Hin. apply elem_of_map_to_list.
  rewrite <-(merge_sort_Permutation newest_first), <-Hsplit.
  apply elem_of_app. by left.
Qed.

(** The listing holds records of the table, each id once, ordered by
    created_at with the newest first and NULL last; a limit that is not
    negative cuts it to that many records and a negative one does not
    cut it; the records cut off are not newer than the ones listed.
    A limit outside 64 bits raises OverflowError.  The listing leaves
    the table as it is. *)
Theorem list_summaries_newest_first (db : Database) (limit : Z) :
  (list_summaries db limit).1 = Some (init_db db)
  ∧ (¬ int64 limit → (list_summaries db limit).2 = Raise overflow)
  ∧ (int64 limit →
     ∃ chosen : list (Z * Row),
       (list_summaries db limit).2 = Ok (listing_of_row <$> chosen)
       ∧ StronglySorted newest_first chosen
       ∧ NoDup chosen.*1
       ∧ (∀ id r, (id, r) ∈ chosen → rows (init_db db) !! id = Some r)
       ∧ Datatypes.length chosen
         = (if limit <? 0 then size (rows (init_db db))
            else (Z.to_nat limit `min` size (rows (init_db db)))%nat)
       ∧ (∀ id r, rows (init_db db) !! id = Some r → (id, r) ∉ chosen →
          ∀ e, e ∈ chosen → newest_first e (id, r))).
Proof.
  unfold list_summaries. cbn [fst snd]. split; [done|]. split.
  { intros Hlimit. by rewrite bool_decide_eq_false_2. }
  intros Hlimit. rewrite bool_decide_eq_true_2 by done.
  set (t := init_db db). exists (select_listing t limit).
  destruct (select_listing_split t limit) as (rest & Hsplit & Hrest).
  pose proof (merge_sort_Permutation newest_first (map_to_list (rows t))) as Hperm.
  pose proof (StronglySorted_merge_sort newest_first (map_to_list (rows t))) as Hsorted.
  rewrite <-Hsplit in Hperm, Hsorted.
  split; [done|]. split; [by eapply StronglySorted_app_1_l|].
  split; [|split; [|split]].
  - pose proof (NoDup_fst_map_to_list (rows t)) as Hnd.
    rewrite <-Hperm, fmap_app in Hnd. by apply NoDup_app in Hnd as [? _].
  - apply select_listing_stored.
  - apply select_listing_length.
  - intros id r Hr Hout e He.
    apply elem_of_map_to_list in Hr. rewrite <-Hperm in Hr.
    apply elem_of_app in Hr as [Hr|Hr]; [done|].
    by eapply StronglySorted_app_1_elem_of.
Qed.
End Listing.

Section ListingEntries.
Context {codec : Codec}.
Import ListingLaws.

Lemma dict_set_keeps (key : string) (v : value) (summary_id : Z) (r : Row) :
  key ≠ "key_points" →
  dict_get key (dict_set "key_points" v (dict_of_row summary_id r))
  = dict_get key (dict_of_row summary_id r).
Proof.
  intros Hkey. unfold dict_of_row.
  cbn [dict_set String.eqb Ascii.eqb Bool.eqb]. cbn [dict_get].
  destruct (String.eqb key "key_points") eqn:Heq; [by apply String.eqb_eq in Heq|].
  rewrite (String.eqb_sym "key_points" key), Heq. done.
Qed.

Lemma dict_from_row_keeps (summary_id : Z) (r : Row) (key : string) (record : dict) :
  key ≠ "key_points" →
  dict_from_row (dict_of_row summary_id r) = Ok record →
  dict_get key record = dict_get key (dict_of_row summary_id r).
Proof.
  intros Hkey. rewrite dict_from_row_cases.
  destruct (key_points r) as [s|]; [|by intros [= <-]].
  destruct (truthy_str s); [|by intros [= <-]].
  destruct (json_loads s); [intros [= <-]; by apply dict_set_keeps|].
  destruct (json_failure s); [done|]. intros [= <-]. by apply dict_set_keeps.
Qed.

(** What [substr] keeps of a text: a part at its start, of at most [n]
    characters and without NUL, that ends where the text ends, at the
    first NUL, or after [n] characters. *)
Lemma substr_start (n : nat) (s : string) :
  ∃ rest : string,
    s = substr n s +:+ rest
    ∧ (String.length (substr n s) <= n)%nat
    ∧ contains "000" (substr n s) = false
    ∧ (String.length (substr n s) = n ∨ rest = EmptyString
       ∨ ∃ rest', rest = String "000" rest').
Proof.
  unfold substr. revert n. induction s as [|c s IH]; intros n.
  { exists EmptyString. destruct n; cbn; repeat split; auto with lia. }
  cbn [until_nul]. destruct (Ascii.eqb c "000") eqn:Hc.
  { apply Ascii.eqb_eq in Hc as ->. exists (String "000" s).
    destruct n; cbn; repeat split; eauto with lia. }
  destruct n as [|n].
  { exists (String c s). cbn. repeat split; auto with lia. }
  destruct (IH n) as (rest & Hrest & Hlen & Hnul & Hend). exists rest.
  cbn [slice_to String.length contains]. rewrite Ascii.eqb_sym, Hc, Hnul.
  split; [change (String c s = String c (slice_to n (until_nul s) +:+ rest)); by f_equal|].
  split; [lia|]. split; [done|].
  destruct Hend as [Hend|[Hend|Hend]]; auto with lia.
Qed.

Lemma substr_plain (n : nat) (s : string) :
  contains "000" s = false → substr n s = slice_to n s.
Proof.
  unfold substr. intros Hs. f_equal. induction s as [|c s IH]; [done|].
  cbn [contains] in Hs. apply orb_false_iff in Hs as [Hc Hs].
  cbn [until_nul]. rewrite Ascii.eqb_sym, Hc. by rewrite IH.
Qed.

(** Every entry of the listing describes a record of the table: it has
    the seven keys of the SELECT, without the original text and the key
    points; get returns for its id a record with the same filename,
    mode, length, file_type and created_at, unless json.loads raises on
    its key points another exception than a decode error; and its
    preview is the start of the summary of that record, up to 200
    characters and up to its first NUL character, or NULL where the
    summary is.  A limit outside 64 bits raises OverflowError. *)
Theorem listing_entries_are_previews (db : Database) (limit : Z) :
  match (list_summaries db limit).2 with
  | Raise e => ¬ int64 limit ∧ e = overflow
  | Ok entries =>
      int64 limit
      ∧ Forall (fun d : dict =>
          d.*1 = ["id"; "filename"; "mode"; "length"; "file_type"; "created_at";
                  "summary_preview"]
          ∧ ∃ (id : Z) (r : Row),
              rows (init_db db) !! id = Some r
              ∧ dict_get "id" d = Some (VInt id)
              ∧ match (get_summary db id).2 with
                | Ok (Some record) =>
                    Forall (fun key => dict_get key d = dict_get key record)
                           ["id"; "filename"; "mode"; "length"; "file_type"; "created_at"]
                    ∧ dict_get "summary" record = Some (cell (summary r))
                | Ok None => False
                | Raise e =>
                    ∃ s, key_points r = Some s ∧ json_loads s = None
                         ∧ json_failure s = Some e
                end
              ∧ match summary r with
                | Some s =>
                    ∃ preview rest : string,
                      dict_get "summary_preview" d = Some (VStr preview)
                      ∧ s = preview +:+ rest
                      ∧ (String.length preview <= 200)%nat
                      ∧ contains "000" preview = false
                      ∧ (String.length preview = 200%nat ∨ rest = EmptyString
                         ∨ ∃ rest', rest = String "000" rest')
                | None => dict_get "summary_preview" d = Some VNone
                end)
          entries
  end.
Proof.
  unfold list_summaries. cbn [snd].
  destruct (bool_decide (int64 limit)) eqn:Hlimit.
  2: { apply bool_decide_eq_false in Hlimit. done. }
  apply bool_decide_eq_true in Hlimit. split; [done|].
  pose proof (select_listing_stored (init_db db) limit) as Hin.
  apply Forall_fmap, Forall_forall. intros [id r] He. cbn [compose].
  split; [done|]. exists id, r. split; [by apply Hin|]. split; [done|].
  split.
  - unfold get_summary. cbn [snd]. rewrite (Hin id r He).
    destruct (dict_from_row (dict_of_row id r)) as [record|e] eqn:Hrec; cbn [bind].
    + split.
      * repeat (apply List.Forall_cons;
                [by rewrite (dict_from_row_keeps id r _ record) by done|]).
        apply List.Forall_nil.
      * by rewrite (dict_from_row_keeps id r "summary" record) by done.
    + rewrite dict_from_row_cases in Hrec.
      destruct (key_points r) as [s|]; [|done].
      destruct (truthy_str s); [|done].
      destruct (json_loads s) eqn:Hl; [done|].
      destruct (json_failure s) eqn:Hf; [|done].
      injection Hrec as <-. by exists s.
  - unfold listing_of_row.
    change (dict_get "summary_preview" _) with (Some (cell (substr 200 <$> summary r))).
    destruct (summary r) as [s|]; cbn [cell fmap option_fmap option_map]; [|done].
    destruct (substr_start 200 s) as (rest & Hrest & Hlen & Hnul & Hend).
    by exists (substr 200 s), rest.
Qed.

(** A record that was saved is in the listing, under the id save
    returned and with the start of its summary, up to 200 characters
    and to its first NUL character (the first 200 characters of a
    summary without NUL), when the limit fits 64 bits and is negative
    or above the number of records there were. *)
Theorem saved_record_is_listed
        (db : Database) (now filename original_text summary : string)
        (key_points : list string) (mode length file_type : string) (limit : Z) :
  int64 limit →
  limit < 0 ∨ Z.of_nat (size (rows (init_db db))) < limit →
  let saved := save_summary db now filename original_text summary
                            key_points mode length file_type in
  ∃ (entries : list dict) (preview : string),
    (list_summaries saved.1 limit).2 = Ok entries
    ∧ [("id", VInt saved.2); ("filename", VStr filename); ("mode", VStr mode);
       ("length", VStr length); ("file_type", VStr file_type); ("created_at", VStr now);
       ("summary_preview", VStr preview)]
      ∈ entries
    ∧ preview = slice_to 200 (until_nul summary)
    ∧ (contains "000" summary = false → preview = slice_to 200 summary).
Proof.
  intros Hint Hlimit. cbn zeta. unfold save_summary, insert_row. cbn [fst snd].
  set (t := init_db db) in *. set (id := next_rowid t).
  match goal with |- context [<[id := ?row]> _] => set (r := row) end.
  unfold list_summaries. rewrite init_db_idemp. cbn [snd].
  rewrite bool_decide_eq_true_2 by done.
  eexists _, (substr 200 summary). split; [done|].
  split; [|split; [done | apply substr_plain]].
  apply (list_elem_of_fmap_2 listing_of_row _ (id, r)).
  set (t' := {| rows := <[id := r]> (rows t); sequence := id |}).
  destruct (select_listing_split t' limit) as (rest & Hsplit & Hrest).
  assert (Hin : (id, r) ∈ merge_sort newest_first (map_to_list (rows t'))).
  { rewrite merge_sort_Permutation. apply elem_of_map_to_list. cbn [rows t'].
    apply lookup_insert_eq. }
  assert (Hlen : Datatypes.length (merge_sort newest_first (map_to_list (rows t')))
                 = S (size (rows t))).
  { rewrite (Permutation_length (merge_sort_Permutation newest_first _)),
            length_map_to_list.
    cbn [rows t']. apply map_size_insert_None, next_rowid_fresh. }
  rewrite <-Hsplit in Hin, Hlen.
  destruct Hrest as [-> | [Hpos Hfull]]; [by rewrite app_nil_r in Hin|].
  destruct Hlimit as [Hneg|Hbig]; [lia|].
  rewrite length_app, Hfull in Hlen.
  assert (rest = []) as -> by (apply nil_length_inv; lia).
  by rewrite app_nil_r in Hin.
Qed.
End ListingEntries.

Lemma saved_record_is_listed_witness :
  let saved := save_summary Cases.bare_table "2024-01-02 00:00:00" "b.txt" "T. U." "T."
                            ["P."; "Q."] "local" "long" "text" in
  ∃ (entries : list dict) (preview : string),
    (list_summaries saved.1 2).2 = Ok entries
    ∧ [("id", VInt saved.2); ("filename", VStr "b.txt"); ("mode", VStr "local");
       ("length", VStr "long"); ("file_type", VStr "text");
       ("created_at", VStr "2024-01-02 00:00:00");
       ("summary_preview", VStr preview)]
      ∈ entries
    ∧ preview = slice_to 200 (until_nul "T.")
    ∧ (contains "000" "T." = false → preview = slice_to 200 "T.").
Proof.
  apply (saved_record_is_listed Cases.bare_table "2024-01-02 00:00:00" "b.txt" "T. U." "T."
                                ["P."; "Q."] "local" "long" "text" 2).
  - by vm_compute.
  - right. by vm_compute.
Defined.

(** The preview of a summary that holds a NUL character stops there. *)
Example preview_stops_at_nul :
  substr 200 ("ab" +:+ String "000" "cd") = "ab".
Proof. reflexivity. Qed.

End StorageLaws.

(** ** More on the two strategies *)

Module StripFacts.
Import EntryFacts Notions.

Lemma lstrip_idemp (s : string) : lstrip (lstrip s) = lstrip s.
Proof.
  induction s as [|c s IH]; [done|]. cbn [lstrip].
  destruct (isspace c) eqn:Hc; [exact IH|]. cbn [lstrip]. by rewrite Hc.
Qed.

Lemma rstrip_all_space (s : string) : all_space s = true → rstrip s = EmptyString.
Proof.
  induction s as [|c s IH]; [done|]. cbn [all_space rstrip].
  intros [Hc Hs]%andb_true_iff. by rewrite (IH Hs), Hc.
Qed.

Lemma rstrip_cons (c : ascii) (s : string) :
  rstrip (String c s)
  = if all_space (String c s) then EmptyString else String c (rstrip s).
Proof.
  cbn [rstrip all_space]. destruct (rstrip s) as [|d r] eqn:Hr.
  - rewrite (rstrip_empty s Hr), andb_true_r. by destruct (isspace c).
  - assert (all_space s = false) as ->; [|by rewrite andb_false_r].
    destruct (all_space s) eqn:Hs; [|done].
    by rewrite (rstrip_all_space s Hs) in Hr.
Qed.

Lemma rstrip_idemp (s : string) : rstrip (rstrip s) = rstrip s.
Proof.
  induction s as [|c s IH]; [done|]. rewrite rstrip_cons.
  destruct (all_space (String c s)) eqn:Hs; [done|].
  rewrite rstrip_cons, IH.
  assert (all_space (String c (rstrip s)) = false) as ->; [|done].
  cbn [all_space] in *. destruct (isspace c); [|done]. cbn in *.
  destruct (all_space (rstrip s)) eqn:Hr; [|done].
  pose proof (rstrip_all_space _ Hr) as Hrr.
  rewrite IH in Hrr. by rewrite (rstrip_empty s Hrr) in Hs.
Qed.

Lemma rstrip_keeps_lstripped (s : string) : lstrip s = s → lstrip (rstrip s) = rstrip s.
Proof.
  destruct s as [|c s]; [done|]. intros Hl. rewrite rstrip_cons.
  destruct (all_space (String c s)) eqn:Hs; [done|].
  cbn [lstrip] in *. destruct (isspace c) eqn:Hc; [|done].
  exfalso. assert (Hlen : ∀ t, (String.length (lstrip t) <= String.length t)%nat).
  { induction t as [|d t IHt]; [done|]. cbn [lstrip]. destruct (isspace d); cbn; lia. }
  specialize (Hlen s). rewrite Hl in Hlen. cbn in Hlen. lia.
Qed.

Lemma lstrip_keeps_rstripped (s : string) : rstrip s = s → rstrip (lstrip s) = lstrip s.
Proof.
  induction s as [|c s IH]; [done|]. intros Hr. cbn [lstrip].
  destruct (isspace c) eqn:Hc; [|done].
  apply IH. rewrite rstrip_cons in Hr.
  destruct (all_space (String c s)); [done|]. by injection Hr.
Qed.

Lemma strip_trimmed (s : string) : trimmed (strip s).
Proof.
  unfold strip. split; [|apply rstrip_idemp].
  apply rstrip_keeps_lstripped, lstrip_idemp.
Qed.

Lemma trimmed_strip (s : string) : trimmed s → strip s = s.
Proof. intros [Hl Hr]. unfold strip. by rewrite Hl. Qed.

Lemma strip_idemp (s : string) : strip (strip s) = strip s.
Proof. apply trimmed_strip, strip_trimmed. Qed.

Lemma slice_to_idemp (n : nat) (s : string) : slice_to n (slice_to n s) = slice_to n s.
Proof.
  revert s. induction n as [|n IH]; intros [|c s]; cbn; [done..|]. by rewrite IH.
Qed.

End StripFacts.

Module SummarizerLaws.
Import Engine Summarizers Notions StripFacts.

Lemma rstripped_tail (c : ascii) (s : string) :
  rstrip (String c s) = String c s → rstrip s = s.
Proof.
  rewrite rstrip_cons. destruct (all_space (String c s)); [done|]. by intros [= ?].
Qed.

Lemma after_bullet_tail (line rest : string) :
  after_bullet line = Some rest → rstrip line = line → rstrip rest = rest.
Proof.
  destruct line as [|a [|b [|c tail]]]; try done. cbn [after_bullet].
  destruct (String.eqb _ bullet); [|done]. intros [= ->] Hr.
  by do 3 apply rstripped_tail in Hr.
Qed.

Lemma drop_marker_trimmed (line : string) : trimmed line → trimmed (drop_marker line).
Proof.
  intros [Hl Hr]. unfold drop_marker.
  destruct (after_bullet line) as [tail|] eqn:Hb.
  { split; [apply lstrip_idemp|].
    apply lstrip_keeps_rstripped. by eapply after_bullet_tail. }
  destruct line as [|c rest]; [done|].
  destruct (Ascii.eqb c "-" || Ascii.eqb c "*"); [|done].
  split; [apply lstrip_idemp|]. apply lstrip_keeps_rstripped.
  by eapply rstripped_tail.
Qed.

Lemma collect_point_collected (max_points : nat) (key_points : list string) (line : string) :
  collected max_points key_points →
  collected max_points (collect_point max_points key_points line).
Proof.
  intros [Hlen Hall]. unfold collect_point.
  destruct (truthy_str (drop_marker (strip line))) eqn:Ht; [|done]. cbn [andb].
  destruct (length key_points <? max_points)%nat eqn:Hlt; [|done].
  apply Nat.ltb_lt in Hlt. split; [rewrite length_app; cbn; lia|].
  apply Forall_app. split; [done|]. apply Forall_singleton. split.
  - intros Heq. by rewrite Heq in Ht.
  - apply trimmed_strip, drop_marker_trimmed, strip_trimmed.
Qed.

Lemma collect_all_collected (max_points : nat) (lines key_points : list string) :
  collected max_points key_points →
  collected max_points (fold_left (collect_point max_points) lines key_points).
Proof.
  revert key_points. induction lines as [|line lines IH]; intros key_points Hc; [done|].
  cbn [fold_left]. by apply IH, collect_point_collected.
Qed.

Section Online.
Context {gemini : Gemini}.

(** When the service answers, the online strategy returns at least one
    key point and at most [max_points] of them (one when [max_points]
    is 0); every point is stripped of blanks at its ends; and unless
    the whole answer is returned as a single point, no point is
    empty. *)
Theorem online_key_points_shape
        (self self' : OnlineSummarizer) (model : GenerativeModel)
        (text response : string) (max_points : nat) :
  _get_model self = (self', Ok model) →
  generate_content model (key_points_prompt text max_points) = Ok response →
  ∃ points : list string,
    online_extract_key_points self text max_points = (self', Ok points)
    ∧ points ≠ []
    ∧ (length points <= 1 `max` max_points)%nat
    ∧ Forall (fun point => strip point = point) points
    ∧ (points = [strip response] ∨ Forall (fun point => point ≠ EmptyString) points).
Proof.
  intros Hmodel Hanswer. unfold online_extract_key_points.
  rewrite Hmodel. cbn [bind]. rewrite Hanswer. cbn [bind].
  set (found := fold_left _ _ _).
  assert (Hc : collected max_points found).
  { apply collect_all_collected. split; [cbn; lia | apply List.Forall_nil]. }
  destruct Hc as [Hlen Hall]. eexists. split; [done|].
  destruct found as [|p l]; cbn [list_or].
  - split; [done|]. split; [cbn; lia|]. split; [|by left].
    apply Forall_singleton, strip_idemp.
  - split; [done|]. split; [lia|].
    split; [|right]; eapply Forall_impl; try exact Hall; by intros ? [? ?].
Qed.

(** Both prompts carry the first 10000 characters of the text and
    nothing of the rest: the online results of a text and of its first
    10000 characters are the same. *)
Theorem online_reads_prompt_limit
        (self : OnlineSummarizer) (text length : string) (max_points : nat) :
  online_summarize self text length
  = online_summarize self (slice_to prompt_limit text) length
  ∧ online_extract_key_points self text max_points
    = online_extract_key_points self (slice_to prompt_limit text) max_points.
Proof.
  unfold online_summarize, online_extract_key_points, summary_prompt, key_points_prompt.
  by rewrite slice_to_idemp.
Qed.
End Online.

Section Contract.
Context {locale : Locale} {numerics : Numerics} {gemini : Gemini}.

(** The local strategy always answers, with a summary that is not the
    empty text and a list of key points that is not empty; where it
    falls back on the text itself, the summary has at most 503
    characters and the single key point at most 203. *)
Theorem local_results_never_empty
        (self : LocalSummarizer) (text length : string) (max_points : nat) :
  ∃ (summary : string) (key_points : list string),
    (summarize (Local self) text length).2 = Ok summary
    ∧ (extract_key_points (Local self) text max_points).2 = Ok key_points
    ∧ summary ≠ EmptyString
    ∧ key_points ≠ []
    ∧ (summary = join " " (surface <$> text_rank (tokenize text) (sentence_count length))
       ∨ summary = slice_to 500 text +:+ "..."
         ∧ (String.length summary <= 503)%nat)
    ∧ (key_points = (fun s => strip (surface s)) <$> lsa (tokenize text) max_points
       ∨ key_points = [slice_to 200 text +:+ "..."]
         ∧ Forall (fun point => String.length point <= 203)%nat key_points).
Proof.
  unfold summarize, extract_key_points, local_summarize, local_extract_key_points.
  cbn [snd]. eexists _, _. split; [done|]. split; [done|].
  assert (Hlen : ∀ n s, (String.length (slice_to n s +:+ "...") <= n + 3)%nat).
  { intros n s. rewrite PyJsonFacts.length_app_str, StorageLaws.ListingLaws.slice_to_length.
    cbn. lia. }
  assert (Hne : ∀ s, s +:+ "..." ≠ EmptyString) by (by intros []).
  split; [|split; [|split]].
  - unfold str_or. destruct (truthy_str _) eqn:Ht; [|apply Hne].
    intros Heq. by rewrite Heq in Ht.
  - unfold list_or. by destruct (_ <$> _).
  - unfold str_or. destruct (truthy_str _); [by left|right].
    split; [done|]. apply (Hlen 500%nat).
  - unfold list_or. destruct (_ <$> lsa _ _) eqn:Hl; [right|by left].
    split; [done|]. apply Forall_singleton, (Hlen 200%nat).
Qed.
End Contract.

Import Sample.

Lemma online_key_points_shape_witness :
  let answer := bullet +:+ " one" +:+ nl +:+ "*  two" +:+ nl +:+ nl +:+ "- three" in
  let ready := {| api_key := Some "k";
                  _model := Some {| model_name := "gemini-1.5-flash";
                                    configured_key := "k" |} |} in
  ∃ points : list string,
    online_extract_key_points (gemini := canned answer) (new_online (Some "k")) "Some text." 2
    = (ready, Ok points)
    ∧ points ≠ []
    ∧ (length points <= 1 `max` 2)%nat
    ∧ Forall (fun point => strip point = point) points
    ∧ (points = [strip answer] ∨ Forall (fun point => point ≠ EmptyString) points).
Proof.
  cbn zeta.
  apply (online_key_points_shape
           (gemini := canned (bullet +:+ " one" +:+ nl +:+ "*  two" +:+ nl +:+ nl +:+ "- three"))
           (new_online (Some "k")) _ {| model_name := "gemini-1.5-flash"; configured_key := "k" |}
           "Some text." _ 2).
  - reflexivity.
  - reflexivity.
Defined.

(** The three markers are taken off, the bullet the prompt asks for
    among them. *)
Example markers_dropped :
  (online_extract_key_points
     (gemini := canned (bullet +:+ " one" +:+ nl +:+ bullet +:+ "two" +:+ nl
                          +:+ "*  three" +:+ nl +:+ nl +:+ "- four" +:+ nl +:+ "five"))
     (new_online (Some "k")) "Some text." 5).2
  = Ok ["one"; "two"; "three"; "four"; "five"].
Proof. by vm_compute. Qed.

End SummarizerLaws.

(** ** The routes of app.py *)

Module RouteLaws.
Import Engine Summarizers Storage Entry Routes.
Import StorageFacts StorageLaws EntryFacts.

Section Handlers.
Context {codec : Codec}.



(** The export route on a record that was saved answers 200 with the
    text layout and the type text/plain when no format or txt is asked
    for, and with the JSON text and the type application/json for
    json; for any other format it answers the text layout under the
    type application/json. *)
Theorem export_route_content_type
        (db : Database) (now filename original_text summary : string)
        (key_points : list string) (mode length file_type : string)
        (query : gmap string string) (format : string) :
  format ≠ "txt" → format ≠ "json" →
  let saved := save_summary db now filename original_text summary
                            key_points mode length file_type in
  let layout := text_layout now filename summary key_points mode length in
  let record := record_of saved.2 now filename original_text summary
                          key_points mode length file_type in
  let export := export_summary_by_id saved.1 saved.2 in
  export (delete "format" query) = (saved.1, Text layout 200 "text/plain")
  ∧ export (<["format" := "txt"]> query) = (saved.1, Text layout 200 "text/plain")
  ∧ export (<["format" := "json"]> query)
    = (saved.1, Text (json_dumps (Some 2%nat) (VDict record)) 200 "application/json")
  ∧ export (<["format" := format]> query)
    = (saved.1, Text layout 200 "application/json").
Proof.
  intros Htxt Hjson. cbn zeta. unfold export_summary_by_id.
  rewrite lookup_delete_eq, !lookup_insert_eq. cbn [default]. cbv [Datatypes.id].
  apply String.eqb_neq in Htxt.
  split; [|split; [|split]].
  - rewrite export_saved_text by done. by rewrite text_layout_truthy.
  - rewrite export_saved_text by done. by rewrite text_layout_truthy.
  - unfold export_summary. rewrite get_saved. unfold record_of. cbn [bind].
    change (String.eqb "json" "json") with true. cbv iota.
    rewrite dumps_truthy. done.
  - rewrite export_saved_text by done. by rewrite text_layout_truthy, Htxt.
Qed.

(** GET /api/summaries answers 200 with at most fifty entries, those
    of the listing with the limit 50, and leaves the table as it is. *)
Lemma listing_route_answers (db : Database) :
  ∃ entries : list dict,
    get_summaries db
    = (Some (init_db db),
       {| status := 200; body := VDict [("summaries", VList (VDict <$> entries))] |})
    ∧ (list_summaries db 50).2 = Ok entries
    ∧ length entries = (50 `min` size (rows (init_db db)))%nat.
Proof.
  unfold get_summaries, list_summaries. rewrite bool_decide_eq_true_2 by done.
  eexists. split; [done|]. split; [done|]. rewrite length_fmap.
  apply (select_listing_length (init_db db) 50).
Qed.
End Handlers.

Section Post.
Context {locale : Locale} {numerics : Numerics} {gemini : Gemini}
        {codec : Codec} {surroundings : Surroundings}.

Lemma summarize_and_save_cases
      (db : Database) (mode length key : string) (save : bool) (text : string)
      (filename : value) (file_type : string) :
  let out := summarize_and_save db mode length key save text filename file_type in
  match out.1.2 with
  | Raise _ => init_db out.1.1 = init_db db ∧ ∀ id, Saved id ∉ out.2
  | Ok response =>
      status response = 200
      ∧ if save then
          ∃ (id : Z) (r : Row) (d : dict),
            rows (init_db db) !! id = None
            ∧ rows (init_db out.1.1) = <[id := r]> (rows (init_db db))
            ∧ body response = VDict (d ++ [("saved_id", VInt id)])
            ∧ last out.2 = Some (Saved id)
        else out.1.1 = db ∧ ∀ id, Saved id ∉ out.2
  end.
Proof.
  cbn zeta. unfold summarize_and_save.
  assert (Hno : ∀ (id : Z) (l : list event),
             Forall (fun e => summarizer_event e = true) l → Saved id ∉ l).
  { intros id l Hall Hin. by apply (proj1 (Forall_forall _ _) Hall) in Hin. }
  destruct (summarize _ text length) as [s1 [summary|e]]; cbn [fst snd].
  2: { split; [done|]. intros id. apply Hno. by repeat constructor. }
  destruct (extract_key_points s1 text 5) as [s2 [key_points|e]]; cbn [fst snd].
  2: { split; [done|]. intros id. apply Hno. by repeat constructor. }
  destruct save.
  - destruct (bind_text filename) as [name|e]; cbn [fst snd].
    + unfold insert_row. cbn [fst snd]. split; [done|].
      eexists _, _, _. split; [apply next_rowid_fresh|]. split; [done|].
      split; [done|]. done.
    + split; [done|]. intros id. apply Hno. by repeat constructor.
  - cbn [fst snd]. split; [done|]. split; [done|].
    intros id. apply Hno. by repeat constructor.
Qed.

Lemma read_input_parses_only (req : Request) (id : Z) : Saved id ∉ (read_input req).2.
Proof.
  unfold read_input. destruct (is_json req); [by intros ?%elem_of_nil|].
  destruct (files req !! "file") as [file|].
  - destruct (truthy_str (upload_filename file)); cbn [snd].
    + intros Hin%list_elem_of_singleton. done.
    + by intros ?%elem_of_nil.
  - destruct (form req !! "text"); by intros ?%elem_of_nil.
Qed.

Lemma handle_exception_status (e : exn) :
  status (handle_exception e) = 400 ∨ status (handle_exception e) = 500.
Proof. destruct e; cbn; auto. Qed.

(** POST /api/summarize answers 200, 400 or 500.  Unless it answers 200
    to a request with save=true, it leaves the table as it was and
    saves nothing; when it does, exactly one record is added, under an
    id that was not stored, and that id is the saved_id of the
    answer. *)
Theorem post_saves_only_on_success (db : Database) (req : Request) :
  let out := api_summarize db req in
  let response := out.1.2 in
  (status response = 200 ∨ status response = 400 ∨ status response = 500)
  ∧ (status response ≠ 200 ∨ should_save req = false →
     init_db out.1.1 = init_db db ∧ ∀ id, Saved id ∉ out.2)
  ∧ (status response = 200 ∧ should_save req = true →
     ∃ (id : Z) (r : Row) (d : dict),
       rows (init_db db) !! id = None
       ∧ rows (init_db out.1.1) = <[id := r]> (rows (init_db db))
       ∧ body response = VDict (d ++ [("saved_id", VInt id)])
       ∧ last out.2 = Some (Saved id)).
Proof.
  cbn zeta. unfold api_summarize. fold (should_save req).
  pose proof (read_input_parses_only req) as Hparsed.
  destruct (read_input req) as [[[[text filename] file_type]|e] parsed]; cbn [snd] in Hparsed.
  2: { cbn [fst snd]. destruct (handle_exception_status e) as [He|He]; rewrite He.
       all: split; [auto|]; split; [done|]; by intros [? _]. }
  assert (Hfail : ∀ e : exn,
             let response := handle_exception e in
             (status response = 200 ∨ status response = 400 ∨ status response = 500)
             ∧ (status response ≠ 200 ∨ should_save req = false →
                init_db db = init_db db ∧ ∀ id, Saved id ∉ parsed)
             ∧ (status response = 200 ∧ should_save req = true →
                ∃ (id : Z) (r : Row) (d : dict),
                  rows (init_db db) !! id = None
                  ∧ rows (init_db db) = <[id := r]> (rows (init_db db))
                  ∧ body response = VDict (d ++ [("saved_id", VInt id)])
                  ∧ last parsed = Some (Saved id))).
  { intros e. cbn zeta. destruct (handle_exception_status e) as [He|He]; rewrite He.
    all: split; [auto|]; split; [done|]; by intros [? _]. }
  destruct (no_text text) as [[|]|e]; cbn [fst snd]; [| |apply Hfail].
  { split; [auto|]. split; [done|]. by intros [? _]. }
  destruct text as [| | |s| |]; cbn [fst snd]; try apply Hfail.
  pose proof (summarize_and_save_cases db (default "local" (args req !! "mode"))
                (default "medium" (args req !! "length"))
                (default "" (args req !! "api_key")) (should_save req) s filename file_type)
    as Hcases.
  cbn zeta in Hcases.
  destruct (summarize_and_save _ _ _ _ _ _ _ _) as [[db' [response|e]] trace];
    cbn [fst snd] in *.
  - destruct Hcases as [Hstatus Hsave]. rewrite Hstatus.
    split; [auto|]. destruct (should_save req).
    + destruct Hsave as (id & r & d & Hfresh & Hrows & Hbody & Hlast).
      split; [by intros [|]|]. intros _. exists id, r, d.
      split; [done|]. split; [done|]. split; [done|].
      rewrite last_app, Hlast. done.
    + destruct Hsave as [-> Hno]. split; [|by intros [_ ?]].
      intros _. split; [done|]. intros id [Hin|Hin]%elem_of_app; [by eapply Hparsed|by eapply Hno].
  - destruct Hcases as [Hdb Hno].
    destruct (handle_exception_status e) as [He|He]; rewrite He.
    all: split; [auto|]; split; [|by intros [? _]].
    all: intros _; split; [done|].
    all: intros id [Hin|Hin]%elem_of_app; [by eapply Hparsed|by eapply Hno].
Qed.

(** A JSON body whose text is not a string but a true object (a number
    other than 0, a list or an object that is not empty) is answered
    500: the handler fails on [text.strip()] before it creates a
    summarizer, and the table is left as it was. *)
Theorem json_text_must_be_string
        (db : Database) (req : Request) (d : dict) (text : value) :
  is_json req = true →
  get_json req = Ok (VDict d) →
  dict_get "text" d = Some text →
  truthy text = true →
  (∀ s, text ≠ VStr s) →
  api_summarize db req
  = (db,
     error_response 500 ("Summarization failed: '" +:+ type_name text
                           +:+ "' object has no attribute 'strip'"),
     []).
Proof.
  intros Hjson Hbody Htext Htrue Hstr. unfold api_summarize, read_input.
  rewrite Hjson, Hbody. cbn [bind]. rewrite Htext. cbn [default]. cbv [Datatypes.id].
  unfold no_text. rewrite Htrue. cbn [negb].
  destruct text as [| | |s| |]; try done. by destruct (Hstr s).
Qed.

End Post.

Import Sample.

Lemma export_route_content_type_witness :
  let saved := save_summary None "2024-01-02 00:00:00" "b.txt" "T. U." "T."
                            ["P."; "Q."] "local" "long" "text" in
  let layout := text_layout "2024-01-02 00:00:00" "b.txt" "T." ["P."; "Q."] "local" "long" in
  let record := record_of saved.2 "2024-01-02 00:00:00" "b.txt" "T. U." "T."
                          ["P."; "Q."] "local" "long" "text" in
  let export := export_summary_by_id saved.1 saved.2 in
  export (delete "format" ∅) = (saved.1, Text layout 200 "text/plain")
  ∧ export (<["format" := "txt"]> ∅) = (saved.1, Text layout 200 "text/plain")
  ∧ export (<["format" := "json"]> ∅)
    = (saved.1, Text (json_dumps (Some 2%nat) (VDict record)) 200 "application/json")
  ∧ export (<["format" := "pdf"]> ∅)
    = (saved.1, Text layout 200 "application/json").
Proof.
  apply (export_route_content_type None "2024-01-02 00:00:00" "b.txt" "T. U." "T."
                                   ["P."; "Q."] "local" "long" "text" ∅ "pdf");
    discriminate.
Defined.

Lemma json_text_must_be_string_witness :
  api_summarize (gemini := canned "") None Cases.number_request
  = (None,
     error_response 500 ("Summarization failed: '" +:+ type_name (VInt 5)
                           +:+ "' object has no attribute 'strip'"),
     []).
Proof.
  apply (json_text_must_be_string (gemini := canned "") None Cases.number_request
                                  [("text", VInt 5)] (VInt 5));
    [reflexivity | reflexivity | reflexivity | reflexivity | discriminate].
Defined.


End RouteLaws.

(** ** The parsers *)

Module ParserFacts.
Import Parsers Notions StripFacts.

Lemma append_cons (c : ascii) (a b : string) : String c a +:+ b = String c (a +:+ b).
Proof. done. Qed.

Lemma plain_app (a b : string) : plain (a +:+ b) = plain a && plain b.
Proof.
  induction a as [|c a IH]; [done|].
  change (plain_char c && plain (a +:+ b) = plain_char c && plain a && plain b).
  by rewrite IH, andb_assoc.
Qed.

Lemma app_assoc_str (a b c : string) : (a +:+ b) +:+ c = a +:+ (b +:+ c).
Proof.
  induction a as [|x a IH]; [done|].
  change (String x ((a +:+ b) +:+ c) = String x (a +:+ (b +:+ c))). by rewrite IH.
Qed.

Lemma truthy_app (a : string) (c : ascii) : truthy_str (a +:+ String c EmptyString) = true.
Proof. by destruct a. Qed.

Lemma plain_char_cases (c : ascii) :
  plain_char c = true → Ascii.eqb c "/" = false ∧ Ascii.eqb c "." = false.
Proof.
  unfold plain_char. destruct (Ascii.eqb c "."), (Ascii.eqb c "/"); by intros.
Qed.

Lemma ext_from_extension (seen : bool) (e p : string) :
  extension e → extension (ext_from seen e p).
Proof.
  revert seen e. induction p as [|c p IH]; intros seen e He; [done|].
  cbn [ext_from]. destruct (Ascii.eqb c "/") eqn:Hslash; [apply IH; by left|].
  destruct (Ascii.eqb c ".") eqn:Hdot.
  - destruct seen; apply IH; [right; by exists EmptyString | by left].
  - apply IH. destruct He as [-> | (w & -> & Hw)]; [by left|].
    right. exists (w +:+ String c EmptyString). split; [done|].
    rewrite plain_app, Hw. cbn. unfold plain_char. by rewrite Hslash, Hdot.
Qed.

Lemma splitext_extension (p : string) : extension (splitext_ext p).
Proof. apply ext_from_extension. by left. Qed.

Lemma ext_from_slash (seen : bool) (e a b : string) :
  ext_from seen e (a +:+ "/" +:+ b) = ext_from false EmptyString b.
Proof.
  revert seen e. induction a as [|c a IH]; intros seen e; [done|].
  rewrite ?append_cons; cbn [ext_from].
  destruct (Ascii.eqb c "/"); [apply IH|].
  destruct (Ascii.eqb c "."); [destruct seen; apply IH | apply IH].
Qed.

Lemma ext_from_stem (seen : bool) (stem q : string) :
  stem ≠ EmptyString → plain stem = true →
  ext_from seen EmptyString (stem +:+ q) = ext_from true EmptyString q.
Proof.
  revert seen. induction stem as [|c stem IH]; intros seen Hne Hplain; [done|].
  cbn [plain] in Hplain. apply andb_true_iff in Hplain as [Hc Hstem].
  destruct (plain_char_cases c Hc) as [Hslash Hdot].
  rewrite ?append_cons; cbn [ext_from]. rewrite Hslash, Hdot. cbn [truthy_str].
  destruct stem as [|d stem]; [done|]. by apply IH.
Qed.

Lemma ext_from_plain (e w : string) :
  truthy_str e = true → plain w = true → ext_from true e w = e +:+ w.
Proof.
  revert e. induction w as [|c w IH]; intros e He Hw.
  - cbn [ext_from]. clear. induction e as [|x e IHe]; [done|].
    change (String x e = String x (e +:+ EmptyString)). by rewrite <-IHe.
  - cbn [plain] in Hw. apply andb_true_iff in Hw as [Hc Hw].
    destruct (plain_char_cases c Hc) as [Hslash Hdot].
    cbn [ext_from]. rewrite Hslash, Hdot, He, IH by (done || apply truthy_app).
    apply app_assoc_str.
Qed.

Lemma ext_from_own (e : string) : extension e → ext_from true EmptyString e = e.
Proof.
  intros [-> | (w & -> & Hw)]; [done|].
  rewrite ?append_cons; cbn [ext_from Ascii.eqb Bool.eqb]. by apply ext_from_plain.
Qed.

Lemma lower_char_idemp (c : ascii) : lower_char (lower_char c) = lower_char c.
Proof. by destruct c as [[] [] [] [] [] [] [] []]. Qed.

Lemma lower_idemp (s : string) : lower (lower s) = lower s.
Proof.
  induction s as [|c s IH]; [done|]. cbn [lower]. by rewrite lower_char_idemp, IH.
Qed.

Lemma plain_lower_char (c : ascii) : plain_char (lower_char c) = plain_char c.
Proof. by destruct c as [[] [] [] [] [] [] [] []]. Qed.

Lemma plain_lower (s : string) : plain (lower s) = plain s.
Proof.
  induction s as [|c s IH]; [done|]. cbn [lower plain]. by rewrite plain_lower_char, IH.
Qed.

Lemma lower_extension (e : string) : extension e → extension (lower e).
Proof.
  intros [-> | (w & -> & Hw)]; [by left|]. right. exists (lower w).
  split; [done|]. by rewrite plain_lower.
Qed.

(** The temporary name has the extension it was given. *)
Lemma temp_name_ext {tempfile : Tempfile} (fs : FileSystem) (e name : string) :
  temp_name fs e = Ok name → extension e → splitext_ext name = e.
Proof.
  intros Hname He.
  destruct (temp_name_shape fs e name Hname) as (dir & stem & -> & Hne & Hplain).
  unfold splitext_ext. rewrite ext_from_slash, ext_from_stem by done.
  by apply ext_from_own.
Qed.

(** *** A name generator that obeys the rules *)

Lemma longest_bound (fs : FileSystem) (path : string) (n : node) :
  fs !! path = Some n → (String.length path <= Cases.longest fs)%nat.
Proof.
  unfold Cases.longest. revert path n.
  apply (map_fold_weak_ind
           (fun acc (m : gmap string node) =>
              ∀ path n, m !! path = Some n → (String.length path <= acc)%nat)).
  - intros path n Hp. by rewrite lookup_empty in Hp.
  - intros i x m acc Hi IH path n Hp.
    destruct (decide (i = path)) as [->|Hne]; [lia|].
    rewrite lookup_insert_ne in Hp by done. specialize (IH path n Hp). lia.
Qed.

Lemma length_repeat_a (n : nat) : String.length (repeat_str "a" n) = n.
Proof.
  induction n as [|n IH]; [done|].
  change (S (String.length (repeat_str "a" n)) = S n). by rewrite IH.
Qed.

Lemma plain_repeat_a (n : nat) : plain (repeat_str "a" n) = true.
Proof. induction n as [|n IH]; [done|]. exact IH. Qed.

Lemma long_name_cases (fs : FileSystem) (suffix name : string) :
  Cases.long_name_or_error fs suffix = Ok name → name = Cases.long_name fs suffix.
Proof.
  unfold Cases.long_name_or_error. destruct (contains _ _); [done|].
  destruct (_ <? _)%nat; [done|]. by intros [= <-].
Qed.

Lemma long_name_fresh (fs : FileSystem) (suffix name : string) :
  Cases.long_name_or_error fs suffix = Ok name → fs !! name = None.
Proof.
  intros ->%long_name_cases.
  destruct (fs !! Cases.long_name fs suffix) as [n|] eqn:Hp; [|done].
  apply longest_bound in Hp. unfold Cases.long_name, Cases.long_stem in Hp.
  rewrite !PyJsonFacts.length_app_str, length_repeat_a in Hp. cbn in Hp. lia.
Qed.

Lemma long_name_shape (fs : FileSystem) (suffix name : string) :
  Cases.long_name_or_error fs suffix = Ok name →
  ∃ dir stem : string,
    name = dir +:+ "/" +:+ stem +:+ suffix
    ∧ stem ≠ EmptyString ∧ plain stem = true.
Proof.
  intros ->%long_name_cases.
  exists "/tmp", (Cases.long_stem fs). split; [done|]. split; [done|].
  unfold Cases.long_stem. by rewrite plain_app, plain_repeat_a.
Qed.

Definition long_names : Tempfile :=
  {| temp_name := Cases.long_name_or_error;
     temp_name_fresh := long_name_fresh;
     temp_name_shape := long_name_shape |}.

End ParserFacts.

Module ParserLaws.
Import Parsers Notions StripFacts ParserFacts.

Lemma keep_all (texts acc : list string) :
  fold_left keep_text texts acc
  = acc ++ filter (fun text => truthy_str (strip text) = true) texts.
Proof.
  revert acc. induction texts as [|t texts IH]; intros acc; [by rewrite app_nil_r|].
  cbn [fold_left]. rewrite IH. unfold keep_text. rewrite filter_cons.
  destruct (truthy_str (strip t)) eqn:Ht.
  - rewrite decide_True by done. by rewrite <-app_assoc.
  - rewrite decide_False by done. done.
Qed.

Lemma keep_rows (rows : list (list string)) (acc : list string) :
  fold_left (fun parts row => fold_left keep_text row parts) rows acc
  = acc ++ filter (fun text => truthy_str (strip text) = true) (concat rows).
Proof.
  revert acc. induction rows as [|row rows IH]; intros acc; [by rewrite app_nil_r|].
  cbn [fold_left concat]. rewrite IH, keep_all, filter_app. by rewrite <-app_assoc.
Qed.

Lemma keep_tables (tables : list (list (list string))) (acc : list string) :
  fold_left (fun parts table =>
               fold_left (fun parts row => fold_left keep_text row parts) table parts)
            tables acc
  = acc ++ filter (fun text => truthy_str (strip text) = true) (concat (concat tables)).
Proof.
  revert acc. induction tables as [|table tables IH]; intros acc; [by rewrite app_nil_r|].
  cbn [fold_left concat]. rewrite IH, keep_rows, concat_app, filter_app.
  by rewrite <-app_assoc.
Qed.

Section Parsing.
Context {readers : Readers}.

Lemma reraise_cases {A} (prefix : string) (r : result A) :
  match reraise prefix r with
  | Ok a => r = Ok a
  | Raise e => ∃ e', r = Raise e' ∧ e = ValueError (prefix +:+ exn_str e')
  end.
Proof. destruct r as [a|e']; [done|]. by exists e'. Qed.

Lemma parse_pdf_stripped (fs : FileSystem) (file_path text : string) :
  parse_pdf fs file_path = Ok text → strip text = text.
Proof.
  unfold parse_pdf. destruct (read_bytes fs file_path) as [content|]; [|done].
  cbn [bind]. destruct (pdf_pages content) as [pages|]; [|done].
  cbn [bind]. destruct (extract_pages pages []) as [parts|]; [|done].
  cbn. intros [= <-]. apply strip_idemp.
Qed.

Lemma parse_docx_stripped (fs : FileSystem) (file_path text : string) :
  parse_docx fs file_path = Ok text → strip text = text.
Proof.
  unfold parse_docx. destruct (read_bytes fs file_path) as [content|]; [|done].
  cbn [bind]. destruct (docx_document content) as [doc|]; [|done].
  cbn. intros [= <-]. apply strip_idemp.
Qed.

Lemma detect_and_parse_cases (fs : FileSystem) (file_path : string) :
  let ext := lower (splitext_ext file_path) in
  match detect_and_parse fs file_path with
  | Ok (text, file_type) =>
      is_Some (fs !! file_path)
      ∧ strip text = text
      ∧ file_type = (if String.eqb ext ".pdf" then "pdf"
                     else if String.eqb ext ".docx" then "docx" else "text")
  | Raise e =>
      match fs !! file_path with
      | None => e = OtherError ("File not found: " +:+ file_path)
      | Some entry =>
          if String.eqb ext ".pdf"
          then ∃ m, e = ValueError ("Failed to parse PDF: " +:+ m)
          else if String.eqb ext ".docx"
          then ∃ m, e = ValueError ("Failed to parse Word document: " +:+ m)
          else if bool_decide (ext ∈ [".txt"; ".md"; ".text"])
          then entry = Refused e
          else e = ValueError ("Unsupported file type: " +:+ ext)
               ∧ ∃ e', entry = Refused e'
      end
  end.
Proof.
  cbn zeta. unfold detect_and_parse.
  destruct (fs !! file_path) as [entry|] eqn:Hentry; [|done].
  set (ext := lower (splitext_ext file_path)).
  destruct (String.eqb ext ".pdf").
  { destruct (parse_pdf fs file_path) as [text|e] eqn:Hpdf; cbn [bind].
    - split; [done|]. split; [by eapply parse_pdf_stripped | done].
    - unfold parse_pdf in Hpdf.
      match type of Hpdf with
      | reraise ?p ?r = _ => pose proof (reraise_cases p r) as Hc; rewrite Hpdf in Hc
      end.
      destruct Hc as (e' & _ & ->). by eexists. }
  destruct (String.eqb ext ".docx").
  { destruct (parse_docx fs file_path) as [text|e] eqn:Hdocx; cbn [bind].
    - split; [done|]. split; [by eapply parse_docx_stripped | done].
    - unfold parse_docx in Hdocx.
      match type of Hdocx with
      | reraise ?p ?r = _ => pose proof (reraise_cases p r) as Hc; rewrite Hdocx in Hc
      end.
      destruct Hc as (e' & _ & ->). by eexists. }
  unfold parse_text_file, read_bytes. rewrite Hentry.
  destruct (bool_decide _); destruct entry as [content|e]; cbn [bind].
  - split; [done|]. split; [apply strip_idemp | done].
  - done.
  - split; [done|]. split; [apply strip_idemp | done].
  - split; [done|]. by eexists.
Qed.

(** What [detect_and_parse] answers.  A text it returns has no blank at
    either end, and comes with the type the lowercased extension
    selects; a path that does not exist raises "File not found"; a
    failure on a .pdf or .docx file is a [ValueError] with the prefix
    of its parser; on a .txt, .md or .text file the error of [open] is
    passed on as it is; on any other extension it is replaced by the
    [ValueError] "Unsupported file type". *)
Theorem detect_and_parse_outcomes (fs : FileSystem) (file_path : string) :
  let ext := lower (splitext_ext file_path) in
  match detect_and_parse fs file_path with
  | Ok (text, file_type) =>
      is_Some (fs !! file_path)
      ∧ strip text = text
      ∧ file_type = (if String.eqb ext ".pdf" then "pdf"
                     else if String.eqb ext ".docx" then "docx" else "text")
  | Raise e =>
      match fs !! file_path with
      | None => e = OtherError ("File not found: " +:+ file_path)
      | Some entry =>
          if String.eqb ext ".pdf"
          then ∃ m, e = ValueError ("Failed to parse PDF: " +:+ m)
          else if String.eqb ext ".docx"
          then ∃ m, e = ValueError ("Failed to parse Word document: " +:+ m)
          else if bool_decide (ext ∈ [".txt"; ".md"; ".text"])
          then entry = Refused e
          else e = ValueError ("Unsupported file type: " +:+ ext)
               ∧ ∃ e', entry = Refused e'
      end
  end.
Proof. apply detect_and_parse_cases. Qed.


(** [parse_docx] returns the paragraphs that are not blank, in their
    order, followed by the cells that are not blank, table by table
    and row by row, joined by line breaks and stripped. *)
Theorem parse_docx_collects
        (fs : FileSystem) (file_path content : string) (doc : Document) :
  fs !! file_path = Some (File content) →
  docx_document content = Ok doc →
  parse_docx fs file_path
  = Ok (strip (join nl (filter (fun text => truthy_str (strip text) = true)
                               (paragraphs doc ++ concat (concat (tables doc)))))).
Proof.
  intros Hfile Hdoc. unfold parse_docx, read_bytes. rewrite Hfile. cbn [bind].
  rewrite Hdoc. cbn [bind reraise]. by rewrite keep_tables, keep_all, filter_app.
Qed.

Lemma detect_and_parse_file (fs fs' : FileSystem) (p p' content : string) :
  fs !! p = Some (File content) →
  fs' !! p' = Some (File content) →
  lower (splitext_ext p) = lower (splitext_ext p') →
  detect_and_parse fs p = detect_and_parse fs' p'.
Proof.
  intros Hp Hp' Hext. unfold detect_and_parse, parse_pdf, parse_docx, parse_text_file,
    read_bytes. by rewrite Hp, Hp', Hext.
Qed.

Lemma upload_is_file {tempfile : Tempfile} (fs : FileSystem) (file : Entry.Upload)
      (filename tmp_path : string) :
  let ext := lower (splitext_ext filename) in
  temp_name fs ext = Ok tmp_path →
  parse_uploaded_file fs file filename
  = (fs, detect_and_parse (<[tmp_path := File (Entry.upload_content file)]> fs) tmp_path)
  ∧ lower (splitext_ext tmp_path) = ext.
Proof.
  cbn zeta. intros Hname. unfold parse_uploaded_file. rewrite Hname. cbv zeta.
  unfold FileSystem in *. rewrite lookup_insert_eq. split.
  - f_equal. rewrite delete_insert_id; [done|]. by eapply temp_name_fresh.
  - rewrite (temp_name_ext fs _ _ Hname); [apply lower_idemp|].
    apply lower_extension, splitext_extension.
Qed.

Lemma upload_not_created {tempfile : Tempfile} (fs : FileSystem) (file : Entry.Upload)
      (filename : string) (e : exn) :
  temp_name fs (lower (splitext_ext filename)) = Raise e →
  parse_uploaded_file fs file filename = (fs, Raise e).
Proof. intros Hname. unfold parse_uploaded_file. by rewrite Hname. Qed.

(** Parsing an upload leaves the file system as it was.  When the
    temporary file cannot be created, the exception of its creation
    is the outcome.  When it is created, it is gone afterwards, and
    the outcome is that of [detect_and_parse] on a file of the
    uploaded name holding the uploaded bytes, so it depends on the
    bytes and on the lowercased extension of that name only; and with
    an extension other than .pdf and .docx the bytes are read as text,
    whatever the extension. *)
Theorem upload_is_parsed_by_name {tempfile : Tempfile}
        (fs : FileSystem) (file : Entry.Upload) (filename : string) :
  let ext := lower (splitext_ext filename) in
  let content := Entry.upload_content file in
  (parse_uploaded_file fs file filename).1 = fs
  ∧ match temp_name fs ext with
    | Raise e => (parse_uploaded_file fs file filename).2 = Raise e
    | Ok _ =>
        (parse_uploaded_file fs file filename).2
        = detect_and_parse {[ filename := File content ]} filename
        ∧ (ext ≠ ".pdf" → ext ≠ ".docx" →
           (parse_uploaded_file fs file filename).2 = Ok (strip (decode content), "text"))
    end.
Proof.
  cbn zeta. destruct (temp_name fs (lower (splitext_ext filename))) as [name|e] eqn:Hname.
  2: { by rewrite (upload_not_created fs file filename e Hname). }
  destruct (upload_is_file fs file filename name Hname) as [-> Hext]. cbn [fst snd].
  split; [done|].
  assert (Hsame : detect_and_parse (<[name := File (Entry.upload_content file)]> fs) name
                  = detect_and_parse {[ filename := File (Entry.upload_content file) ]} filename).
  { apply (detect_and_parse_file _ _ _ _ (Entry.upload_content file));
      [apply lookup_insert_eq | apply lookup_singleton_eq | exact Hext]. }
  split; [exact Hsame|].
  intros Hpdf Hdocx. rewrite Hsame. unfold detect_and_parse, FileSystem.
  rewrite lookup_singleton_eq.
  apply String.eqb_neq in Hpdf, Hdocx. rewrite Hpdf, Hdocx.
  unfold parse_text_file, read_bytes, FileSystem. rewrite lookup_singleton_eq. cbn [bind].
  by destruct (bool_decide _).
Qed.
End Parsing.

Section Uploads.
Context {locale : Engine.Locale} {numerics : Engine.Numerics}
        {gemini : Summarizers.Gemini} {codec : Codec}
        {readers : Readers} {tempfile : Tempfile}.

(** When the parsing of an uploaded file fails, either the temporary
    file could not be created, and POST /api/summarize answers as it
    does on every exception: 400 with the message for a ValueError
    (a NUL in the extension), 500 for another exception (a name too
    long); or the file is a .pdf or a .docx, and the answer is 400
    with the message of its parser.  In both cases no summarizer is
    called and the table is left as it was. *)
Theorem upload_failure_answers
        (base : Entry.Surroundings) (fs : FileSystem) (db : Storage.Database)
        (req : Entry.Request) (file : Entry.Upload) (e : exn) :
  Entry.is_json req = false →
  Entry.files req !! "file" = Some file →
  truthy_str (Entry.upload_filename file) = true →
  (parse_uploaded_file fs file (Entry.upload_filename file)).2 = Raise e →
  let ext := lower (splitext_ext (Entry.upload_filename file)) in
  let answer := Entry.api_summarize (surroundings := on_disk fs base) db req in
  let status :=
    match e with
    | ValueError m => Entry.error_response 400 m
    | _ => Entry.error_response 500 ("Summarization failed: " +:+ exn_str e)
    end in
  answer = (db, status, [Entry.Parsed (Entry.upload_filename file)])
  ∧ (temp_name fs ext = Raise e
     ∨ (∃ tmp_path : string, temp_name fs ext = Ok tmp_path)
       ∧ (∃ m : string,
            e = ValueError ("Failed to parse PDF: " +:+ m) ∧ ext = ".pdf"
            ∨ e = ValueError ("Failed to parse Word document: " +:+ m) ∧ ext = ".docx")
       ∧ answer = (db, Entry.error_response 400 (exn_str e),
                   [Entry.Parsed (Entry.upload_filename file)])).
Proof.
  intros Hjson Hfile Hname Hfail. cbn zeta.
  assert (Hanswer :
            Entry.api_summarize (surroundings := on_disk fs base) db req
            = (db, Entry.handle_exception e,
               [Entry.Parsed (Entry.upload_filename file)])).
  { unfold Entry.api_summarize, Entry.read_input.
    rewrite Hjson, Hfile, Hname. cbn [Entry.parse_uploaded_file on_disk].
    rewrite Hfail. done. }
  split; [exact Hanswer|].
  destruct (temp_name fs (lower (splitext_ext (Entry.upload_filename file))))
    as [name|e'] eqn:Htmp.
  2: { left. rewrite (upload_not_created fs file _ e' Htmp) in Hfail.
       cbn [snd] in Hfail. congruence. }
  right. split; [by eexists|].
  destruct (upload_is_file fs file (Entry.upload_filename file) name Htmp) as [Hup Hext].
  rewrite Hup in Hfail. cbn [snd] in Hfail.
  pose proof (detect_and_parse_cases
                (<[name := File (Entry.upload_content file)]> fs) name) as Hcases.
  cbn zeta in Hcases. rewrite Hfail, Hext in Hcases.
  unfold FileSystem in Hcases. rewrite lookup_insert_eq in Hcases.
  destruct (String.eqb _ ".pdf") eqn:Hpdf.
  { destruct Hcases as [m ->]. apply String.eqb_eq in Hpdf.
    split; [exists m; by left | exact Hanswer]. }
  destruct (String.eqb _ ".docx") eqn:Hdocx.
  { destruct Hcases as [m ->]. apply String.eqb_eq in Hdocx.
    split; [exists m; by right | exact Hanswer]. }
  destruct (bool_decide _); [done|]. by destruct Hcases as [_ [e' ?]].
Qed.
End Uploads.

Import Sample.

Lemma parse_docx_collects_witness :
  parse_docx (readers := Cases.marked)
             {[ "minutes.docx" := File ("PKFirst." +:+ nl +:+ "  " +:+ nl +:+ "Second.") ]}
             "minutes.docx"
  = Ok (strip (join nl (filter (fun text => truthy_str (strip text) = true)
                               (["First."; "  "; "Second."] ++ concat (concat []))))).
Proof.
  apply (parse_docx_collects (readers := Cases.marked)
           {[ "minutes.docx" := File ("PKFirst." +:+ nl +:+ "  " +:+ nl +:+ "Second.") ]}
           "minutes.docx" ("PKFirst." +:+ nl +:+ "  " +:+ nl +:+ "Second.")
           {| paragraphs := ["First."; "  "; "Second."]; tables := [] |}).
  - by vm_compute.
  - by vm_compute.
Defined.

Lemma upload_failure_answers_witness :
  let e := ValueError ("Failed to parse PDF: " +:+ "cannot extract the page") in
  let ext := Parsers.lower (splitext_ext "scan.PDF") in
  let answer :=
    Entry.api_summarize (gemini := canned "")
                        (surroundings := on_disk (readers := Cases.marked)
                                                 (tempfile := long_names)
                                                 Cases.shelf desk)
                        None Cases.upload_request in
  answer = (None, Entry.error_response 400 ("Failed to parse PDF: " +:+ "cannot extract the page"),
            [Entry.Parsed "scan.PDF"])
  ∧ (Cases.long_name_or_error Cases.shelf ext = Raise e
     ∨ (∃ tmp_path : string, Cases.long_name_or_error Cases.shelf ext = Ok tmp_path)
       ∧ (∃ m : string,
            e = ValueError ("Failed to parse PDF: " +:+ m) ∧ ext = ".pdf"
            ∨ e = ValueError ("Failed to parse Word document: " +:+ m) ∧ ext = ".docx")
       ∧ answer = (None, Entry.error_response 400 (exn_str e), [Entry.Parsed "scan.PDF"])).
Proof.
  apply (upload_failure_answers (gemini := canned "") (readers := Cases.marked)
           (tempfile := long_names) desk Cases.shelf None Cases.upload_request
           Cases.scan_upload
           (ValueError ("Failed to parse PDF: " +:+ "cannot extract the page")));
    [reflexivity | reflexivity | reflexivity | by vm_compute].
Defined.

(** An upload whose extension holds a NUL, and one whose extension is
    too long for a file name: no temporary file is made. *)
Example upload_name_refused :
  parse_uploaded_file (readers := Cases.marked) (tempfile := long_names)
    Cases.shelf {| Entry.upload_filename := "a.b" +:+ String "000" EmptyString;
                   Entry.upload_content := "Hi." |} ("a.b" +:+ String "000" EmptyString)
  = (Cases.shelf, Raise (ValueError "embedded null byte"))
  ∧ ∃ m : string,
      parse_uploaded_file (readers := Cases.marked) (tempfile := long_names)
        Cases.shelf {| Entry.upload_filename := "a." +:+ repeat_str "b" 300;
                       Entry.upload_content := "Hi." |} ("a." +:+ repeat_str "b" 300)
      = (Cases.shelf, Raise (OtherError m)).
Proof. split; [by vm_compute|]. eexists. by vm_compute. Qed.

(** The parsers on the sample file system. *)
Example shelf_parsed :
  detect_and_parse (readers := Cases.marked) Cases.shelf "notes/ten.txt"
  = Ok (ten_sentences, "text")
  ∧ detect_and_parse (readers := Cases.marked) Cases.shelf "notes/scan.PDF"
    = Raise (ValueError "Failed to parse PDF: cannot extract the page")
  ∧ detect_and_parse (readers := Cases.marked) Cases.shelf "notes"
    = Raise (ValueError "Unsupported file type: ")
  ∧ detect_and_parse (readers := Cases.marked) Cases.shelf "notes/none.txt"
    = Raise (OtherError "File not found: notes/none.txt")
  ∧ splitext_ext "archive.tar.GZ" = ".GZ"
  ∧ splitext_ext "dir.d/.bashrc" = EmptyString
  ∧ splitext_ext "..a." = "."
  ∧ parse_uploaded_file (readers := Cases.marked) (tempfile := long_names)
      Cases.shelf {| Entry.upload_filename := "a.md"; Entry.upload_content := " Hi. " |} "a.md"
    = (Cases.shelf, Ok ("Hi.", "text")).
Proof. repeat split; by vm_compute. Qed.

End ParserLaws.

(** ** The commands of cli.py *)

Module CommandLaws.
Import Engine Summarizers Storage Entry Commands.
Import StorageFacts StorageLaws EntryFacts.

Lemma for_each_echo (lines : list string) : for_each lines echo = (lines, Ok tt).
Proof.
  induction lines as [|line lines IH]; [done|].
  cbn [for_each]. rewrite IH. done.
Qed.

Lemma for_each_returns {A} (items : list A) (body : A → Script unit) :
  Forall (fun x => (body x).2 = Ok tt) items →
  (for_each items body).2 = Ok tt.
Proof.
  induction items as [|x items IH]; [done|].
  intros [Hx Hrest]%Forall_cons. cbn [for_each]. unfold and_then.
  destruct (body x) as [out r]. cbn [snd] in Hx. subst r.
  destruct (for_each items body) as [out' r']. cbn [snd] in *. by apply IH.
Qed.

Lemma entry_lines_returns (entry : Z * Row) : (entry_lines (listing_of_row entry)).2 = Ok tt.
Proof.
  destruct entry as [id r]. unfold entry_lines, listing_of_row.
  change (dict_get "summary_preview" _) with (Some (cell (substr 200 <$> summary r))).
  destruct (summary r) as [s|]; cbn [cell fmap option_fmap option_map]; [|done].
  destruct (truthy_str (substr 200 s)); [|done].
  by destruct (100 <? String.length (substr 200 s))%nat.
Qed.

Section Commands.
Context {codec : Codec} {surroundings : Surroundings}.

(** [show] on a record that was saved prints its filename and id, its
    timestamp, mode and length, the summary and the key points numbered
    from 1, and ends with status 0. *)
Theorem show_prints_saved
        (db : Database) (now filename original_text summary : string)
        (key_points : list string) (mode length file_type : string) :
  let saved := save_summary db now filename original_text summary
                            key_points mode length file_type in
  cli_show saved.1 saved.2
  = {| exit_code := 0;
       stdout := [nl +:+ repeat_str "=" 60;
                  "📄 " +:+ filename +:+ " (ID: " +:+ pretty saved.2 +:+ ")";
                  "📅 " +:+ now +:+ " | Mode: " +:+ mode +:+ " | Length: " +:+ length;
                  repeat_str "=" 60;
                  nl +:+ "📝 SUMMARY:" +:+ nl;
                  summary;
                  nl +:+ "📌 KEY POINTS:"]
                 ++ numbered "  " key_points;
       stderr := []; database := saved.1; written := None; calls := [] |}.
Proof.
  cbn zeta. unfold cli_show. rewrite get_saved. unfold record_of.
  cbv beta iota. unfold finish.
  set (id := (save_summary _ _ _ _ _ _ _ _ _).2).
  set (db' := (save_summary _ _ _ _ _ _ _ _ _).1).
  repeat match goal with
         | |- context [dict_item ?k ?d] =>
             let v := eval cbv in (dict_item k d) in change (dict_item k d) with v
         end.
  match goal with
  | |- context [dict_get "key_points" ?d] =>
      change (dict_get "key_points" d) with (Some (VList (VStr <$> key_points)))
  end.
  cbn [and_then lift echo echo_value ret bind py_iter default app fst snd py_str].
  cbv [Datatypes.id]. cbn [py_iter].
  rewrite for_each_echo, <-list_fmap_compose.
  rewrite (list_fmap_ext (py_str ∘ VStr) Datatypes.id key_points) by done.
  by rewrite list_fmap_id.
Qed.

(** On an id that is not stored, [show] and [export], in either of its
    formats, print one line on the error stream and nothing else,
    write no file, leave the table as it is and exit with status 1.
    The line says that the summary is not found when the id fits 64
    bits, and gives the message of the OverflowError when it does
    not. *)
Theorem commands_on_missing_id
        (db : Database) (summary_id : Z) (format : string) (output : option string) :
  ¬ stored db summary_id →
  format = "txt" ∨ format = "json" →
  let missing message :=
    {| exit_code := 1; stdout := []; stderr := [message];
       database := Some (init_db db); written := None; calls := [] |} in
  let error := "❌ Error: " +:+ exn_str overflow in
  cli_show db summary_id
  = missing (if bool_decide (int64 summary_id)
             then "❌ Summary " +:+ pretty summary_id +:+ " not found" else error)
  ∧ cli_export db summary_id format output
    = missing (if bool_decide (int64 summary_id)
               then "❌ Summary with ID " +:+ pretty summary_id +:+ " not found"
               else error).
Proof.
  intros Hno _. cbn zeta.
  assert (Hrow : rows (init_db db) !! summary_id = None).
  { destruct (rows (init_db db) !! summary_id) eqn:Hr; [|done].
    destruct Hno. by eexists. }
  unfold cli_show, cli_export, export_summary.
  rewrite get_summary_absent by done.
  by destruct (bool_decide (int64 summary_id)).
Qed.

(** [export] on a record that was saved, in a format other than json:
    without an output path the text layout is printed; with one, the
    layout is written to that path and only the path is printed; and
    when the file cannot be written the command exits with status 1
    and the error on the error stream. *)
Theorem export_command_on_saved
        (db : Database) (now filename original_text summary : string)
        (key_points : list string) (mode length file_type format path : string) :
  format ≠ "json" →
  truthy_str path = true →
  let saved := save_summary db now filename original_text summary
                            key_points mode length file_type in
  let layout := text_layout now filename summary key_points mode length in
  cli_export saved.1 saved.2 format None
  = {| exit_code := 0; stdout := [layout]; stderr := []; database := saved.1;
       written := None; calls := [] |}
  ∧ cli_export saved.1 saved.2 format (Some path)
    = match write_file path layout with
      | None =>
          {| exit_code := 0; stdout := ["📁 Exported to: " +:+ path]; stderr := [];
             database := saved.1; written := Some (path, layout); calls := [] |}
      | Some e =>
          {| exit_code := 1; stdout := []; stderr := ["❌ Error: " +:+ exn_str e];
             database := saved.1; written := None; calls := [] |}
      end.
Proof.
  intros Hfmt Hpath. cbn zeta. unfold cli_export.
  rewrite export_saved_text by done. rewrite text_layout_truthy, Hpath. cbn [negb].
  split; [done|]. by destruct (write_file path _).
Qed.

(** [list-saved] with a limit that fits 64 bits does not fail.  It
    reports that nothing is saved exactly when the listing is empty,
    which is the case for an empty table and for the limit 0;
    otherwise its first line gives the number of entries listed, which
    is the limit when more records are stored.  With a limit outside
    64 bits it prints the message of the OverflowError on the error
    stream and exits with status 1. *)
Theorem list_saved_runs (db : Database) (limit : Z) :
  let run := cli_list_saved db limit in
  let listed :=
    if limit <? 0 then size (rows (init_db db))
    else (Z.to_nat limit `min` size (rows (init_db db)))%nat in
  database run = Some (init_db db)
  ∧ written run = None
  ∧ (¬ int64 limit →
     exit_code run = 1 ∧ stdout run = []
     ∧ stderr run = ["❌ Error: " +:+ exn_str overflow])
  ∧ (int64 limit →
     exit_code run = 0
     ∧ stderr run = []
     ∧ (stdout run = ["📭 No saved summaries found"] ↔ listed = 0%nat)
     ∧ (listed ≠ 0%nat →
        stdout run !! 0%nat
        = Some (nl +:+ "📚 Saved Summaries (" +:+ pretty listed +:+ " total)" +:+ nl))).
Proof.
  cbn zeta. unfold cli_list_saved, list_summaries.
  destruct (bool_decide (int64 limit)) eqn:Hlimit.
  2: { apply bool_decide_eq_false in Hlimit. cbn. repeat split; done. }
  apply bool_decide_eq_true in Hlimit.
  pose proof (select_listing_length (init_db db) limit) as Hlen.
  rewrite <-Hlen. clear Hlen.
  cbn [lift and_then app].
  destruct (select_listing (init_db db) limit) as [|e l] eqn:Hsel.
  { cbn. repeat split; done. }
  cbn [fmap list_fmap]. rewrite <-Hsel.
  assert (Hbody : (for_each (listing_of_row <$> select_listing (init_db db) limit)
                            entry_lines).2 = Ok tt).
  { apply for_each_returns, Forall_fmap, Forall_forall. intros x _.
    apply entry_lines_returns. }
  rewrite Hsel in *. cbn [fmap list_fmap] in *.
  unfold finish, and_then, echo in *.
  destruct (for_each _ entry_lines) as [out r]. cbn [snd] in Hbody. subst r.
  cbn [exit_code stderr database written stdout app length].
  rewrite length_fmap.
  repeat split; try done.
Qed.
End Commands.

Section Summarize.
Context {locale : Locale} {numerics : Numerics} {gemini : Gemini}
        {codec : Codec} {surroundings : Surroundings}.

(** On arguments the command line lets through (a path that exists, a
    mode and a length of the choices), the [summarize] command exits
    with status 0 or 1, and with 1 exactly when it wrote one line to
    the error stream; a run that fails leaves no output file behind;
    without [--save] the database is not touched; and whenever the
    database differs afterwards, [--save] was given and one record was
    added, under an id that was not stored, by the last call of the
    run. *)
Theorem summarize_command_effects
        {readers : Parsers.Readers} {tempfile : Parsers.Tempfile}
        (base : Surroundings) (fs : Parsers.FileSystem)
        (db : Database) (file_path mode length : string) (key : option string)
        (save : bool) (output : option string) :
  is_Some (fs !! file_path) →
  mode ∈ ["local"; "online"] →
  length ∈ ["short"; "medium"; "long"] →
  let run := cli_summarize (surroundings := Parsers.on_disk fs base)
                           db file_path mode length key save output in
  (exit_code run = 0 ∧ stderr run = []
   ∨ exit_code run = 1 ∧ Datatypes.length (stderr run) = 1%nat)
  ∧ (exit_code run = 1 → written run = None)
  ∧ (save = false → database run = db)
  ∧ (database run = db
     ∨ save = true
       ∧ ∃ id : Z, rows (init_db db) !! id = None
                   ∧ stored (database run) id
                   ∧ last (calls run) = Some (Saved id)).
Proof.
  intros _ _ _. cbn zeta. unfold cli_summarize.
  destruct (detect_and_parse file_path) as [[text file_type]|e];
    [|cbn; repeat split; auto].
  destruct (negb (truthy_str (strip text))); [cbn; repeat split; auto|].
  destruct (_ && _); [cbn; repeat split; auto|].
  destruct (summarize _ text length) as [s1 [summary|e]]; [|cbn; repeat split; auto].
  destruct (extract_key_points s1 text 5) as [s2 [key_points|e]];
    [|cbn; repeat split; auto].
  assert (Hsaved : ∀ t id r, stored (Some {| rows := <[id := r]> (rows t); sequence := id |}) id).
  { intros t id r. unfold stored. cbn [init_db rows]. rewrite lookup_insert_eq. by eexists. }
  destruct save; unfold save_summary, insert_row; cbv beta iota zeta.
  - destruct output as [path|]; [destruct (truthy_str path);
                                 [destruct (write_file path _)|]|].
    all: cbn [exit_code stderr written database calls fail_with fail Datatypes.length].
    all: split; [auto|]; split; [done|]; split; [done|]; right; split; [done|].
    all: eexists; split; [apply next_rowid_fresh|]; split; [apply Hsaved|].
    all: by rewrite last_snoc.
  - destruct output as [path|]; [destruct (truthy_str path);
                                 [destruct (write_file path _)|]|].
    all: cbn [exit_code stderr written database calls fail_with fail Datatypes.length].
    all: split; [auto|]; split; [done|]; split; [done|]; by left.
Qed.

(** When the output file cannot be written, a run with [--save] exits
    with status 1 although the record has been saved. *)
Theorem save_survives_failed_write
        (db : Database) (file_path mode length text file_type path : string) (e : exn) :
  detect_and_parse file_path = Ok (text, file_type) →
  all_space text = false →
  mode ≠ "online" →
  truthy_str path = true →
  (∀ content, write_file path content = Some e) →
  let run := cli_summarize db file_path mode length None true (Some path) in
  let summary := (local_summarize new_local text length).2 in
  let key_points := (local_extract_key_points new_local text 5).2 in
  let saved := save_summary db current_timestamp (basename file_path) text summary
                            key_points mode length file_type in
  exit_code run = 1
  ∧ stderr run = ["❌ Error: " +:+ exn_str e]
  ∧ written run = None
  ∧ database run = saved.1
  ∧ (get_summary (database run) saved.2).2
    = Ok (Some (record_of saved.2 current_timestamp (basename file_path) text summary
                          key_points mode length file_type)).
Proof.
  intros Hparse Hs Hmode Hpath Hwrite. cbn zeta.
  pose proof (get_saved db current_timestamp (basename file_path) text
                (local_summarize new_local text length).2
                (local_extract_key_points new_local text 5).2 mode length file_type) as Hget.
  cbn zeta in Hget. unfold cli_summarize.
  rewrite Hparse, (proj2 (not_all_space_truthy text Hs)). cbn [negb].
  apply String.eqb_neq in Hmode. unfold get_summarizer. rewrite Hmode. cbn [andb].
  cbn [summarize extract_key_points local_summarize local_extract_key_points fst snd]
    in Hget |- *.
  rewrite Hpath.
  destruct (save_summary _ _ _ _ _ _ _ _ _) as [db' id].
  rewrite Hwrite. cbn [exit_code stderr written database fail_with fail fst snd] in Hget |- *.
  split; [done|]. split; [done|]. split; [done|]. split; [done|]. by rewrite Hget.
Qed.
End Summarize.

Import Sample.

Lemma commands_on_missing_id_witness :
  let missing message :=
    {| exit_code := 1; stdout := []; stderr := [message];
       database := Some (init_db Cases.bare_table); written := None; calls := [] |} in
  let error := "❌ Error: " +:+ exn_str overflow in
  cli_show Cases.bare_table 9
  = missing (if bool_decide (int64 9)
             then "❌ Summary " +:+ pretty 9 +:+ " not found" else error)
  ∧ cli_export Cases.bare_table 9 "json" (Some "out.json")
    = missing (if bool_decide (int64 9)
               then "❌ Summary with ID " +:+ pretty 9 +:+ " not found"
               else error).
Proof.
  apply (commands_on_missing_id Cases.bare_table 9 "json" (Some "out.json")).
  - intros [r Hr]. by vm_compute in Hr.
  - by right.
Defined.

(** The same commands on an id of 64 bits and on one beyond. *)
Example show_missing_ids :
  stderr (cli_show Cases.bare_table 9) = ["❌ Summary 9 not found"]
  ∧ stderr (cli_show Cases.bare_table (2 ^ 63))
    = ["❌ Error: Python int too large to convert to SQLite INTEGER"]
  ∧ exit_code (cli_list_saved Cases.bare_table (2 ^ 63)) = 1
  ∧ stdout (cli_list_saved Cases.bare_table 0) = ["📭 No saved summaries found"].
Proof. repeat split; by vm_compute. Qed.

Lemma summarize_command_effects_witness :
  let run := cli_summarize (gemini := canned "")
               (surroundings := Parsers.on_disk (readers := Cases.marked)
                                                (tempfile := ParserFacts.long_names)
                                                Cases.shelf desk)
               None "notes/ten.txt" "local" "short" None true None in
  (exit_code run = 0 ∧ stderr run = []
   ∨ exit_code run = 1 ∧ Datatypes.length (stderr run) = 1%nat)
  ∧ (exit_code run = 1 → written run = None)
  ∧ (true = false → database run = None)
  ∧ (database run = None
     ∨ true = true
       ∧ ∃ id : Z, rows (init_db None) !! id = None
                   ∧ stored (database run) id
                   ∧ last (calls run) = Some (Saved id)).
Proof.
  apply (summarize_command_effects (gemini := canned "") (readers := Cases.marked)
           (tempfile := ParserFacts.long_names) desk Cases.shelf
           None "notes/ten.txt" "local" "short" None true None).
  - eexists. vm_compute. reflexivity.
  - apply (bool_decide_unpack _). by vm_compute.
  - apply (bool_decide_unpack _). by vm_compute.
Defined.

Lemma export_command_on_saved_witness :
  let saved := save_summary None "2024-01-02 00:00:00" "b.txt" "T. U." "T."
                            ["P."; "Q."] "local" "long" "text" in
  let layout := text_layout "2024-01-02 00:00:00" "b.txt" "T." ["P."; "Q."] "local" "long" in
  cli_export (surroundings := Cases.locked_desk) saved.1 saved.2 "txt" None
  = {| exit_code := 0; stdout := [layout]; stderr := []; database := saved.1;
       written := None; calls := [] |}
  ∧ cli_export (surroundings := Cases.locked_desk) saved.1 saved.2 "txt" (Some "b.out")
    = match write_file (Surroundings := Cases.locked_desk) "b.out" layout with
      | None =>
          {| exit_code := 0; stdout := ["📁 Exported to: " +:+ "b.out"]; stderr := [];
             database := saved.1; written := Some ("b.out", layout); calls := [] |}
      | Some e =>
          {| exit_code := 1; stdout := []; stderr := ["❌ Error: " +:+ exn_str e];
             database := saved.1; written := None; calls := [] |}
      end.
Proof.
  apply (export_command_on_saved (surroundings := Cases.locked_desk)
           None "2024-01-02 00:00:00" "b.txt" "T. U." "T." ["P."; "Q."]
           "local" "long" "text" "txt" "b.out");
    [discriminate | reflexivity].
Defined.

Lemma save_survives_failed_write_witness :
  let e := OtherError "[Errno 13] Permission denied: 'out/summary.txt'" in
  let run := cli_summarize (gemini := canned "") (surroundings := Cases.locked_desk)
                           None "notes/ten.txt" "local" "short" None true
                           (Some "out/summary.txt") in
  let summary := (local_summarize new_local ten_sentences "short").2 in
  let key_points := (local_extract_key_points new_local ten_sentences 5).2 in
  let saved := save_summary None (current_timestamp (Surroundings := Cases.locked_desk))
                            (basename "notes/ten.txt") ten_sentences summary
                            key_points "local" "short" "text" in
  exit_code run = 1
  ∧ stderr run = ["❌ Error: " +:+ exn_str e]
  ∧ written run = None
  ∧ database run = saved.1
  ∧ (get_summary (database run) saved.2).2
    = Ok (Some (record_of saved.2 (current_timestamp (Surroundings := Cases.locked_desk))
                          (basename "notes/ten.txt") ten_sentences summary
                          key_points "local" "short" "text")).
Proof.
  apply (save_survives_failed_write (gemini := canned "") (surroundings := Cases.locked_desk)
           None "notes/ten.txt" "local" "short" ten_sentences "text" "out/summary.txt"
           (OtherError "[Errno 13] Permission denied: 'out/summary.txt'")).
  - reflexivity.
  - by vm_compute.
  - discriminate.
  - reflexivity.
  - intros content. reflexivity.
Defined.

End CommandLaws.
